(** * Horizon: canary-rollout ability and pipeline deploy state machine

    A shallow embedding of two pieces of the Horizon control plane:

    - the rollout ability ([MatchGK], [getRolloutByNode], [IsHealthy],
      [GetSteps], [Action]) of package [rollout];
    - the deploy orchestrator [InternalDeployV2] of the cluster controller;
    - the informer side of the rollout ability ([getRollout], [ListPods]);
    - the request middlewares of packages [prehandle] and [auth].

    Go values are modelled as the code has them: [int] is a 64-bit integer
    (a [Z] with the wrap-around written out), [int32] fields are [Z],
    [float64] is IEEE 754 binary64 through the [spec_float] operations of
    the standard library, Go maps are [gmap]s, pointers that the code tests
    against [nil] are [option]s, and a run-time panic is an explicit
    outcome.  Kubernetes, Git, the CD backend and the database managers are
    collaborators whose answers are inputs of the model. *)

From Stdlib Require Import ZArith Lia Bool.
From Stdlib Require Import Floats.SpecFloat.
From stdpp Require Import base option list gmap strings pretty fin_maps.

Set Warnings "-register-all".
Open Scope Z_scope.

(* ===================================================================== *)
(** * Go run-time values *)
(* ===================================================================== *)

Module Go.

(** What a Go function call does: it returns, or it panics. *)
Inductive outcome (A : Type) : Type :=
| Ret (a : A)
| Panic (why : string).
Arguments Ret {A} a.
Arguments Panic {A} why.

Definition nil_deref : string := "invalid memory address or nil pointer dereference".
Definition out_of_range : string := "index out of range".

(** [int] on the 64-bit targets Horizon is built for. *)
Definition int_min : Z := - 2 ^ 63.
Definition int_max : Z := 2 ^ 63 - 1.
Definition is_int (z : Z) : Prop := int_min <= z <= int_max.
Definition is_int32 (z : Z) : Prop := - 2 ^ 31 <= z < 2 ^ 31.

(** Two's complement wrap-around of an [int] result. *)
Definition wrap (z : Z) : Z := (z + 2 ^ 63) mod 2 ^ 64 - 2 ^ 63.

(** [int32(x)] for an [int] value [x]: the low 32 bits, signed. *)
Definition wrap32 (z : Z) : Z := (z + 2 ^ 31) mod 2 ^ 32 - 2 ^ 31.

Definition int_add (a b : Z) : Z := wrap (a + b).
Definition int_sub (a b : Z) : Z := wrap (a - b).

(** The sum of a slice of [int], accumulated in [int]. *)
Definition int_sum (l : list Z) : Z := fold_left int_add l 0.

(** The sum of the same values as integers, without wrap-around. *)
Definition Zsum (l : list Z) : Z := fold_right Z.add 0 l.

End Go.

(* ===================================================================== *)
(** * float64 *)
(* ===================================================================== *)

Module Float64.

Definition prec : Z := 53.
Definition emax : Z := 1024.

(** [float64(x)] for an integer [x]: the nearest binary64 value. *)
Definition of_int (z : Z) : spec_float := binary_normalize prec emax z 0 false.

Definition div : spec_float -> spec_float -> spec_float := SFdiv prec emax.
Definition mul : spec_float -> spec_float -> spec_float := SFmul prec emax.
Definition ltb : spec_float -> spec_float -> bool := SFltb.
Definition eqb : spec_float -> spec_float -> bool := SFeqb.

Definition is_nan (x : spec_float) : bool :=
  match x with S754_nan => true | _ => false end.
Definition is_neg_inf (x : spec_float) : bool :=
  match x with S754_infinity true => true | _ => false end.
Definition signbit (x : spec_float) : bool :=
  match x with
  | S754_zero s | S754_infinity s | S754_finite s _ _ => s
  | S754_nan => false
  end.

(** [math.Ceil]: the least integral value not below [x]; zeros, infinities
    and NaN are returned as they are, and a negative [x] above [-1] gives
    the negative zero. *)
Definition Ceil (x : spec_float) : spec_float :=
  match x with
  | S754_finite s m e =>
      if 0 <=? e then x
      else
        let q := Z.pos m / 2 ^ (- e) in
        let r := Z.pos m mod 2 ^ (- e) in
        if s then (if q =? 0 then S754_zero true else of_int (- q))
        else of_int (if r =? 0 then q else q + 1)
  | _ => x
  end.

(** [math.Min], with its special cases in the order of the Go source. *)
Definition Min (x y : spec_float) : spec_float :=
  if is_neg_inf x || is_neg_inf y then S754_infinity true
  else if is_nan x || is_nan y then S754_nan
  else if eqb x (S754_zero false) && eqb x y then
         (if signbit x then x else y)
  else if ltb x y then x else y.

(** [int(x)]: the fraction is discarded; a value that [int] cannot hold
    (also NaN and the infinities) converts to the smallest [int], as the
    conversion instruction of amd64 does. *)
Definition to_int (x : spec_float) : Z :=
  match x with
  | S754_zero _ => 0
  | S754_finite s m e =>
      let a := if 0 <=? e then Z.pos m * 2 ^ e else Z.pos m / 2 ^ (- e) in
      let v := if s then - a else a in
      if (Go.int_min <=? v) && (v <=? Go.int_max) then v else Go.int_min
  | _ => Go.int_min
  end.

(** The number of binary digits of a mantissa. *)
Definition digits (p : positive) : Z := Z.pos (digits2_pos p).

(** A float that is a zero, or a finite value below [2 ^ M] in magnitude
    whose mantissa has at most 53 digits. *)
Definition small (M : Z) (x : spec_float) : Prop :=
  match x with
  | S754_zero _ => True
  | S754_finite _ m e => digits m <= 53 /\ digits m + e <= M
  | _ => False
  end.

End Float64.

(* ===================================================================== *)
(** * Errors *)
(* ===================================================================== *)

Module Errors.

(** What a Kubernetes API call fails with. *)
Inductive k8s_error : Type :=
| K8sNotFound (name : string)
| K8sFailure (msg : string).

(** [herrors] sources. *)
Definition ResourceInK8S : string := "ResourceInK8S".
Definition PipelinerunSource : string := "Pipelinerun".

Inductive error : Type :=
| ErrGetFailed (source : string) (msg : string) (cause : k8s_error)
    (* perror.Wrapf(herrors.NewErrGetFailed(source, msg), "... err = %v", cause) *)
| ErrK8s (e : k8s_error)              (* a client error returned as it is *)
| ErrConvert (msg : string)           (* runtime.DefaultUnstructuredConverter *)
| ErrAccessor (msg : string)          (* unstructured.Nested* accessor error *)
| ErrParamInvalid (msg : string)      (* perror.Wrapf(herrors.ErrParamInvalid, msg) *)
| ErrNotFound (source : string) (msg : string)   (* herrors.NewErrNotFound *)
| ErrWithMessage (e : error) (op : string)       (* perror.WithMessage(e, op) *)
| ErrOther (msg : string).

(** The cause at the bottom of a chain of [WithMessage] wrappers. *)
Fixpoint Cause (e : error) : error :=
  match e with
  | ErrWithMessage e' _ => Cause e'
  | _ => e
  end.

Definition is_InvalidArgument (e : error) : bool :=
  match Cause e with ErrParamInvalid _ => true | _ => false end.

Definition is_NotFound (e : error) : bool :=
  match Cause e with ErrNotFound _ _ => true | _ => false end.

End Errors.

(* ===================================================================== *)
(** * Unstructured objects *)
(* ===================================================================== *)

Module Unstructured.
Import Errors.

(** The tree behind [map[string]interface{}]. *)
Inductive jvalue : Type :=
| JNull
| JBool (b : bool)
| JNum (z : Z)
| JStr (s : string)
| JArr (l : list jvalue)
| JMap (m : gmap string jvalue).

Record Unstructured : Type := { Object : gmap string jvalue }.

(** [unstructured.NestedFieldNoCopy] (apimachinery): walk the fields; a
    nil value or a missing key is "not found", a value that is not a map
    on the way is an error. *)
Fixpoint NestedFieldNoCopy_from (val : jvalue) (fields : list string)
  : jvalue * bool * option error :=
  match fields with
  | [] => (val, true, None)
  | field :: rest =>
      match val with
      | JNull => (JNull, false, None)
      | JMap m =>
          match m !! field with
          | Some v => NestedFieldNoCopy_from v rest
          | None => (JNull, false, None)
          end
      | _ => (JNull, false, Some (ErrAccessor "expected map[string]interface{}"))
      end
  end.

Definition NestedFieldNoCopy (obj : gmap string jvalue) (fields : list string)
  : jvalue * bool * option error :=
  NestedFieldNoCopy_from (JMap obj) fields.

(** [unstructured.NestedBool]. *)
Definition NestedBool (obj : gmap string jvalue) (fields : list string)
  : bool * bool * option error :=
  let '(val, found, err) := NestedFieldNoCopy obj fields in
  if negb found || bool_decide (err ≠ None) then (false, found, err)
  else match val with
       | JBool b => (b, true, None)
       | _ => (false, false, Some (ErrAccessor "expected bool"))
       end.

End Unstructured.

(* ===================================================================== *)
(** * The rollout ability (package rollout) *)
(* ===================================================================== *)

Module Rollout.
Import Go Errors Unstructured.

Section Ability.

(** [corev1.PodSpec] is only hashed, never inspected. *)
Context {PodSpec : Type}.

(** ** Kubernetes objects, restricted to the fields the ability reads *)

Record ObjectMeta : Type := {
  Namespace : string;
  Name : string;
  Labels : gmap string string;
  Annotations : gmap string string
}.

Record PodTemplateSpec : Type := {
  Template_ObjectMeta : ObjectMeta;
  Template_Spec : PodSpec
}.

(** A canary step; [SetWeight] and [SetReplica] are [*int32].  A step with
    neither (a pause, an analysis) has both unset. *)
Record CanaryStep : Type := {
  SetWeight : option Z;
  SetReplica : option Z
}.

Record CanaryStrategy : Type := { Steps : list CanaryStep }.

Record RolloutStrategy : Type := { Canary : option CanaryStrategy }.

Record RolloutSpec : Type := {
  Replicas : option Z;          (* *int32 *)
  Paused : bool;
  Template : PodTemplateSpec;
  Strategy : RolloutStrategy
}.

Record RolloutStatus : Type := {
  CurrentStepIndex : option Z;  (* *int32 *)
  CurrentStepHash : string
}.

Record RolloutObj : Type := {
  Rollout_ObjectMeta : ObjectMeta;
  Spec : RolloutSpec;
  Status : RolloutStatus
}.

Record Pod : Type := {
  Pod_ObjectMeta : ObjectMeta;
  Pod_Spec : PodSpec;
  Pod_Phase : string
}.

(** [v1alpha1.ResourceNode]. *)
Record ResourceNode : Type := {
  Node_Namespace : string;
  Node_Name : string;
  Node_Version : string
}.

(** [kube.Client]: the dynamic client's [Get] keyed by group, version,
    resource, namespace and name, and the typed client's pod [List] keyed
    by namespace and label selector (the selector is kept as the label
    map [MakeLabels] renders). *)
Record Client : Type := {
  Dynamic_Get :
    string -> string -> string -> string -> string -> k8s_error + Unstructured;
  Pods_List : string -> gmap string string -> k8s_error + list Pod
}.

(** [workload.Step]. *)
Record Step : Type := {
  Index : Z;
  Total : Z;
  Replicas_ : list Z;
  ManualPaused : bool;
  AutoPromote : bool;
  Extra : option string
}.

(** ** Helpers declared outside the files at hand *)

(** [computePodSpecHash] and [computeStepHash] of the package, and the
    apimachinery converter behind [FromUnstructured]; a successful
    conversion may still leave the instance pointer nil. *)
Variable computePodSpecHash : PodSpec -> string.
Variable computeStepHash : RolloutObj -> string.
Variable FromUnstructured : gmap string jvalue -> error + option RolloutObj.

(** ** MatchGK *)

Definition MatchGK (group kind : string) : bool :=
  bool_decide (group = "argoproj.io") && bool_decide (kind = "Rollout").

(** ** getRolloutByNode *)

Definition getRolloutByNode (node : ResourceNode) (client : Client)
  : option RolloutObj * option Unstructured * option error :=
  match Dynamic_Get client "argoproj.io" (Node_Version node) "rollouts"
          (Node_Namespace node) (Node_Name node) with
  | inl err =>
      (None, None,
       Some (ErrGetFailed ResourceInK8S "failed to get rollout in k8s" err))
  | inr un =>
      match FromUnstructured (Object un) with
      | inl err => (None, Some un, Some err)
      | inr instance => (instance, Some un, None)
      end
  end.

(** ** IsHealthy *)

(** The inner loop over the template annotations: [pod.Annotations[k]]
    reads the empty string for a key the pod does not have. *)
Definition annotationsMatch (template pod : gmap string string) : bool :=
  forallb (fun kv => bool_decide (default "" (pod !! kv.1) = kv.2))
          (map_to_list template).

(** One turn of the loop over [pods.Items]: does this pod count? *)
Definition podCounts (instance : RolloutObj) (pod : Pod) : bool :=
  if bool_decide (Pod_Phase pod ≠ "Running") then false
  else if bool_decide (computePodSpecHash (Template_Spec (Template (Spec instance)))
                       ≠ computePodSpecHash (Pod_Spec pod)) then false
  else annotationsMatch
         (Annotations (Template_ObjectMeta (Template (Spec instance))))
         (Annotations (Pod_ObjectMeta pod)).

Definition countPods (instance : RolloutObj) (pods : list Pod) : Z :=
  fold_left (fun count pod => if podCounts instance pod then count + 1 else count)
            pods 0.

Definition IsHealthy (node : ResourceNode) (client : Client)
  : outcome (bool * option error) :=
  let '(instance, _, err) := getRolloutByNode node client in
  match err with
  | Some e => Ret (true, Some e)
  | None =>
  match instance with
  | None => Ret (true, None)
  | Some instance =>
  match Pods_List client (Namespace (Rollout_ObjectMeta instance))
          (Labels (Template_ObjectMeta (Template (Spec instance)))) with
  | inl e => Ret (true, Some (ErrK8s e))
  | inr pods =>
      let required := match Replicas (Spec instance) with
                      | Some r => r
                      | None => 0
                      end in
      let count := countPods instance pods in
      if bool_decide (count ≠ required) then Ret (false, None)
      else
        match CurrentStepIndex (Status instance) with
        | Some idx =>
            match Canary (Strategy (Spec instance)) with
            | None => Panic nil_deref
            | Some canary =>
                Ret (bool_decide (idx = Z.of_nat (length (Steps canary))), None)
            end
        | None => Ret (true, None)
        end
  end end end.

(** ** GetSteps *)

(** [int(math.Ceil(float64(weight)/100*float64(replicasTotal)))]. *)
Definition weightReplicas (weight replicasTotal : Z) : Z :=
  Float64.to_int
    (Float64.Ceil
       (Float64.mul (Float64.div (Float64.of_int weight) (Float64.of_int 100))
                    (Float64.of_int replicasTotal))).

(** The first loop: one target appended for a step with a weight, else
    for a step with a replica count, nothing for any other step. *)
Fixpoint replicasListLoop (steps : list CanaryStep) (replicasTotal : Z)
  (replicasList : list Z) : list Z :=
  match steps with
  | [] => replicasList
  | step :: rest =>
      replicasListLoop rest replicasTotal
        match SetWeight step with
        | Some w => replicasList ++ [weightReplicas w replicasTotal]
        | None =>
            match SetReplica step with
            | Some r => replicasList ++ [r]
            | None => replicasList
            end
        end
  end.

(** The second loop, [for i := 0; i < len(replicasList); i++], run for the
    [n] indices from [i] on. *)
Fixpoint incrementLoop (replicasList : list Z) (i n : nat)
  (incrementReplicasList : list Z) : list Z :=
  match n with
  | O => incrementReplicasList
  | S n' =>
      let replicas :=
        if (0 <? i)%nat
        then int_sub (replicasList !!! i) (replicasList !!! (i - 1)%nat)
        else replicasList !!! i in
      incrementLoop replicasList (S i) n' (incrementReplicasList ++ [replicas])
  end.

Definition incrementReplicas (replicasList : list Z) : list Z :=
  incrementLoop replicasList 0 (length replicasList) [].

Definition hasEffect (step : CanaryStep) : bool :=
  bool_decide (SetWeight step ≠ None) || bool_decide (SetReplica step ≠ None).

(** The third loop, [for i := 0; i < int(index); i++], run for the [n]
    indices from [i] on; [Steps[i]] panics out of range. *)
Fixpoint stepIndexLoop (steps : list CanaryStep) (i n : nat) (stepIndex : Z)
  : outcome Z :=
  match n with
  | O => Ret stepIndex
  | S n' =>
      match steps !! i with
      | None => Panic out_of_range
      | Some step =>
          stepIndexLoop steps (S i) n'
            (if hasEffect step then stepIndex + 1 else stepIndex)
      end
  end.

(** [int(math.Min(float64(idx), float64(len(steps))))]. *)
Definition clampedIndex (idx : Z) (steps : list CanaryStep) : Z :=
  Float64.to_int
    (Float64.Min (Float64.of_int idx)
                 (Float64.of_int (Z.of_nat (length steps)))).

(** [json.Marshal(map[string]interface{}{"currentIndex": idx})]; an
    [int32] always serializes. *)
Definition marshalCurrentIndex (idx : Z) : error + string :=
  inr ("{" +:+ String.String (Ascii.ascii_of_nat 34) "currentIndex"
           +:+ String.String (Ascii.ascii_of_nat 34) ":" +:+ pretty idx +:+ "}").

Definition GetSteps (node : ResourceNode) (client : Client)
  : outcome (option Step * option error) :=
  let '(instance, un, err) := getRolloutByNode node client in
  match err with
  | Some e => Ret (None, Some e)
  | None =>
  match instance, un with
  | None, _ | _, None => Panic nil_deref
  | Some instance, Some un =>
      let replicasTotal := match Replicas (Spec instance) with
                           | Some r => r
                           | None => 1
                           end in
      let steps := match Canary (Strategy (Spec instance)) with
                   | Some canary => Steps canary
                   | None => []
                   end in
      if bool_decide (Canary (Strategy (Spec instance)) = None)
         || bool_decide (length steps = 0%nat)
      then Ret (Some {| Index := 0; Total := 1; Replicas_ := [replicasTotal];
                        ManualPaused := false; AutoPromote := false;
                        Extra := None |}, None)
      else
        let replicasList := replicasListLoop steps replicasTotal [] in
        let incrementReplicasList := incrementReplicas replicasList in
        let stepIndex :=
          if bool_decide (CurrentStepHash (Status instance) = computeStepHash instance)
          then match CurrentStepIndex (Status instance) with
               | Some idx =>
                   stepIndexLoop steps 0 (Z.to_nat (clampedIndex idx steps)) 0
               | None => Ret 0
               end
          else Ret 0 in
        match stepIndex with
        | Panic why => Panic why
        | Ret stepIndex =>
        match NestedBool (Object un) ["status"; "autoPromote"] with
        | (_, _, Some e) => Ret (None, Some e)
        | (autoPromote, _, None) =>
        match CurrentStepIndex (Status instance) with
        | None => Panic nil_deref
        | Some idx =>
            let bts := match marshalCurrentIndex idx with
                       | inr bts => bts
                       | inl _ => "{}"
                       end in
            Ret (Some {| Index := stepIndex;
                         Total := Z.of_nat (length incrementReplicasList);
                         Replicas_ := incrementReplicasList;
                         ManualPaused := Paused (Spec instance);
                         AutoPromote := autoPromote;
                         Extra := Some bts |}, None)
        end end end
  end end.

(** ** Action *)

(** What a call of [Action] leaves behind: the caller's object as it is
    after the call, the returned pointer ([un] itself, or nil) and the
    error.  [spec] and [status] are the maps held by the object, so a write
    to them is a write to the object. *)
Record ActionResult : Type := {
  obj_after : Unstructured;
  returned : option Unstructured;
  action_err : option error
}.

Definition withSpecStatus (spec status : gmap string jvalue) (un : Unstructured)
  : Unstructured :=
  {| Object := <["status" := JMap status]> (<["spec" := JMap spec]> (Object un)) |}.

Definition actionDone (spec status : gmap string jvalue) (un : Unstructured)
  : outcome ActionResult :=
  let un' := withSpecStatus spec status un in
  Ret {| obj_after := un'; returned := Some un'; action_err := None |}.

Definition actionFail (un : Unstructured) (msg : string) : outcome ActionResult :=
  Ret {| obj_after := un; returned := None;
         action_err := Some (ErrParamInvalid msg) |}.

Definition Action (actionName : string) (un : Unstructured) : outcome ActionResult :=
  match FromUnstructured (Object un) with
  | inl _ =>
      Ret {| obj_after := un; returned := Some un;
             action_err := Some (ErrParamInvalid "convert to rollout failed") |}
  | inr instance =>
  match Object un !! "spec" with
  | Some (JMap spec) =>
  match Object un !! "status" with
  | Some (JMap status) =>
      if bool_decide (actionName = "resume") then
        actionDone (<["paused" := JBool false]> spec)
                   (delete "pauseConditions" status) un
      else if bool_decide (actionName = "pause") then
        actionDone (<["paused" := JBool true]> spec) status un
      else if bool_decide (actionName = "promote-full") then
        match instance with
        | None => Panic nil_deref
        | Some instance =>
            match Canary (Strategy (Spec instance)) with
            | None => Panic nil_deref
            | Some canary =>
                let steps := wrap32 (Z.of_nat (length (Steps canary))) in
                actionDone (<["paused" := JBool false]> spec)
                           (<["currentStepIndex" := JNum steps]>
                              (delete "pauseConditions" status)) un
            end
        end
      else if bool_decide (actionName = "promote") then
        actionDone (<["paused" := JBool false]> spec)
                   (delete "pauseConditions" status) un
      else if bool_decide (actionName = "auto-promote") then
        actionDone (<["paused" := JBool false]> spec)
                   (delete "pauseConditions" (<["autoPromote" := JBool true]> status)) un
      else if bool_decide (actionName = "cancel-auto-promote") then
        actionDone spec (delete "autoPromote" status) un
      else actionFail un "unsupported action"
  | _ => actionFail un "status not found"
  end
  | _ => actionFail un "spec not found"
  end end.

End Ability.

(** ** Notions the properties are stated with *)

(** The canary steps an object declares; none without a canary strategy. *)
Definition declaredSteps {PodSpec} (instance : @RolloutObj PodSpec) : list CanaryStep :=
  match Canary (Strategy (Spec instance)) with
  | Some canary => Steps canary
  | None => []
  end.

(** The declared replica count, 1 when unset, as [GetSteps] reads it. *)
Definition replicasTotalOf {PodSpec} (instance : @RolloutObj PodSpec) : Z :=
  match Replicas (Spec instance) with
  | Some r => r
  | None => 1
  end.

(** The cumulative target a step contributes, if any. *)
Definition stepTarget (replicasTotal : Z) (step : CanaryStep) : option Z :=
  match SetWeight step with
  | Some w => Some (weightReplicas w replicasTotal)
  | None => SetReplica step
  end.

(** The number of steps that set a weight or a replica count. *)
Definition countEffect (steps : list CanaryStep) : Z :=
  Z.of_nat (length (filter (fun s => hasEffect s = true) steps)).

Definition syntheticStep (replicasTotal : Z) : Step :=
  {| Index := 0; Total := 1; Replicas_ := [replicasTotal];
     ManualPaused := false; AutoPromote := false; Extra := None |}.

(** [idx] clamped to [0, len]. *)
Definition clamp (idx len : Z) : Z := Z.max 0 (Z.min idx len).

(** Differences of neighbours, the first one taken against [prev]. *)
Fixpoint deltas (prev : Z) (l : list Z) : list Z :=
  match l with
  | [] => []
  | x :: rest => (x - prev) :: deltas x rest
  end.

(** The [*int32] fields hold 32-bit values, as their Go type says. *)
Definition int32b (z : Z) : bool := (- 2 ^ 31 <=? z) && (z <? 2 ^ 31).

Definition int32_opt (o : option Z) : bool :=
  match o with Some z => int32b z | None => true end.

Definition wellTyped {PodSpec} (instance : @RolloutObj PodSpec) : bool :=
  int32_opt (Replicas (Spec instance))
  && int32_opt (CurrentStepIndex (Status instance))
  && forallb (fun step => int32_opt (SetWeight step) && int32_opt (SetReplica step))
             (declaredSteps instance).

Definition weightStep (w : Z) : CanaryStep := {| SetWeight := Some w; SetReplica := None |}.
Definition replicaStep (r : Z) : CanaryStep := {| SetWeight := None; SetReplica := Some r |}.
Definition pauseStep : CanaryStep := {| SetWeight := None; SetReplica := None |}.

(** The action names [Action] accepts. *)
Definition vocabulary : list string :=
  ["resume"; "pause"; "promote-full"; "promote"; "auto-promote"; "cancel-auto-promote"].

End Rollout.

(* ===================================================================== *)
(** * The deploy orchestrator (cluster controller) *)
(* ===================================================================== *)

Module Deploy.
Import Go Errors.

(** Modelled from the spec: the [prmodels] status constants are declared
    outside the files at hand; the statuses are the ones the data model
    lists. *)
Inductive PipelineStatus : Type :=
| StatusCreated | StatusCommitted | StatusMerged | StatusOK
| StatusFailed | StatusCancelled | StatusUnknown.

(** Modelled from the spec: the [common.ClusterStatus*] constants are
    declared outside the files at hand; a cluster status is one of the three
    the data model names, or some other string. *)
Inductive ClusterStatus : Type :=
| ClusterStatusEmpty | ClusterStatusFreeing | ClusterStatusFreed
| ClusterStatusOther (s : string).

#[global] Instance PipelineStatus_eq_dec : EqDecision PipelineStatus.
Proof. solve_decision. Defined.
#[global] Instance ClusterStatus_eq_dec : EqDecision ClusterStatus.
Proof. solve_decision. Defined.

Record Pipelinerun : Type := { PR_ID : N; PR_ClusterID : N }.

Record Cluster : Type := {
  Cluster_ID : N;
  ApplicationID : N;
  Cluster_Name : string;
  EnvironmentName : string;
  RegionName : string;
  Cluster_Template : string;
  Cluster_TemplateRelease : string;
  Cluster_Status : ClusterStatus
}.

Record Application : Type := { App_Name : string }.
Record TemplateRelease : Type := { ChartName : string }.
Record EnvValue : Type := { Env_Namespace : string }.
Record RepoInfo : Type := { GitRepoURL : string; ValueFiles : list string }.

Record InternalDeployResponse : Type := { PipelinerunID : N; Commit : string }.

(** What a run ends with: a result, an error, or a panic. *)
Inductive res (A : Type) : Type :=
| Ok (a : A)
| Fail (e : error)
| Crash (why : string).
Arguments Ok {A} a.
Arguments Fail {A} e.
Arguments Crash {A} why.

Section Controller.

(** The pipeline output [r interface{}] and the region entity are passed
    through untouched. *)
Context {PipelineOutput : Type}.
Context {RegionEntity : Type}.

Record CreateClusterParams : Type := {
  CC_Environment : string;
  CC_Cluster : string;
  CC_GitRepoURL : string;
  CC_ValueFiles : list string;
  CC_RegionEntity : option RegionEntity;
  CC_Namespace : string
}.

Record DeployClusterParams : Type := {
  DC_Environment : string;
  DC_Cluster : string;
  DC_Revision : string
}.

(** The collaborators of the controller.  A method that returns a pointer
    and an error answers [inl err] or [inr ptr] with [ptr] possibly nil; a
    method that returns only an error answers [Some err] or [None].  One
    invocation calls every method at most once per argument, so an answer
    that depends only on the arguments covers every behaviour of a
    collaborator during that invocation. *)
Record controller : Type := {
  pipelinerunMgr_GetByID : N -> error + option Pipelinerun;
  pipelinerunMgr_UpdateConfigCommitByID : N -> string -> option error;
  pipelinerunMgr_UpdateStatusByID : N -> PipelineStatus -> option error;
  clusterMgr_GetByID : N -> error + option Cluster;
  clusterMgr_UpdateByID : N -> Cluster -> error + option Cluster;
  applicationMgr_GetByID : N -> error + option Application;
  templateReleaseMgr_GetByTemplateNameAndRelease :
    string -> string -> error + option TemplateRelease;
  regionMgr_GetRegionEntity : string -> error + option RegionEntity;
  clusterGitRepo_UpdatePipelineOutput :
    string -> string -> string -> PipelineOutput -> error + string;
  clusterGitRepo_MergeBranch : string -> string -> N -> error + string;
  clusterGitRepo_GetEnvValue : string -> string -> string -> error + option EnvValue;
  clusterGitRepo_GetRepoInfo : string -> string -> option RepoInfo;
  cd_CreateCluster : CreateClusterParams -> option error;
  cd_DeployCluster : DeployClusterParams -> option error
}.

(** ** The calls a run makes, in the order it makes them *)

Inductive call : Type :=
| PipelinerunMgr_GetByID (id : N)
| ClusterMgr_GetByID (id : N)
| ApplicationMgr_GetByID (id : N)
| TemplateReleaseMgr_Get (template release : string)
| ClusterGitRepo_UpdatePipelineOutput (application cluster chart : string)
| PipelinerunMgr_UpdateConfigCommitByID (id : N) (commit : string)
| PipelinerunMgr_UpdateStatusByID (id : N) (status : PipelineStatus)
| ClusterGitRepo_MergeBranch (application cluster : string) (id : N)
| RegionMgr_GetRegionEntity (region : string)
| ClusterGitRepo_GetEnvValue (application cluster chart : string)
| ClusterGitRepo_GetRepoInfo (application cluster : string)
| CD_CreateCluster (params : CreateClusterParams)
| ClusterMgr_UpdateByID (id : N) (cluster : Cluster)
| CD_DeployCluster (params : DeployClusterParams).

(** A call and whether it came back without an error. *)
Record event : Type := { ev_call : call; ev_ok : bool }.

(** ** A run: result, errors and panics, and the log of calls *)

Definition M (A : Type) : Type := list event -> res A * list event.

Definition ret {A} (a : A) : M A := fun log => (Ok a, log).

Definition bind {A B} (m : M A) (k : A -> M B) : M B :=
  fun log =>
    match m log with
    | (Ok a, log') => k a log'
    | (Fail e, log') => (Fail e, log')
    | (Crash why, log') => (Crash why, log')
    end.

Notation "x <- m ;; k" := (bind m (fun x => k))
  (at level 100, m at next level, right associativity).
Notation "m ;;; k" := (bind m (fun _ => k))
  (at level 100, right associativity).

Definition fail {A} (e : error) : M A := fun log => (Fail e, log).

(** [x, err := f(...); if err != nil { return nil, wrap(err) }]. *)
Definition callV {A} (c : call) (answer : error + A) (wrap : error -> error) : M A :=
  fun log =>
    match answer with
    | inl e => (Fail (wrap e), log ++ [{| ev_call := c; ev_ok := false |}])
    | inr a => (Ok a, log ++ [{| ev_call := c; ev_ok := true |}])
    end.

(** [if err := f(...); err != nil { return nil, err }]. *)
Definition callE (c : call) (answer : option error) : M unit :=
  fun log =>
    match answer with
    | Some e => (Fail e, log ++ [{| ev_call := c; ev_ok := false |}])
    | None => (Ok tt, log ++ [{| ev_call := c; ev_ok := true |}])
    end.

(** A call that has no error to return. *)
Definition callP {A} (c : call) (answer : A) : M A :=
  fun log => (Ok answer, log ++ [{| ev_call := c; ev_ok := true |}]).

(** A field access through a pointer. *)
Definition deref {A} (p : option A) : M A :=
  fun log =>
    match p with
    | Some a => (Ok a, log)
    | None => (Crash nil_deref, log)
    end.

Definition op : string := "cluster controller: internal deploy v2".

Definition withStatus (cluster : Cluster) (status : ClusterStatus) : Cluster :=
  {| Cluster_ID := Cluster_ID cluster;
     ApplicationID := ApplicationID cluster;
     Cluster_Name := Cluster_Name cluster;
     EnvironmentName := EnvironmentName cluster;
     RegionName := RegionName cluster;
     Cluster_Template := Cluster_Template cluster;
     Cluster_TemplateRelease := Cluster_TemplateRelease cluster;
     Cluster_Status := status |}.

(** ** InternalDeployV2 *)

Definition InternalDeployV2 (c : controller) (clusterID pipelinerunID : N)
  (r : PipelineOutput) : M InternalDeployResponse :=
  (* 1. get pr, and do some validate *)
  pr <- callV (PipelinerunMgr_GetByID pipelinerunID)
          (pipelinerunMgr_GetByID c pipelinerunID) id ;;
  match pr with
  | None => fail (ErrNotFound PipelinerunSource "cannot find the pipelinerun")
  | Some pr =>
  if bool_decide (PR_ClusterID pr ≠ clusterID)
  then fail (ErrNotFound PipelinerunSource "cannot find the pipelinerun")
  else
  (* 2. get some relevant models *)
  cluster <- callV (ClusterMgr_GetByID clusterID) (clusterMgr_GetByID c clusterID) id ;;
  cluster <- deref cluster ;;
  application <- callV (ApplicationMgr_GetByID (ApplicationID cluster))
                   (applicationMgr_GetByID c (ApplicationID cluster)) id ;;
  (* 3. update image in git repo *)
  tr <- callV (TemplateReleaseMgr_Get (Cluster_Template cluster)
                 (Cluster_TemplateRelease cluster))
          (templateReleaseMgr_GetByTemplateNameAndRelease c
             (Cluster_Template cluster) (Cluster_TemplateRelease cluster)) id ;;
  application <- deref application ;;
  tr <- deref tr ;;
  commit <- callV (ClusterGitRepo_UpdatePipelineOutput (App_Name application)
                     (Cluster_Name cluster) (ChartName tr))
              (clusterGitRepo_UpdatePipelineOutput c (App_Name application)
                 (Cluster_Name cluster) (ChartName tr) r)
              (fun e => ErrWithMessage e op) ;;
  (* 4. update config commit and status *)
  callE (PipelinerunMgr_UpdateConfigCommitByID (PR_ID pr) commit)
    (pipelinerunMgr_UpdateConfigCommitByID c (PR_ID pr) commit) ;;;
  let updatePRStatus (pState : PipelineStatus) : M unit :=
    callE (PipelinerunMgr_UpdateStatusByID (PR_ID pr) pState)
      (pipelinerunMgr_UpdateStatusByID c (PR_ID pr) pState) in
  updatePRStatus StatusCommitted ;;;
  (* 5. merge branch from gitops to master and update status *)
  masterRevision <- callV (ClusterGitRepo_MergeBranch (App_Name application)
                             (Cluster_Name cluster) (PR_ID pr))
                      (clusterGitRepo_MergeBranch c (App_Name application)
                         (Cluster_Name cluster) (PR_ID pr))
                      (fun e => ErrWithMessage e op) ;;
  updatePRStatus StatusMerged ;;;
  (* 6. create cluster in cd system *)
  regionEntity <- callV (RegionMgr_GetRegionEntity (RegionName cluster))
                    (regionMgr_GetRegionEntity c (RegionName cluster)) id ;;
  envValue <- callV (ClusterGitRepo_GetEnvValue (App_Name application)
                       (Cluster_Name cluster) (ChartName tr))
                (clusterGitRepo_GetEnvValue c (App_Name application)
                   (Cluster_Name cluster) (ChartName tr)) id ;;
  repoInfo <- callP (ClusterGitRepo_GetRepoInfo (App_Name application)
                       (Cluster_Name cluster))
                (clusterGitRepo_GetRepoInfo c (App_Name application)
                   (Cluster_Name cluster)) ;;
  repoInfo <- deref repoInfo ;;
  envValue <- deref envValue ;;
  let createParams :=
    {| CC_Environment := EnvironmentName cluster;
       CC_Cluster := Cluster_Name cluster;
       CC_GitRepoURL := GitRepoURL repoInfo;
       CC_ValueFiles := ValueFiles repoInfo;
       CC_RegionEntity := regionEntity;
       CC_Namespace := Env_Namespace envValue |} in
  callE (CD_CreateCluster createParams) (cd_CreateCluster c createParams) ;;;
  (* 7. reset cluster status *)
  cluster <- (if bool_decide (Cluster_Status cluster = ClusterStatusFreed)
              then
                let cluster := withStatus cluster ClusterStatusEmpty in
                callV (ClusterMgr_UpdateByID (Cluster_ID cluster) cluster)
                  (clusterMgr_UpdateByID c (Cluster_ID cluster) cluster) id
              else ret (Some cluster)) ;;
  (* 8. deploy cluster in cd system *)
  cluster <- deref cluster ;;
  let deployParams :=
    {| DC_Environment := EnvironmentName cluster;
       DC_Cluster := Cluster_Name cluster;
       DC_Revision := masterRevision |} in
  callE (CD_DeployCluster deployParams) (cd_DeployCluster c deployParams) ;;;
  (* 9. update status *)
  updatePRStatus StatusOK ;;;
  ret {| PipelinerunID := PR_ID pr; Commit := commit |}
  end.

(** One invocation, from an empty log. *)
Definition run (c : controller) (clusterID pipelinerunID : N) (r : PipelineOutput)
  : res InternalDeployResponse * list event :=
  InternalDeployV2 c clusterID pipelinerunID r [].

End Controller.

(** ** Notions the properties are stated with *)

(** What a successful call changes outside the controller. *)
Inductive effect : Type :=
| ConfigWritten            (* the pipeline output is committed to Git *)
| ConfigCommitStored       (* ConfigCommit is stored on the PipelineRun *)
| StatusSet (status : PipelineStatus)
| BranchMerged
| ClusterCreated           (* the CD backend has the cluster *)
| ClusterReset (status : ClusterStatus)   (* the cluster row is rewritten *)
| DeployTriggered.

#[global] Instance effect_eq_dec : EqDecision effect.
Proof. solve_decision. Defined.

Section Trace.
Context {PipelineOutput RegionEntity : Type}.

Definition effect_of (c : @call RegionEntity) : option effect :=
  match c with
  | ClusterGitRepo_UpdatePipelineOutput _ _ _ => Some ConfigWritten
  | PipelinerunMgr_UpdateConfigCommitByID _ _ => Some ConfigCommitStored
  | PipelinerunMgr_UpdateStatusByID _ status => Some (StatusSet status)
  | ClusterGitRepo_MergeBranch _ _ _ => Some BranchMerged
  | CD_CreateCluster _ => Some ClusterCreated
  | ClusterMgr_UpdateByID _ cluster => Some (ClusterReset (Cluster_Status cluster))
  | CD_DeployCluster _ => Some DeployTriggered
  | _ => None
  end.

(** The effects of a run: those of its calls that came back without an
    error, in order. *)
Definition effects (log : list (@event RegionEntity)) : list effect :=
  omap (fun ev => if ev_ok ev then effect_of (ev_call ev) else None) log.

(** A call to the Git facade or to the CD backend. *)
Definition is_external (c : @call RegionEntity) : bool :=
  match c with
  | ClusterGitRepo_UpdatePipelineOutput _ _ _ | ClusterGitRepo_MergeBranch _ _ _
  | ClusterGitRepo_GetEnvValue _ _ _ | ClusterGitRepo_GetRepoInfo _ _
  | CD_CreateCluster _ | CD_DeployCluster _ => true
  | _ => false
  end.

(** A database write. *)
Definition is_write (c : @call RegionEntity) : bool :=
  match c with
  | PipelinerunMgr_UpdateConfigCommitByID _ _ | PipelinerunMgr_UpdateStatusByID _ _
  | ClusterMgr_UpdateByID _ _ => true
  | _ => false
  end.

(** The database writes and the deploy trigger that went through. *)
Definition writes (log : list (@event RegionEntity)) : list (@call RegionEntity) :=
  omap (fun ev =>
          if ev_ok ev && (is_write (ev_call ev)
                          || match ev_call ev with CD_DeployCluster _ => true | _ => false end)
          then Some (ev_call ev) else None) log.

(** The statuses a run tried to set, whether the write went through or not. *)
Definition statusAttempts (log : list (@event RegionEntity)) : list PipelineStatus :=
  omap (fun ev => match ev_call ev with
                  | PipelinerunMgr_UpdateStatusByID _ status => Some status
                  | _ => None
                  end) log.

End Trace.

(** The effects of a full deploy, in order; [reset] tells whether the
    cluster was found Freed. *)
Definition fullDeploy (reset : bool) : list effect :=
  [ConfigWritten; ConfigCommitStored; StatusSet StatusCommitted;
   BranchMerged; StatusSet StatusMerged; ClusterCreated]
  ++ (if reset then [ClusterReset ClusterStatusEmpty] else [])
  ++ [DeployTriggered; StatusSet StatusOK].

Definition is_Ok {A} (r : res A) : bool :=
  match r with Ok _ => true | _ => false end.

(** The status the PipelineRun is left with: the last one written. *)
Definition statusAfter (before : PipelineStatus) (es : list effect) : PipelineStatus :=
  fold_left (fun st e => match e with StatusSet s => s | _ => st end) es before.

End Deploy.

(* ===================================================================== *)
(** * Concrete objects *)
(* ===================================================================== *)

Module Demo.
Import Go Errors Unstructured Rollout Deploy.

(** A pod spec is stood for by its image name and hashed by the identity;
    the converter answers with a fixed instance. *)
Definition hashPod (spec : string) : string := spec.
Definition hashSteps (instance : @RolloutObj string) : string := "steps-v1".
Definition convertsTo (instance : @RolloutObj string)
  : gmap string jvalue -> error + option (@RolloutObj string) :=
  fun _ => inr (Some instance).

Definition meta (name : string) (annotations : gmap string string) : ObjectMeta :=
  {| Namespace := "demo"; Name := name;
     Labels := {[ "app" := "web" ]}; Annotations := annotations |}.

Definition rolloutOf (replicas : option Z) (paused : bool)
  (annotations : gmap string string) (steps : option (list CanaryStep))
  (index : option Z) (hash : string) : @RolloutObj string :=
  {| Rollout_ObjectMeta := meta "web" ∅;
     Spec := {| Replicas := replicas; Paused := paused;
                Template := {| Template_ObjectMeta := meta "" annotations;
                               Template_Spec := "web:v2" |};
                Strategy := {| Canary := (fun l => {| Steps := l |}) <$> steps |} |};
     Status := {| CurrentStepIndex := index; CurrentStepHash := hash |} |}.

Definition podOf (name phase image : string) (annotations : gmap string string)
  : @Pod string :=
  {| Pod_ObjectMeta := meta name annotations; Pod_Spec := image; Pod_Phase := phase |}.

Definition node : ResourceNode :=
  {| Node_Namespace := "demo"; Node_Name := "web"; Node_Version := "v1alpha1" |}.

Definition emptyObject : Unstructured := {| Object := ∅ |}.

Definition liveSpec : gmap string jvalue :=
  {[ "paused" := JBool false; "replicas" := JNum 4 ]}.

Definition liveStatus : gmap string jvalue :=
  {[ "pauseConditions" := JArr [JStr "CanaryPauseStep"];
     "currentStepIndex" := JNum 1 ]}.

Definition liveObject : Unstructured :=
  {| Object := {[ "spec" := JMap liveSpec; "status" := JMap liveStatus ]} |}.

(** A cluster that holds the object and the pods. *)
Definition clientOf (un : Unstructured) (pods : list (@Pod string)) : @Client string :=
  {| Dynamic_Get := fun _ _ _ _ _ => inr un;
     Pods_List := fun _ _ => inr pods |}.

(** A cluster that does not hold the object. *)
Definition clientMissing : @Client string :=
  {| Dynamic_Get := fun _ _ _ _ name => inl (K8sNotFound name);
     Pods_List := fun _ _ => inr [] |}.

(** Weights 25, 50, 100 on 4 replicas, at step 1. *)
Definition rollout3 : @RolloutObj string :=
  rolloutOf (Some 4) false ∅
            (Some [weightStep 25; weightStep 50; weightStep 100]) (Some 1) "steps-v1".

(** A weight step followed by a pause. *)
Definition rolloutPauseStep : @RolloutObj string :=
  rolloutOf (Some 4) false ∅ (Some [weightStep 50; pauseStep]) (Some 0) "steps-v1".

(** Weight, pause, weight, weight; the controller reports step 2. *)
Definition rolloutMixed : @RolloutObj string :=
  rolloutOf (Some 4) true ∅
            (Some [weightStep 25; pauseStep; weightStep 50; weightStep 100])
            (Some 2) "steps-v1".

(** The same steps, with the hash of an older step list stored. *)
Definition rolloutStale : @RolloutObj string :=
  rolloutOf (Some 4) false ∅
            (Some [weightStep 25; pauseStep; weightStep 50; weightStep 100])
            (Some 3) "steps-v0".

(** Paused, no canary strategy. *)
Definition rolloutPausedPlain : @RolloutObj string :=
  rolloutOf (Some 2) true ∅ None None "".

(** Declared steps, no step index reported yet. *)
Definition rolloutNoIndex : @RolloutObj string :=
  rolloutOf (Some 4) false ∅ (Some [weightStep 50; weightStep 100]) None "".

(** Replica count unset, no canary strategy. *)
Definition rolloutUnsetReplicas : @RolloutObj string :=
  rolloutOf None false ∅ None None "".

(** One replica, and a template annotation whose value is empty. *)
Definition rolloutEmptyAnnotation : @RolloutObj string :=
  rolloutOf (Some 1) false {[ "checksum/config" := "" ]} None None "".

Definition runningPod : @Pod string := podOf "web-1" "Running" "web:v2" ∅.

(** A controller whose collaborators all answer; pipeline run [id] belongs
    to cluster 7, which is in the given status. *)
Definition clusterIn (status : ClusterStatus) : Cluster :=
  {| Cluster_ID := 7; ApplicationID := 3; Cluster_Name := "web-dev";
     EnvironmentName := "dev"; RegionName := "hz"; Cluster_Template := "javaapp";
     Cluster_TemplateRelease := "v1.0.0"; Cluster_Status := status |}.

Definition controllerOf (status : ClusterStatus) : @controller string string :=
  {| pipelinerunMgr_GetByID := fun id => inr (Some {| PR_ID := id; PR_ClusterID := 7 |});
     pipelinerunMgr_UpdateConfigCommitByID := fun _ _ => None;
     pipelinerunMgr_UpdateStatusByID := fun _ _ => None;
     clusterMgr_GetByID := fun _ => inr (Some (clusterIn status));
     clusterMgr_UpdateByID := fun _ cluster => inr (Some cluster);
     applicationMgr_GetByID := fun _ => inr (Some {| App_Name := "web" |});
     templateReleaseMgr_GetByTemplateNameAndRelease :=
       fun _ _ => inr (Some {| ChartName := "javaapp" |});
     regionMgr_GetRegionEntity := fun _ => inr (Some "hz-k8s");
     clusterGitRepo_UpdatePipelineOutput := fun _ _ _ _ => inr "c0ffee";
     clusterGitRepo_MergeBranch := fun _ _ _ => inr "badc0de";
     clusterGitRepo_GetEnvValue := fun _ _ _ => inr (Some {| Env_Namespace := "web-dev" |});
     clusterGitRepo_GetRepoInfo :=
       fun _ _ => Some {| GitRepoURL := "ssh://git/web-dev"; ValueFiles := ["system/env.yaml"] |};
     cd_CreateCluster := fun _ => None;
     cd_DeployCluster := fun _ => None |}.

(** The same controller with a merge that fails. *)
Definition controllerMergeFails : @controller string string :=
  {| pipelinerunMgr_GetByID := pipelinerunMgr_GetByID (controllerOf ClusterStatusFreed);
     pipelinerunMgr_UpdateConfigCommitByID := fun _ _ => None;
     pipelinerunMgr_UpdateStatusByID := fun _ _ => None;
     clusterMgr_GetByID := clusterMgr_GetByID (controllerOf ClusterStatusFreed);
     clusterMgr_UpdateByID := fun _ cluster => inr (Some cluster);
     applicationMgr_GetByID := applicationMgr_GetByID (controllerOf ClusterStatusFreed);
     templateReleaseMgr_GetByTemplateNameAndRelease :=
       templateReleaseMgr_GetByTemplateNameAndRelease (controllerOf ClusterStatusFreed);
     regionMgr_GetRegionEntity := regionMgr_GetRegionEntity (controllerOf ClusterStatusFreed);
     clusterGitRepo_UpdatePipelineOutput := fun _ _ _ _ => inr "c0ffee";
     clusterGitRepo_MergeBranch := fun _ _ _ => inl (ErrOther "merge conflict");
     clusterGitRepo_GetEnvValue := clusterGitRepo_GetEnvValue (controllerOf ClusterStatusFreed);
     clusterGitRepo_GetRepoInfo := clusterGitRepo_GetRepoInfo (controllerOf ClusterStatusFreed);
     cd_CreateCluster := fun _ => None;
     cd_DeployCluster := fun _ => None |}.

End Demo.

(* ===================================================================== *)
(** * The informer side of the rollout ability *)
(* ===================================================================== *)

Module Informers.
Import Go Errors Unstructured Rollout.

(** [schema.GroupVersionResource] and the three the ability registers. *)
Record GroupVersionResource : Type := {
  GVR_Group : string;
  GVR_Version : string;
  GVR_Resource : string
}.

Definition GVRRollout : GroupVersionResource :=
  {| GVR_Group := "argoproj.io"; GVR_Version := "v1alpha1"; GVR_Resource := "rollouts" |}.
Definition GVRReplicaSet : GroupVersionResource :=
  {| GVR_Group := "apps"; GVR_Version := "v1"; GVR_Resource := "replicasets" |}.
Definition GVRPod : GroupVersionResource :=
  {| GVR_Group := EmptyString; GVR_Version := "v1"; GVR_Resource := "pods" |}.

(** A [runtime.Object] of an informer cache: an unstructured object, or
    an object of another type. *)
Inductive RuntimeObject : Type :=
| ObjUnstructured (un : Unstructured)
| ObjOther (kind : string).

(** [informers.GenericInformer]: the lister's [Get] by namespace and
    name and its [List] by namespace and selector (the selector is kept
    as the label set it is made from). *)
Record GenericInformer : Type := {
  Lister_Get : string -> string -> k8s_error + RuntimeObject;
  Lister_List : string -> gmap string string -> k8s_error + list RuntimeObject
}.

Section Ability.
Context {PodSpec : Type}.

(** Declared outside the files at hand: the converter and
    [workload.ObjIntoPod]. *)
Variable FromUnstructured : gmap string jvalue -> error + option (@RolloutObj PodSpec).
Variable ObjIntoPod : list RuntimeObject -> list (@Pod PodSpec).

(** The text the second wrap puts where the first has the error. *)
Definition notUnstructured : k8s_error :=
  K8sFailure "could not convert obj into unstructured".

Definition getRollout (node : ResourceNode) (rolloutInformer : GenericInformer)
  : option (@RolloutObj PodSpec) * option Unstructured * option error :=
  match Lister_Get rolloutInformer (Node_Namespace node) (Node_Name node) with
  | inl err =>
      (None, None,
       Some (ErrGetFailed ResourceInK8S "failed to get rollout in k8s" err))
  | inr (ObjOther _) =>
      (None, None,
       Some (ErrGetFailed ResourceInK8S "failed to get rollout in k8s" notUnstructured))
  | inr (ObjUnstructured un) =>
      match FromUnstructured (Object un) with
      | inl err => (None, Some un, Some err)
      | inr instance => (instance, Some un, None)
      end
  end.

(** [factory.ForResource] is the factory itself; [err] is still the
    error of [getRollout] when it is tested after [SelectorFromSet]. *)
Definition ListPods (node : ResourceNode) (factory : GroupVersionResource -> GenericInformer)
  : outcome (option (list (@Pod PodSpec)) * option error) :=
  let rolloutInformer := factory GVRRollout in
  let podInformer := factory GVRPod in
  let '(instance, _, err) := getRollout node rolloutInformer in
  if bool_decide (err ≠ None) then Ret (None, err)
  else
    match instance with
    | None => Panic nil_deref
    | Some instance =>
        let selector := Labels (Template_ObjectMeta (Template (Spec instance))) in
        if bool_decide (err ≠ None)
        then Ret (None,
                  Some (ErrGetFailed ResourceInK8S
                          ("failed to get selectors for object "
                             +:+ Namespace (Rollout_ObjectMeta instance) +:+ "/"
                             +:+ Name (Rollout_ObjectMeta instance))
                          (K8sFailure EmptyString)))
        else
          match Lister_List podInformer (Node_Namespace node) selector with
          | inl err => Ret (None, Some (ErrK8s err))
          | inr objs => Ret (Some (ObjIntoPod objs), None)
          end
    end.

End Ability.
End Informers.

(* ===================================================================== *)
(** * The request middlewares (packages prehandle and auth) *)
(* ===================================================================== *)

Module Server.
Import Go Errors.
Import Stdlib.Strings.Ascii.

(** ** What the middlewares see of gin *)

(** The part of [http.Request] the request-info factory reads. *)
Record Request : Type := { Method : string; URLPath : string }.

(** [auth.RequestInfo]. *)
Record RequestInfo : Type := {
  RI_IsResourceRequest : bool;
  RI_Path : string;
  RI_Verb : string;
  RI_APIPrefix : string;
  RI_APIGroup : string;
  RI_APIVersion : string;
  RI_Resource : string;
  RI_Subresource : string;
  RI_Name : string;
  RI_Scope : string
}.

(** [auth.AttributesRecord]. *)
Record AttributesRecord : Type := {
  Verb : string;
  APIGroup : string;
  APIVersion : string;
  Resource : string;
  SubResource : string;
  Name : string;
  Scope : string;
  ResourceRequest : bool;
  Path : string
}.

(** A value of [c.Keys], an [interface{}]: an attributes record, or
    something of another type. *)
Inductive value : Type :=
| VRecord (record : AttributesRecord)
| VOther (what : string).

Inductive rpc_error : Type := NotFoundError | ParamError | InternalError.

(** The error responses of [pkg/server/response]. *)
Inductive response : Type :=
| RequestErrorResponse (e : error)
| RPCErrorResponse (kind : rpc_error) (e : error)
| ForbiddenResponse (reason : string).

(** [gin.Context]: the request, the keys, the response written so far
    and whether the chain has been aborted. *)
Record Context : Type := {
  Ctx_Request : Request;
  Keys : gmap string value;
  Written : option response;
  Aborted : bool
}.

Definition Set_ (key : string) (v : value) (c : Context) : Context :=
  {| Ctx_Request := Ctx_Request c; Keys := <[key := v]> (Keys c);
     Written := Written c; Aborted := Aborted c |}.

Definition Get (key : string) (c : Context) : option value := Keys c !! key.

Definition Abort (c : Context) : Context :=
  {| Ctx_Request := Ctx_Request c; Keys := Keys c;
     Written := Written c; Aborted := true |}.

(** [response.AbortWith...]: the helpers are declared outside the files
    at hand; they write the error response and abort the chain. *)
Definition AbortWith (resp : response) (c : Context) : Context :=
  {| Ctx_Request := Ctx_Request c; Keys := Keys c;
     Written := Some resp; Aborted := true |}.

Definition withPath (path : string) (c : Context) : Context :=
  {| Ctx_Request := {| Method := Method (Ctx_Request c); URLPath := path |};
     Keys := Keys c; Written := Written c; Aborted := Aborted c |}.

(** ** strconv.Atoi *)

Definition digit (a : Ascii.ascii) : option Z :=
  let n := Z.of_N (Ascii.N_of_ascii a) in
  if (48 <=? n) && (n <=? 57) then Some (n - 48) else None.

Fixpoint decimal (s : string) (acc : Z) : option Z :=
  match s with
  | EmptyString => Some acc
  | String a s' =>
      match digit a with
      | Some d => decimal s' (acc * 10 + d)
      | None => None
      end
  end.

(** An optional sign, then one decimal digit or more; a value that [int]
    cannot hold is an error, as is any other text. *)
Definition Atoi (s : string) : option Z :=
  let '(neg, body) :=
    match s with
    | String "-"%char s' => (true, s')
    | String "+"%char s' => (false, s')
    | _ => (false, s)
    end in
  match body with
  | EmptyString => None
  | _ =>
      match decimal body 0 with
      | Some n =>
          let v := if neg then - n else n in
          if (int_min <=? v) && (v <=? int_max) then Some v else None
      | None => None
      end
  end.

(** ** prehandle.Middleware *)

Section Prehandle.

(** Declared outside the files at hand: the request-info factory, the
    two managers' lookups by name (a pointer and an error; the pointer
    is stood for by the ID it holds), the constants of [core/common] and
    [core/errors], and [path.Join]. *)
Variable NewRequestInfo : Request -> error + RequestInfo.
Variable ApplicationManager_GetByName : string -> error + option N.
Variable ClusterMgr_GetByName : string -> error + option N.
Variable ContextAuthRecord ResourceApplication ResourceCluster : string.
Variable ApplicationInDB ClusterInDB : string.
Variable path_Join : list string -> string.

(** What [r.HandleContext(c)] and [c.Next()] run. *)
Variable HandleContext : Context -> outcome Context.
Variable Next : Context -> outcome Context.

Definition recordOf (requestInfo : RequestInfo) : AttributesRecord :=
  {| Verb := RI_Verb requestInfo;
     APIGroup := RI_APIGroup requestInfo;
     APIVersion := RI_APIVersion requestInfo;
     Resource := RI_Resource requestInfo;
     SubResource := RI_Subresource requestInfo;
     Name := RI_Name requestInfo;
     Scope := RI_Scope requestInfo;
     ResourceRequest := RI_IsResourceRequest requestInfo;
     Path := RI_Path requestInfo |}.

(** The cause of [err] is a [HorizonErrNotFound] whose [Source] is
    [source]. *)
Definition notFoundIn (source : string) (err : error) : bool :=
  match Cause err with
  | ErrNotFound source' _ => bool_decide (source' = source)
  | _ => false
  end.

(** The lookup of one resource by name: abort with NotFound, or the pair
    [redirect, id]. *)
Definition lookupByName (GetByName : string -> error + option N) (source : string)
  (name : string) (c : Context) : outcome (Context + bool * N) :=
  match GetByName name with
  | inl err =>
      if notFoundIn source err
      then Ret (inl (AbortWith (RPCErrorResponse NotFoundError err) c))
      else Ret (inr (false, 0%N))
  | inr None => Panic nil_deref
  | inr (Some id) => Ret (inr (true, id))
  end.

Definition redirectPath (requestInfo : RequestInfo) (id : N) : string :=
  "/" +:+ path_Join [RI_APIPrefix requestInfo; RI_APIGroup requestInfo;
                     RI_APIVersion requestInfo; RI_Resource requestInfo;
                     pretty id; RI_Subresource requestInfo].

Definition Middleware (c : Context) : outcome Context :=
  match NewRequestInfo (Ctx_Request c) with
  | inl err => Ret (AbortWith (RequestErrorResponse err) c)
  | inr requestInfo =>
      let authRecord := recordOf requestInfo in
      let c := Set_ ContextAuthRecord (VRecord authRecord) c in
      let found :=
        if bool_decide (Atoi (Name authRecord) = None)
           && bool_decide (Name authRecord ≠ "")
        then
          if bool_decide (Resource authRecord = ResourceApplication)
          then lookupByName ApplicationManager_GetByName ApplicationInDB
                 (Name authRecord) c
          else if bool_decide (Resource authRecord = ResourceCluster)
          then lookupByName ClusterMgr_GetByName ClusterInDB (Name authRecord) c
          else Ret (inr (false, 0%N))
        else Ret (inr (false, 0%N)) in
      match found with
      | Panic why => Panic why
      | Ret (inl aborted) => Ret aborted
      | Ret (inr (redirect, id)) =>
          if redirect then
            match HandleContext (withPath (redirectPath requestInfo id) c) with
            | Panic why => Panic why
            | Ret c => Ret (Abort c)
            end
          else Next c
      end
  end.

End Prehandle.

(** ** auth.Middleware *)

Section Auth.

(** Declared outside the files at hand: the authorizer, which answers
    with a decision, a reason and an error, the decision constant
    [auth.DecisionDeny], and the context key. *)
Variable Authorize : AttributesRecord -> Z * string * option error.
Variable DecisionDeny : Z.
Variable ContextAuthRecord : string.
Variable Next : Context -> outcome Context.

Definition bad_conversion : string := "interface conversion".

Definition rpcErrorOf (err : error) : rpc_error :=
  match Cause err with
  | ErrNotFound _ _ => NotFoundError
  | ErrParamInvalid _ => ParamError
  | _ => InternalError
  end.

Definition AuthMiddleware (c : Context) : outcome Context :=
  match Get ContextAuthRecord c with
  | None => Ret (Abort c)
  | Some (VOther _) => Panic bad_conversion
  | Some (VRecord authRecord) =>
      match Authorize authRecord with
      | (_, _, Some err) => Ret (AbortWith (RPCErrorResponse (rpcErrorOf err) err) c)
      | (decision, reason, None) =>
          if bool_decide (decision = DecisionDeny)
          then Ret (AbortWith (ForbiddenResponse reason) c)
          else Next c
      end
  end.

End Auth.

End Server.

(* ===================================================================== *)
(** * The deploy orchestrator: answers and calls *)
(* ===================================================================== *)

Module DeployNotions.
Import Go Errors Deploy.

Section Answers.
Context {PipelineOutput RegionEntity : Type}.

(** The error the collaborators of [c] answer a call with, if any. *)
Definition answer_error (c : @controller PipelineOutput RegionEntity)
  (r : PipelineOutput) (cl : @call RegionEntity) : option error :=
  let err {A} (answer : error + A) : option error :=
    match answer with inl e => Some e | inr _ => None end in
  match cl with
  | PipelinerunMgr_GetByID id => err (pipelinerunMgr_GetByID c id)
  | ClusterMgr_GetByID id => err (clusterMgr_GetByID c id)
  | ApplicationMgr_GetByID id => err (applicationMgr_GetByID c id)
  | TemplateReleaseMgr_Get template release =>
      err (templateReleaseMgr_GetByTemplateNameAndRelease c template release)
  | ClusterGitRepo_UpdatePipelineOutput application cluster chart =>
      err (clusterGitRepo_UpdatePipelineOutput c application cluster chart r)
  | PipelinerunMgr_UpdateConfigCommitByID id commit =>
      pipelinerunMgr_UpdateConfigCommitByID c id commit
  | PipelinerunMgr_UpdateStatusByID id status => pipelinerunMgr_UpdateStatusByID c id status
  | ClusterGitRepo_MergeBranch application cluster id =>
      err (clusterGitRepo_MergeBranch c application cluster id)
  | RegionMgr_GetRegionEntity region => err (regionMgr_GetRegionEntity c region)
  | ClusterGitRepo_GetEnvValue application cluster chart =>
      err (clusterGitRepo_GetEnvValue c application cluster chart)
  | ClusterGitRepo_GetRepoInfo _ _ => None
  | CD_CreateCluster params => cd_CreateCluster c params
  | ClusterMgr_UpdateByID id cluster => err (clusterMgr_UpdateByID c id cluster)
  | CD_DeployCluster params => cd_DeployCluster c params
  end.

(** The two calls that change the Git repository. *)
Definition is_git_write (cl : @call RegionEntity) : bool :=
  match cl with
  | ClusterGitRepo_UpdatePipelineOutput _ _ _ | ClusterGitRepo_MergeBranch _ _ _ => true
  | _ => false
  end.

Definition calls (log : list (@event RegionEntity)) : list (@call RegionEntity) :=
  ev_call <$> log.

End Answers.
End DeployNotions.

(* ===================================================================== *)
(** * More concrete objects *)
(* ===================================================================== *)

Module Samples.
Import Go Errors Unstructured Rollout Deploy Demo Informers Server.

(** A converter that rejects every object. *)
Definition rejects : gmap string jvalue -> error + option (@RolloutObj string) :=
  fun _ => inl (ErrConvert "not a rollout").

(** A converter that tells two rollouts apart by whether the object
    holds a spec. *)
Definition convertsEither (bare full : @RolloutObj string)
  : gmap string jvalue -> error + option (@RolloutObj string) :=
  fun obj => match obj !! "spec" with
             | None => inr (Some bare)
             | Some _ => inr (Some full)
             end.

(** Weights 25, 50, 100 on 4 replicas, every step passed. *)
Definition rolloutDone : @RolloutObj string :=
  rolloutOf (Some 4) false ∅
            (Some [weightStep 25; weightStep 50; weightStep 100]) (Some 3) "steps-v1".

Definition otherPod : @Pod string := podOf "web-2" "Pending" "web:v1" ∅.

Definition fourPods : list (@Pod string) :=
  [runningPod; podOf "web-2" "Running" "web:v2" ∅;
   podOf "web-3" "Running" "web:v2" ∅; podOf "web-4" "Running" "web:v2" ∅].

(** The live object after "auto-promote". *)
Definition autoPromoted : Unstructured :=
  withSpecStatus (<["paused" := JBool false]> liveSpec)
                 (delete "pauseConditions" (<["autoPromote" := JBool true]> liveStatus))
                 liveObject.

(** The live object after "pause". *)
Definition pausedObject : Unstructured :=
  withSpecStatus (<["paused" := JBool true]> liveSpec) liveStatus liveObject.

(** An informer cache that holds the object, and pod objects that each
    stand for one running pod. *)
Definition cacheOf (obj : RuntimeObject) (objs : list RuntimeObject)
  : GroupVersionResource -> GenericInformer :=
  fun _ => {| Lister_Get := fun _ _ => inr obj; Lister_List := fun _ _ => inr objs |}.

Definition podsOf (objs : list RuntimeObject) : list (@Pod string) :=
  (fun _ => runningPod) <$> objs.

(** The controller of [Demo], with a Git facade that has no env value
    for the cluster. *)
Definition controllerNoEnvValue : @controller string string :=
  {| pipelinerunMgr_GetByID := pipelinerunMgr_GetByID (controllerOf ClusterStatusFreed);
     pipelinerunMgr_UpdateConfigCommitByID := fun _ _ => None;
     pipelinerunMgr_UpdateStatusByID := fun _ _ => None;
     clusterMgr_GetByID := clusterMgr_GetByID (controllerOf ClusterStatusFreed);
     clusterMgr_UpdateByID := fun _ cluster => inr (Some cluster);
     applicationMgr_GetByID := applicationMgr_GetByID (controllerOf ClusterStatusFreed);
     templateReleaseMgr_GetByTemplateNameAndRelease :=
       templateReleaseMgr_GetByTemplateNameAndRelease (controllerOf ClusterStatusFreed);
     regionMgr_GetRegionEntity := regionMgr_GetRegionEntity (controllerOf ClusterStatusFreed);
     clusterGitRepo_UpdatePipelineOutput := fun _ _ _ _ => inr "c0ffee";
     clusterGitRepo_MergeBranch := fun _ _ _ => inr "badc0de";
     clusterGitRepo_GetEnvValue := fun _ _ _ => inr None;
     clusterGitRepo_GetRepoInfo := clusterGitRepo_GetRepoInfo (controllerOf ClusterStatusFreed);
     cd_CreateCluster := fun _ => None;
     cd_DeployCluster := fun _ => None |}.

(** A request for the clusters of the application named [name]. *)
Definition requestFor (name : string) : Request :=
  {| Method := "GET"; URLPath := "/apis/core/v1/applications/" +:+ name +:+ "/clusters" |}.

Definition infoFor (name : string) : RequestInfo :=
  {| RI_IsResourceRequest := true;
     RI_Path := "/apis/core/v1/applications/" +:+ name +:+ "/clusters";
     RI_Verb := "list"; RI_APIPrefix := "apis"; RI_APIGroup := "core";
     RI_APIVersion := "v1"; RI_Resource := "applications";
     RI_Subresource := "clusters"; RI_Name := name; RI_Scope := EmptyString |}.

Definition factoryFor (name : string) : Request -> error + RequestInfo :=
  fun _ => inr (infoFor name).

(** Application "web" has ID 3; the database is down for every other
    name. *)
Definition applications (name : string) : error + option N :=
  if bool_decide (name = "web") then inr (Some 3%N)
  else inl (ErrOther "connection refused").

Definition clusters (name : string) : error + option N :=
  inl (ErrNotFound "ClusterInDB" name).

Definition joined (elems : list string) : string :=
  String.concat "/" elems.

Definition contextOf (req : Request) (keys : gmap string value) : Context :=
  {| Ctx_Request := req; Keys := keys; Written := None; Aborted := false |}.

(** [prehandle] over these, and a context that holds no key yet. *)
Definition prehandleFor (name : string)
  (HandleContext Next : Context -> outcome Context) (c : Context) : outcome Context :=
  Middleware (factoryFor name) applications clusters "authRecord"
    "applications" "clusters" "ApplicationInDB" "ClusterInDB" joined
    HandleContext Next c.

Definition freshContext (name : string) : Context :=
  contextOf (requestFor name) ∅.

Definition storedContext (name : string) : Context :=
  Set_ "authRecord" (VRecord (recordOf (infoFor name))) (freshContext name).

(** An authorizer that allows what it is asked about. *)
Definition allowAll : AttributesRecord -> Z * string * option error :=
  fun _ => (1, "owner", None).

End Samples.

(* ===================================================================== *)
(** * float64: conversions are exact below 2^53, products stay small *)
(* ===================================================================== *)

Module Float64Facts.
Import Float64.

Lemma digits_pos p : 1 ≤ digits p.
Proof. unfold digits. lia. Qed.

Lemma digits_bounds p : 2 ^ (digits p - 1) ≤ Z.pos p < 2 ^ digits p.
Proof.
  unfold digits. induction p as [p IH|p IH|]; simpl digits2_pos.
  - rewrite Pos2Z.inj_succ.
    replace (Z.succ (Z.pos (digits2_pos p)) - 1) with (Z.succ (Z.pos (digits2_pos p) - 1)) by lia.
    rewrite !Z.pow_succ_r by lia. lia.
  - rewrite Pos2Z.inj_succ.
    replace (Z.succ (Z.pos (digits2_pos p)) - 1) with (Z.succ (Z.pos (digits2_pos p) - 1)) by lia.
    rewrite !Z.pow_succ_r by lia. lia.
  - simpl. lia.
Qed.

Lemma digits_unique p d : 2 ^ (d - 1) ≤ Z.pos p < 2 ^ d → digits p = d.
Proof.
  intros [Hl Hu]. pose proof (digits_bounds p) as [Hl' Hu'].
  pose proof (digits_pos p).
  assert (Hd : 1 ≤ d).
  { destruct (Z_lt_le_dec d 1) as [Hlt|]; [|done].
    assert (2 ^ d ≤ 2 ^ 0) by (destruct (Z_lt_le_dec d 0);
      [rewrite Z.pow_neg_r by lia; simpl; lia | apply Z.pow_le_mono_r; lia]).
    simpl in *. lia. }
  destruct (Z_lt_le_dec (digits p) d) as [Hlt|Hge].
  - assert (2 ^ digits p ≤ 2 ^ (d - 1)) by (apply Z.pow_le_mono_r; lia). lia.
  - destruct (Z_lt_le_dec d (digits p)) as [Hlt|Hge']; [|lia].
    assert (2 ^ d ≤ 2 ^ (digits p - 1)) by (apply Z.pow_le_mono_r; lia). lia.
Qed.

Lemma iter_xO_value p k : Z.pos (Pos.iter xO p k) = Z.pos p * 2 ^ Z.pos k.
Proof.
  induction k as [|k IH] using Pos.peano_ind.
  - simpl. lia.
  - rewrite Pos.iter_succ, Pos2Z.inj_xO, IH, Pos2Z.inj_succ, Z.pow_succ_r by lia. lia.
Qed.

Lemma digits_iter_xO p k : digits (Pos.iter xO p k) = digits p + Z.pos k.
Proof.
  unfold digits. induction k as [|k IH] using Pos.peano_ind.
  - simpl. lia.
  - rewrite Pos.iter_succ. simpl digits2_pos. rewrite Pos2Z.inj_succ, IH. lia.
Qed.

(** Rounding a mantissa that already has 53 digits changes nothing. *)
Lemma binary_round_aux_canonical s m e :
  digits m = 53 → -1074 ≤ e ≤ 971 →
  binary_round_aux prec emax s (Z.pos m) e loc_Exact = S754_finite s m e.
Proof.
  unfold digits. intros Hd He.
  assert (Hf : fexp prec emax (Z.pos (digits2_pos m) + e) - e = 0).
  { unfold fexp, SpecFloat.emin, prec, emax. rewrite Hd. lia. }
  unfold binary_round_aux, shr_fexp. simpl Zdigits2. rewrite Hf. simpl.
  rewrite Hf. simpl.
  replace (e <=? emax - prec) with true; [done|].
  symmetry. apply Z.leb_le. unfold emax, prec. lia.
Qed.

(** The binary64 value of an integer of at most 53 bits: its mantissa
    shifted up to 53 digits. *)
Lemma binary_round_small s p :
  digits p ≤ 53 →
  ∃ m, binary_round prec emax s p 0 = S754_finite s m (digits p - 53)
       ∧ Z.pos m = Z.pos p * 2 ^ (53 - digits p)
       ∧ digits m = 53.
Proof.
  intros Hd. pose proof (digits_pos p) as Hp.
  unfold binary_round.
  assert (Hf : fexp prec emax (Z.pos (digits2_pos p) + 0) = digits p - 53).
  { unfold fexp, SpecFloat.emin, prec, emax, digits in *. lia. }
  rewrite Hf. unfold shl_align.
  destruct (digits p - 53 - 0) as [|k|k] eqn:E; [| lia |].
  - exists p. assert (digits p = 53) as Hd53 by lia.
    rewrite Hd53. simpl Z.sub. split; [|split; [simpl; lia | done]].
    apply binary_round_aux_canonical; [done | lia].
  - exists (Pos.iter xO p k).
    assert (Hk : Z.pos k = 53 - digits p) by lia.
    split; [|split].
    + apply binary_round_aux_canonical; [rewrite digits_iter_xO; lia | lia].
    + rewrite iter_xO_value. by rewrite Hk.
    + rewrite digits_iter_xO. lia.
Qed.

Lemma digits_le_of_lt p n : 0 ≤ n → Z.pos p < 2 ^ n → digits p ≤ n.
Proof.
  intros Hn Hp. pose proof (digits_bounds p) as [Hl _].
  destruct (Z_lt_le_dec n (digits p)) as [Hlt|]; [|done].
  assert (2 ^ n ≤ 2 ^ (digits p - 1)) by (apply Z.pow_le_mono_r; lia). lia.
Qed.

(** Conversion to float64 and back is the identity below 2^53. *)
Lemma to_int_finite_small s p m :
  digits p ≤ 53 → Z.pos m = Z.pos p * 2 ^ (53 - digits p) →
  to_int (S754_finite s m (digits p - 53)) = if s then Z.neg p else Z.pos p.
Proof.
  intros Hd Hm. pose proof (digits_pos p) as Hp.
  pose proof (digits_bounds p) as [_ Hu].
  assert (Z.pos p < 2 ^ 53).
  { eapply Z.lt_le_trans; [exact Hu|]. apply Z.pow_le_mono_r; lia. }
  unfold to_int.
  assert (Ha : (if 0 <=? digits p - 53 then Z.pos m * 2 ^ (digits p - 53)
                else Z.pos m / 2 ^ (- (digits p - 53))) = Z.pos p).
  { destruct (Z.leb_spec 0 (digits p - 53)).
    - assert (digits p = 53) as -> by lia. rewrite Hm.
      replace (digits p) with 53 by lia. simpl. lia.
    - rewrite Hm. replace (- (digits p - 53)) with (53 - digits p) by lia.
      apply Z.div_mul. apply Z.pow_nonzero; lia. }
  rewrite Ha. unfold Go.int_min, Go.int_max.
  destruct s.
  - replace ((- 2 ^ 63 <=? - Z.pos p) && (- Z.pos p <=? 2 ^ 63 - 1)) with true; [lia|].
    symmetry. apply andb_true_iff. split; apply Z.leb_le; lia.
  - replace ((- 2 ^ 63 <=? Z.pos p) && (Z.pos p <=? 2 ^ 63 - 1)) with true; [lia|].
    symmetry. apply andb_true_iff. split; apply Z.leb_le; lia.
Qed.

Lemma to_int_of_int z : - 2 ^ 53 < z < 2 ^ 53 → to_int (of_int z) = z.
Proof.
  intros Hz. unfold of_int, binary_normalize.
  destruct z as [|p|p]; [done| |].
  - assert (Hd : digits p ≤ 53) by (apply digits_le_of_lt; lia).
    destruct (binary_round_small false p Hd) as (m & -> & Hm & _).
    by rewrite (to_int_finite_small false p m).
  - assert (Hd : digits p ≤ 53) by (apply digits_le_of_lt; lia).
    destruct (binary_round_small true p Hd) as (m & -> & Hm & _).
    by rewrite (to_int_finite_small true p m).
Qed.

Lemma of_int_pos p :
  digits p ≤ 53 →
  ∃ m : positive,
    of_int (Z.pos p) = S754_finite false m (digits p - 53)
    ∧ Z.pos m = Z.pos p * 2 ^ (53 - digits p).
Proof.
  intros Hd. destruct (binary_round_small false p Hd) as (m & Hm & Hv & _).
  by exists m.
Qed.

Lemma of_int_neg p :
  digits p ≤ 53 →
  ∃ m : positive,
    of_int (Z.neg p) = S754_finite true m (digits p - 53)
    ∧ Z.pos m = Z.pos p * 2 ^ (53 - digits p).
Proof.
  intros Hd. destruct (binary_round_small true p Hd) as (m & Hm & Hv & _).
  by exists m.
Qed.

Lemma ltb_canonical pa pb ma mb :
  digits pa ≤ 53 → digits pb ≤ 53 →
  Z.pos ma = Z.pos pa * 2 ^ (53 - digits pa) →
  Z.pos mb = Z.pos pb * 2 ^ (53 - digits pb) →
  ltb (S754_finite false ma (digits pa - 53)) (S754_finite false mb (digits pb - 53))
  = (Z.pos pa <? Z.pos pb).
Proof.
  intros Ha Hb Hma Hmb.
  pose proof (digits_bounds pa) as [Hla Hua].
  pose proof (digits_bounds pb) as [Hlb Hub].
  unfold ltb, SFltb, SFcompare.
  destruct (Z.compare_spec (digits pa - 53) (digits pb - 53)) as [Heq|Hlt|Hgt].
  - rewrite Pos.compare_cont_spec. simpl.
    change (ma ?= mb)%positive with (Z.pos ma ?= Z.pos mb).
    rewrite Hma, Hmb. replace (digits pb) with (digits pa) by lia.
    assert (0 < 2 ^ (53 - digits pa)) by (apply Z.pow_pos_nonneg; lia).
    destruct (Z.ltb_spec (Z.pos pa) (Z.pos pb)) as [Hlt|Hge].
    + replace (Z.pos pa * 2 ^ (53 - digits pa) ?= Z.pos pb * 2 ^ (53 - digits pa)) with Lt;
        [done|]. symmetry. apply Z.compare_lt_iff.
      by apply Z.mul_lt_mono_pos_r.
    + destruct (Z.pos pa * 2 ^ (53 - digits pa) ?= Z.pos pb * 2 ^ (53 - digits pa)) eqn:E;
        [done| |done].
      apply Z.compare_lt_iff in E. apply Z.mul_lt_mono_pos_r in E; lia.
  - symmetry. apply Z.ltb_lt.
    assert (2 ^ digits pa ≤ 2 ^ (digits pb - 1)) by (apply Z.pow_le_mono_r; lia). lia.
  - symmetry. apply Z.ltb_ge.
    assert (2 ^ digits pb ≤ 2 ^ (digits pa - 1)) by (apply Z.pow_le_mono_r; lia). lia.
Qed.

(** [math.Min] of two converted integers is the conversion of the smaller,
    when both fit 53 bits and the second is not negative. *)
Lemma to_int_Min_of_int a b :
  - 2 ^ 53 < a < 2 ^ 53 → 0 ≤ b < 2 ^ 53 →
  to_int (Min (of_int a) (of_int b)) = Z.min a b.
Proof.
  intros Ha Hb.
  destruct a as [|pa|pa], b as [|pb|pb]; try lia.
  - done.
  - assert (Hd : digits pb ≤ 53) by (apply digits_le_of_lt; lia).
    destruct (of_int_pos pb Hd) as (mb & -> & _). done.
  - assert (Hd : digits pa ≤ 53) by (apply digits_le_of_lt; lia).
    destruct (of_int_pos pa Hd) as (ma & -> & _). done.
  - assert (Hda : digits pa ≤ 53) by (apply digits_le_of_lt; lia).
    assert (Hdb : digits pb ≤ 53) by (apply digits_le_of_lt; lia).
    destruct (of_int_pos pa Hda) as (ma & -> & Hma).
    destruct (of_int_pos pb Hdb) as (mb & -> & Hmb).
    unfold Min. simpl is_neg_inf. simpl is_nan. simpl orb.
    change (eqb (S754_finite false ma (digits pa - 53)) (S754_zero false)) with false.
    simpl andb. cbv iota.
    rewrite (ltb_canonical pa pb ma mb Hda Hdb Hma Hmb).
    destruct (Z.ltb_spec (Z.pos pa) (Z.pos pb)).
    + rewrite (to_int_finite_small false pa ma Hda Hma). lia.
    + rewrite (to_int_finite_small false pb mb Hdb Hmb). lia.
  - assert (Hd : digits pa ≤ 53) by (apply digits_le_of_lt; lia).
    destruct (of_int_neg pa Hd) as (ma & -> & Hma).
    change (Min (S754_finite true ma (digits pa - 53)) (of_int 0))
      with (S754_finite true ma (digits pa - 53)).
    rewrite (to_int_finite_small true pa ma Hd Hma). lia.
  - assert (Hda : digits pa ≤ 53) by (apply digits_le_of_lt; lia).
    assert (Hdb : digits pb ≤ 53) by (apply digits_le_of_lt; lia).
    destruct (of_int_neg pa Hda) as (ma & -> & Hma).
    destruct (of_int_pos pb Hdb) as (mb & -> & Hmb).
    change (Min (S754_finite true ma (digits pa - 53))
                (S754_finite false mb (digits pb - 53)))
      with (S754_finite true ma (digits pa - 53)).
    rewrite (to_int_finite_small true pa ma Hda Hma). lia.
Qed.

Lemma Zdigits2_nonneg z : 0 ≤ Zdigits2 z.
Proof. destruct z; simpl; lia. Qed.

Lemma Zdigits2_lt_pow z k : 0 ≤ z < 2 ^ k → 0 ≤ k → Zdigits2 z ≤ k.
Proof.
  intros [Hz Hlt] Hk. destruct z as [|p|p]; [simpl; lia| |lia].
  by apply digits_le_of_lt.
Qed.

Lemma Zdigits2_bound z : 0 ≤ z → z < 2 ^ Zdigits2 z.
Proof.
  intros Hz. destruct z as [|p|p]; [simpl; lia| |lia].
  apply (digits_bounds p).
Qed.

Lemma Zdigits2_div_pow2 z n :
  0 ≤ z → 0 ≤ n → Zdigits2 (z / 2 ^ n) ≤ Z.max 0 (Zdigits2 z - n).
Proof.
  intros Hz Hn. pose proof (Zdigits2_bound z Hz) as Hb.
  pose proof (Zdigits2_nonneg z) as Hd.
  assert (H2n : 0 < 2 ^ n) by (apply Z.pow_pos_nonneg; lia).
  destruct (Z_lt_le_dec (Zdigits2 z) n) as [Hlt|Hge].
  - rewrite Z.div_small; [simpl; lia|]. split; [done|].
    eapply Z.lt_le_trans; [exact Hb|]. apply Z.pow_le_mono_r; lia.
  - apply Zdigits2_lt_pow; [|lia]. split; [by apply Z.div_pos|].
    apply Z.div_lt_upper_bound; [done|].
    rewrite <- Z.pow_add_r by lia.
    replace (n + Z.max 0 (Zdigits2 z - n)) with (Zdigits2 z) by lia. done.
Qed.

Lemma Zdigits2_succ_le z : 0 ≤ z → Zdigits2 (z + 1) ≤ Zdigits2 z + 1.
Proof.
  intros Hz. pose proof (Zdigits2_bound z Hz) as Hb.
  pose proof (Zdigits2_nonneg z) as Hd.
  apply Zdigits2_lt_pow; [|lia].
  rewrite Z.pow_add_r by lia. simpl (2 ^ 1).
  assert (0 < 2 ^ Zdigits2 z) by (apply Z.pow_pos_nonneg; lia). lia.
Qed.

Lemma Zdigits2_mono a b : 0 ≤ a ≤ b → Zdigits2 a ≤ Zdigits2 b.
Proof.
  intros [Ha Hab]. apply Zdigits2_lt_pow; [|apply Zdigits2_nonneg].
  split; [done|]. eapply Z.le_lt_trans; [exact Hab|]. apply Zdigits2_bound. lia.
Qed.

(** ** Shifting right *)

Lemma shr_1_m mrs : 0 ≤ shr_m mrs → shr_m (shr_1 mrs) = shr_m mrs / 2.
Proof.
  destruct mrs as [m r s]. cbn [shr_m]. intros Hm.
  destruct m as [|[p|p|]|p]; cbn [shr_1 shr_m]; try done; try lia.
  - rewrite Pos2Z.inj_xI.
    apply (Z.div_unique_pos _ _ _ 1); lia.
  - rewrite Pos2Z.inj_xO.
    apply (Z.div_unique_pos _ _ _ 0); lia.
Qed.

Lemma iter_shr_1_m n mrs :
  0 ≤ shr_m mrs → shr_m (SpecFloat.iter_pos shr_1 n mrs) = shr_m mrs / 2 ^ Z.pos n.
Proof.
  revert mrs. induction n as [n IH|n IH|]; intros mrs Hm; simpl SpecFloat.iter_pos.
  - assert (H1 : 0 ≤ shr_m (shr_1 mrs)) by (rewrite shr_1_m by done; by apply Z.div_pos).
    assert (H2 : 0 ≤ shr_m (SpecFloat.iter_pos shr_1 n (shr_1 mrs))).
    { rewrite IH by done. apply Z.div_pos; [done|]. apply Z.pow_pos_nonneg; lia. }
    rewrite IH by done. rewrite IH by done. rewrite shr_1_m by done.
    rewrite !Z.div_div by (try apply Z.pow_pos_nonneg; lia).
    f_equal. rewrite (Pos2Z.inj_xI n).
    replace (2 * Z.pos n + 1) with (1 + Z.pos n + Z.pos n) by lia.
    rewrite !Z.pow_add_r by lia. change (2 ^ 1) with 2. lia.
  - assert (H2 : 0 ≤ shr_m (SpecFloat.iter_pos shr_1 n mrs)).
    { rewrite IH by done. apply Z.div_pos; [done|]. apply Z.pow_pos_nonneg; lia. }
    rewrite IH by done. rewrite IH by done.
    rewrite !Z.div_div by (try apply Z.pow_pos_nonneg; lia).
    f_equal. rewrite (Pos2Z.inj_xO n).
    replace (2 * Z.pos n) with (Z.pos n + Z.pos n) by lia.
    rewrite Z.pow_add_r by lia. lia.
  - rewrite shr_1_m by done. done.
Qed.

Lemma shr_record_of_loc_m m l : shr_m (shr_record_of_loc m l) = m.
Proof. by destruct l as [|[]]. Qed.

(** [shr_fexp] brings the exponent up to [fexp] and divides the mantissa
    accordingly. *)
Lemma shr_fexp_spec m e l :
  0 ≤ m →
  let e' := Z.max e (fexp prec emax (Zdigits2 m + e)) in
  snd (shr_fexp prec emax m e l) = e'
  ∧ shr_m (fst (shr_fexp prec emax m e l)) = m / 2 ^ (e' - e).
Proof.
  intros Hm e'. unfold shr_fexp, shr.
  destruct (fexp prec emax (Zdigits2 m + e) - e) as [|n|n] eqn:E; simpl.
  - rewrite shr_record_of_loc_m.
    replace (e' - e) with 0 by lia. rewrite Z.div_1_r. split; [lia|done].
  - rewrite iter_shr_1_m by (by rewrite shr_record_of_loc_m).
    rewrite shr_record_of_loc_m.
    replace (e' - e) with (Z.pos n) by lia. split; [lia|done].
  - rewrite shr_record_of_loc_m.
    replace (e' - e) with 0 by lia. rewrite Z.div_1_r. split; [lia|done].
Qed.

Lemma round_nearest_even_bounds m l :
  m ≤ round_nearest_even m l ≤ m + 1.
Proof.
  unfold round_nearest_even. destruct l as [|[]]; try lia.
  destruct (Z.even m); lia.
Qed.

(** ** Magnitudes *)

Lemma small_mono M M' x : M ≤ M' → small M x → small M' x.
Proof. intros HM. destruct x; simpl; try done. lia. Qed.

Lemma binary_round_aux_small s mx ex l B :
  0 ≤ mx →
  Z.max (Zdigits2 mx + ex) (-1074) ≤ B → B + 1 ≤ 971 →
  small (B + 1) (binary_round_aux prec emax s mx ex l).
Proof.
  intros Hmx HB Hov.
  pose proof (Zdigits2_nonneg mx) as Hdx.
  pose proof (Zdigits2_bound mx Hmx) as Hbx.
  unfold binary_round_aux.
  pose proof (shr_fexp_spec mx ex l Hmx) as [He1 Hm1].
  destruct (shr_fexp prec emax mx ex l) as [mrs1 e1]. simpl in He1, Hm1.
  rewrite <- He1 in Hm1.
  set (m1 := shr_m mrs1) in *.
  set (m2 := round_nearest_even m1 (loc_of_shr_record mrs1)).
  assert (Hfx : fexp prec emax (Zdigits2 mx + ex) = Z.max (Zdigits2 mx + ex - 53) (-1074))
    by (unfold fexp, SpecFloat.emin, prec, emax; lia).
  assert (Hn1 : 0 ≤ e1 - ex) by lia.
  assert (H2n1 : 0 < 2 ^ (e1 - ex)) by (apply Z.pow_pos_nonneg; lia).
  assert (Hm1pos : 0 ≤ m1) by (rewrite Hm1; by apply Z.div_pos).
  assert (Hd1 : Zdigits2 m1 ≤ Z.max 0 (Zdigits2 mx - (e1 - ex)))
    by (rewrite Hm1; by apply Zdigits2_div_pow2).
  assert (Hm1lt : m1 < 2 ^ 53).
  { eapply Z.lt_le_trans; [apply (Zdigits2_bound m1 Hm1pos)|].
    apply Z.pow_le_mono_r; lia. }
  pose proof (round_nearest_even_bounds m1 (loc_of_shr_record mrs1)) as Hr.
  fold m2 in Hr.
  assert (Hm2pos : 0 ≤ m2) by lia.
  assert (Hd2 : Zdigits2 m2 ≤ Zdigits2 m1 + 1).
  { etransitivity; [apply (Zdigits2_mono m2 (m1 + 1)); lia|].
    by apply Zdigits2_succ_le. }
  assert (Hd2' : Zdigits2 m2 ≤ 54).
  { apply Zdigits2_lt_pow; [|lia]. split; [done|].
    change (2 ^ 54) with (2 * 2 ^ 53). lia. }
  pose proof (shr_fexp_spec m2 e1 loc_Exact Hm2pos) as [He3 Hm3].
  destruct (shr_fexp prec emax m2 e1 loc_Exact) as [mrs3 e3]. simpl in He3, Hm3.
  rewrite <- He3 in Hm3.
  assert (Hf2 : fexp prec emax (Zdigits2 m2 + e1) = Z.max (Zdigits2 m2 + e1 - 53) (-1074))
    by (unfold fexp, SpecFloat.emin, prec, emax; lia).
  assert (Hn3 : 0 ≤ e3 - e1) by lia.
  assert (H2n3 : 0 < 2 ^ (e3 - e1)) by (apply Z.pow_pos_nonneg; lia).
  assert (Hd3 : Zdigits2 (shr_m mrs3) ≤ Z.max 0 (Zdigits2 m2 - (e3 - e1)))
    by (rewrite Hm3; by apply Zdigits2_div_pow2).
  assert (Hm3pos : 0 ≤ shr_m mrs3) by (rewrite Hm3; by apply Z.div_pos).
  destruct (shr_m mrs3) as [|m3|m3] eqn:E3; [done| |lia].
  replace (e3 <=? emax - prec) with true
    by (symmetry; apply Z.leb_le; unfold emax, prec; lia).
  simpl. simpl in Hd3. unfold digits. split; lia.
Qed.

Lemma of_int_small z : Go.is_int32 z → small 32 (of_int z).
Proof.
  unfold Go.is_int32. intros Hz. unfold of_int, binary_normalize.
  destruct z as [|p|p]; [done| |].
  - assert (Hd : digits p ≤ 32) by (apply digits_le_of_lt; lia).
    destruct (binary_round_small false p) as (m & -> & _ & Hm); [lia|].
    simpl. lia.
  - assert (Hd : digits p ≤ 32) by (apply digits_le_of_lt; lia).
    destruct (binary_round_small true p) as (m & -> & _ & Hm); [lia|].
    simpl. lia.
Qed.

Lemma mul_small Mx My x y :
  small Mx x → small My y → -1074 ≤ Mx + My → Mx + My + 1 ≤ 971 →
  small (Mx + My + 1) (mul x y).
Proof.
  intros Hx Hy Hlo Hhi.
  destruct x as [sx|sx| |sx mx ex], y as [sy|sy| |sy my ey]; simpl in Hx, Hy; try done.
  unfold mul, SFmul.
  apply binary_round_aux_small; [lia| |lia].
  pose proof (digits_bounds mx) as [_ Hbx].
  pose proof (digits_bounds my) as [_ Hby].
  pose proof (digits_pos mx). pose proof (digits_pos my).
  assert (Zdigits2 (Z.pos (mx * my)) ≤ digits mx + digits my); [|lia].
  apply Zdigits2_lt_pow; [|lia]. rewrite Pos2Z.inj_mul, Z.pow_add_r by lia.
  split; [lia|]. apply Z.mul_lt_mono_nonneg; lia.
Qed.

Lemma div_small Mx L x sy my ey :
  small Mx x → L ≤ digits my + ey → -1074 ≤ Mx - L + 1 → Mx - L + 2 ≤ 971 →
  small (Mx - L + 2) (div x (S754_finite sy my ey)).
Proof.
  intros Hx Hy Hlo Hhi.
  destruct x as [sx|sx| |sx mx ex]; simpl in Hx; try done.
  unfold div, SFdiv, SFdiv_core_binary.
  change (Zdigits2 (Z.pos mx)) with (digits mx).
  change (Zdigits2 (Z.pos my)) with (digits my).
  set (e' := Z.min (fexp prec emax (digits mx + ex - (digits my + ey))) (ex - ey)).
  assert (He' : e' ≤ Z.max (digits mx + ex - (digits my + ey) - 53) (-1074))
    by (unfold e', fexp, SpecFloat.emin, prec, emax; lia).
  assert (Hs : 0 ≤ ex - ey - e') by (unfold e'; lia).
  set (m' := match ex - ey - e' with
             | 0 => Z.pos mx
             | Z.pos _ => Z.shiftl (Z.pos mx) (ex - ey - e')
             | Z.neg _ => 0
             end).
  assert (Hm' : m' = Z.pos mx * 2 ^ (ex - ey - e')).
  { unfold m'. destruct (ex - ey - e') as [|k|k] eqn:E; [simpl; lia| |lia].
    by rewrite Z.shiftl_mul_pow2. }
  clearbody m'.
  pose proof (Z_div_mod m' (Z.pos my) eq_refl) as Hdm.
  destruct (Z.div_eucl m' (Z.pos my)) as [q r]. destruct Hdm as [Hq Hr].
  pose proof (digits_bounds mx) as [_ Hbx].
  pose proof (digits_bounds my) as [Hby _].
  pose proof (digits_pos mx). pose proof (digits_pos my).
  assert (H2s : 0 < 2 ^ (ex - ey - e')) by (apply Z.pow_pos_nonneg; lia).
  assert (H2y : 0 < 2 ^ (digits my - 1)) by (apply Z.pow_pos_nonneg; lia).
  assert (Hq0 : 0 ≤ q) by nia.
  assert (Hlt : q * 2 ^ (digits my - 1) < 2 ^ (digits mx + (ex - ey - e'))).
  { rewrite Z.pow_add_r by lia. nia. }
  assert (Hdq : Zdigits2 q ≤ Z.max 0 (digits mx + (ex - ey - e') - (digits my - 1))).
  { destruct (Z_lt_le_dec (digits mx + (ex - ey - e')) (digits my - 1)) as [Hc|Hc].
    - assert (2 ^ (digits mx + (ex - ey - e')) ≤ 2 ^ (digits my - 1))
        by (apply Z.pow_le_mono_r; lia).
      assert (q = 0) as -> by nia. simpl. lia.
    - apply Zdigits2_lt_pow; [|lia]. split; [done|].
      apply (Z.mul_lt_mono_pos_r (2 ^ (digits my - 1))); [done|].
      rewrite <- Z.pow_add_r by lia.
      replace (Z.max 0 (digits mx + (ex - ey - e') - (digits my - 1)) + (digits my - 1))
        with (digits mx + (ex - ey - e')) by lia.
      done. }
  replace (Mx - L + 2) with (Mx - L + 1 + 1) by lia.
  apply binary_round_aux_small; [done| |lia]. lia.
Qed.

Lemma to_int_Ceil_small M x :
  small M x → 0 ≤ M ≤ 62 → - 2 ^ M ≤ to_int (Ceil x) ≤ 2 ^ M.
Proof.
  intros Hx HM.
  assert (H2M : 0 < 2 ^ M) by (apply Z.pow_pos_nonneg; lia).
  assert (H2M' : 2 ^ M ≤ 2 ^ 62) by (apply Z.pow_le_mono_r; lia).
  destruct x as [sx|sx| |s m e]; simpl in Hx; try done.
  { simpl. lia. }
  destruct Hx as [Hd Hmag].
  pose proof (digits_bounds m) as [_ Hb]. pose proof (digits_pos m) as Hdp.
  assert (Hm53 : Z.pos m < 2 ^ 53).
  { eapply Z.lt_le_trans; [exact Hb|]. apply Z.pow_le_mono_r; lia. }
  unfold Ceil. destruct (Z.leb_spec 0 e) as [He|He].
  - unfold to_int. rewrite (proj2 (Z.leb_le 0 e) He).
    assert (Ha : Z.pos m * 2 ^ e < 2 ^ M).
    { eapply Z.lt_le_trans; [|apply (Z.pow_le_mono_r 2 (digits m + e) M); lia].
      rewrite Z.pow_add_r by lia.
      apply Z.mul_lt_mono_pos_r; [apply Z.pow_pos_nonneg; lia|done]. }
    assert (0 < 2 ^ e) by (apply Z.pow_pos_nonneg; lia).
    unfold Go.int_min, Go.int_max.
    destruct s.
    + replace ((- 2 ^ 63 <=? - (Z.pos m * 2 ^ e)) && (- (Z.pos m * 2 ^ e) <=? 2 ^ 63 - 1))
        with true; [nia|].
      symmetry. apply andb_true_iff. split; apply Z.leb_le; nia.
    + replace ((- 2 ^ 63 <=? Z.pos m * 2 ^ e) && (Z.pos m * 2 ^ e <=? 2 ^ 63 - 1))
        with true; [nia|].
      symmetry. apply andb_true_iff. split; apply Z.leb_le; nia.
  - assert (H2e : 0 < 2 ^ (- e)) by (apply Z.pow_pos_nonneg; lia).
    assert (H2e' : 2 ≤ 2 ^ (- e)).
    { change 2 with (2 ^ 1) at 1. apply Z.pow_le_mono_r; lia. }
    set (q := Z.pos m / 2 ^ (- e)).
    assert (Hq0 : 0 ≤ q) by (apply Z.div_pos; lia).
    assert (Hq52 : q < 2 ^ 52).
    { apply Z.div_lt_upper_bound; [done|].
      change (2 ^ 53) with (2 * 2 ^ 52) in Hm53. nia. }
    assert (HqM : q < 2 ^ M).
    { destruct (Z_lt_le_dec (digits m + e) 0) as [Hc|Hc].
      - assert (q = 0) as ->; [|lia]. apply Z.div_small. split; [lia|].
        eapply Z.lt_le_trans; [exact Hb|]. apply Z.pow_le_mono_r; lia.
      - eapply Z.lt_le_trans; [|apply (Z.pow_le_mono_r 2 (digits m + e) M); lia].
        apply Z.div_lt_upper_bound; [done|].
        rewrite <- Z.pow_add_r by lia.
        replace (- e + (digits m + e)) with (digits m) by lia. done. }
    destruct s.
    + destruct (Z.eqb_spec q 0) as [Hz|Hz]; [simpl; lia|].
      rewrite to_int_of_int by lia. lia.
    + destruct (Z.pos m `mod` 2 ^ (- e) =? 0);
        rewrite to_int_of_int by lia; lia.
Qed.

Lemma of_int_100 : of_int 100 = S754_finite false 7036874417766400 (-46).
Proof. reflexivity. Qed.

(** The target of a weight step stays far inside [int]. *)
Lemma weightReplicas_bound w n :
  Go.is_int32 w → Go.is_int32 n →
  - 2 ^ 60 ≤ Rollout.weightReplicas w n ≤ 2 ^ 60.
Proof.
  intros Hw Hn. unfold Rollout.weightReplicas.
  apply to_int_Ceil_small; [|lia].
  replace 60 with (27 + 32 + 1) by lia.
  apply mul_small; [|by apply of_int_small|lia|lia].
  rewrite of_int_100.
  replace 27 with (32 - 7 + 2) by lia.
  apply div_small; [by apply of_int_small| |lia|lia].
  vm_compute. discriminate.
Qed.

(** The float64 product is not always the ceiling of the exact quotient:
    7/100 rounds up, and 100 times it exceeds 7. *)
Example weightReplicas_7_of_100 : Rollout.weightReplicas 7 100 = 8.
Proof. vm_compute. reflexivity. Qed.

Example weightReplicas_25_of_4 : Rollout.weightReplicas 25 4 = 1.
Proof. vm_compute. reflexivity. Qed.

End Float64Facts.

(* ===================================================================== *)
(** * The rollout ability: properties *)
(* ===================================================================== *)

Module RolloutFacts.
Import Go Errors Unstructured Rollout.

(** ** The loops of GetSteps *)

Lemma stepTarget_is_Some replicasTotal step :
  is_Some (stepTarget replicasTotal step) ↔ hasEffect step = true.
Proof.
  unfold stepTarget, hasEffect.
  destruct (SetWeight step), (SetReplica step); simpl; split; intros H;
    try done; try (by eexists); by destruct H.
Qed.

Lemma replicasListLoop_omap steps replicasTotal acc :
  replicasListLoop steps replicasTotal acc
  = acc ++ omap (stepTarget replicasTotal) steps.
Proof.
  revert acc. induction steps as [|step rest IH]; intros acc; simpl.
  - by rewrite app_nil_r.
  - rewrite IH. unfold stepTarget.
    destruct (SetWeight step); [by rewrite <- app_assoc|].
    destruct (SetReplica step); [by rewrite <- app_assoc|done].
Qed.

Lemma length_omap_stepTarget replicasTotal steps :
  length (omap (stepTarget replicasTotal) steps)
  = length (filter (fun s => hasEffect s = true) steps).
Proof.
  induction steps as [|step rest IH]; [done|].
  rewrite filter_cons.
  destruct (stepTarget_is_Some replicasTotal step) as [H1 H2].
  change (omap (stepTarget replicasTotal) (step :: rest))
    with (match stepTarget replicasTotal step with
          | Some y => y :: omap (stepTarget replicasTotal) rest
          | None => omap (stepTarget replicasTotal) rest
          end).
  destruct (stepTarget replicasTotal step) eqn:E.
  - rewrite decide_True by (apply H1; by eexists). simpl. by rewrite IH.
  - rewrite decide_False; [done|].
    intros Hc. destruct (H2 Hc) as [? ?]. congruence.
Qed.

Lemma incrementLoop_length l i n acc :
  length (incrementLoop l i n acc) = (length acc + n)%nat.
Proof.
  revert i acc. induction n as [|n IH]; intros i acc; simpl; [lia|].
  rewrite IH, length_app. simpl. lia.
Qed.

Lemma incrementLoop_prefix l i n acc j :
  (j < length acc)%nat → incrementLoop l i n acc !! j = acc !! j.
Proof.
  revert i acc. induction n as [|n IH]; intros i acc Hj; simpl; [done|].
  rewrite IH by (rewrite length_app; simpl; lia).
  by rewrite lookup_app_l.
Qed.

Lemma incrementLoop_lookup l i n acc j :
  length acc = i → (i ≤ j < i + n)%nat →
  incrementLoop l i n acc !! j
  = Some (if (0 <? j)%nat then int_sub (l !!! j) (l !!! (j - 1)%nat) else l !!! j).
Proof.
  revert i acc. induction n as [|n IH]; intros i acc Hlen Hj; simpl; [lia|].
  destruct (decide (j = i)) as [->|Hne].
  - rewrite incrementLoop_prefix by (rewrite length_app; simpl; lia).
    rewrite lookup_app_r by lia. by rewrite Hlen, Nat.sub_diag.
  - apply IH; [rewrite length_app; simpl; lia | lia].
Qed.

Lemma incrementReplicas_length l : length (incrementReplicas l) = length l.
Proof. unfold incrementReplicas. by rewrite incrementLoop_length. Qed.

Lemma incrementReplicas_lookup l j :
  (j < length l)%nat →
  incrementReplicas l !! j
  = Some (if (0 <? j)%nat then int_sub (l !!! j) (l !!! (j - 1)%nat) else l !!! j).
Proof. intros Hj. apply incrementLoop_lookup; [done | lia]. Qed.

Lemma countEffect_nonneg steps : 0 ≤ countEffect steps.
Proof. unfold countEffect. lia. Qed.

Lemma countEffect_cons step steps :
  countEffect (step :: steps)
  = (if hasEffect step then 1 else 0) + countEffect steps.
Proof.
  unfold countEffect. rewrite filter_cons.
  destruct (hasEffect step) eqn:E.
  - rewrite decide_True by done. simpl length. lia.
  - rewrite decide_False by (by intros ?). lia.
Qed.

Lemma countEffect_app l1 l2 : countEffect (l1 ++ l2) = countEffect l1 + countEffect l2.
Proof. unfold countEffect. rewrite filter_app, length_app. lia. Qed.

Lemma countEffect_take_le n steps : countEffect (take n steps) ≤ countEffect steps.
Proof.
  rewrite <- (take_drop n steps) at 2. rewrite countEffect_app.
  pose proof (countEffect_nonneg (drop n steps)). lia.
Qed.

Lemma stepIndexLoop_Ret steps i n acc v :
  stepIndexLoop steps i n acc = Ret v →
  (i + n ≤ length steps)%nat ∨ n = 0%nat.
Proof.
  revert i acc. induction n as [|n IH]; intros i acc H; simpl in H; [by right|].
  left. destruct (steps !! i) eqn:E; [|done].
  apply lookup_lt_Some in E.
  destruct (IH _ _ H) as [?| ->]; lia.
Qed.

Lemma stepIndexLoop_count steps i n acc v :
  stepIndexLoop steps i n acc = Ret v →
  v = acc + countEffect (take n (drop i steps)).
Proof.
  revert i acc. induction n as [|n IH]; intros i acc H; simpl in H.
  - inversion H. rewrite take_0. unfold countEffect. simpl. lia.
  - destruct (steps !! i) as [step|] eqn:E; [|done].
    apply IH in H. rewrite H.
    rewrite (drop_S _ _ _ E). simpl take. rewrite countEffect_cons.
    destruct (hasEffect step); lia.
Qed.

Lemma stepIndexLoop_total steps i n acc :
  (i + n ≤ length steps)%nat →
  stepIndexLoop steps i n acc = Ret (acc + countEffect (take n (drop i steps))).
Proof.
  revert i acc. induction n as [|n IH]; intros i acc H; simpl.
  - rewrite take_0. unfold countEffect. simpl. f_equal. lia.
  - destruct (lookup_lt_is_Some_2 steps i) as [step E]; [lia|].
    rewrite E. rewrite IH by lia.
    rewrite (drop_S _ _ _ E). simpl take. rewrite countEffect_cons.
    f_equal. destruct (hasEffect step); lia.
Qed.

(** ** Integer arithmetic of the increments *)

Lemma int32b_spec z : int32b z = true ↔ is_int32 z.
Proof. unfold int32b, is_int32. rewrite andb_true_iff, Z.leb_le, Z.ltb_lt. tauto. Qed.

Lemma wrap_id z : - 2 ^ 63 ≤ z < 2 ^ 63 → wrap z = z.
Proof.
  intros Hz. unfold wrap. change (2 ^ 64) with (2 * 2 ^ 63).
  rewrite Z.mod_small; lia.
Qed.

Lemma deltas_length p l : length (deltas p l) = length l.
Proof. revert p. induction l as [|x l IH]; intros p; simpl; [done|by rewrite IH]. Qed.

Lemma deltas_lookup p l i x :
  l !! i = Some x →
  deltas p l !! i = Some (x - match i with O => p | S j => l !!! j end).
Proof.
  revert p i. induction l as [|y l IH]; intros p i Hi; [done|].
  destruct i as [|i]; simpl in *.
  - by inversion Hi.
  - rewrite (IH y i Hi). destruct i; done.
Qed.

Lemma Zsum_deltas p l : Zsum (deltas p l) = default p (last l) - p.
Proof.
  revert p. induction l as [|x l IH]; intros p; [simpl; lia|].
  change (Zsum (deltas p (x :: l))) with (x - p + Zsum (deltas x l)).
  rewrite IH, last_cons. destruct (last l); simpl; lia.
Qed.

Lemma incrementReplicas_exact l :
  Forall (fun c => - 2 ^ 60 ≤ c ≤ 2 ^ 60) l → incrementReplicas l = deltas 0 l.
Proof.
  intros Hl. apply list_eq. intros i.
  destruct (l !! i) as [x|] eqn:Ei.
  - rewrite (deltas_lookup _ _ _ _ Ei).
    rewrite incrementReplicas_lookup by (by eapply lookup_lt_Some).
    rewrite (list_lookup_total_correct _ _ _ Ei).
    destruct i as [|i]; simpl; [f_equal; lia|].
    rewrite Nat.sub_0_r. f_equal. unfold int_sub.
    assert (Hi : (i < length l)%nat) by (apply lookup_lt_Some in Ei; lia).
    destruct (lookup_lt_is_Some_2 l i Hi) as [y Ey].
    rewrite (list_lookup_total_correct _ _ _ Ey).
    rewrite Forall_lookup in Hl. pose proof (Hl _ _ Ei). pose proof (Hl _ _ Ey).
    apply wrap_id. change (2 ^ 63) with (8 * 2 ^ 60). lia.
  - rewrite !lookup_ge_None_2; [done| |].
    + rewrite deltas_length. by apply lookup_ge_None.
    + rewrite incrementReplicas_length. by apply lookup_ge_None.
Qed.

Lemma stepTarget_bound total step c :
  is_int32 total →
  int32_opt (SetWeight step) && int32_opt (SetReplica step) = true →
  stepTarget total step = Some c → - 2 ^ 60 ≤ c ≤ 2 ^ 60.
Proof.
  intros Ht Hwf. apply andb_true_iff in Hwf as [Hw Hr].
  unfold stepTarget. destruct (SetWeight step) as [w|].
  - intros [= <-]. apply Float64Facts.weightReplicas_bound; [|done].
    by apply int32b_spec.
  - intros Hc. rewrite Hc in Hr. simpl in Hr. apply int32b_spec in Hr.
    unfold is_int32 in Hr.
    assert (2 ^ 31 ≤ 2 ^ 60) by (by apply Z.pow_le_mono_r). lia.
Qed.

Lemma cumulative_bound total steps :
  is_int32 total →
  forallb (fun step => int32_opt (SetWeight step) && int32_opt (SetReplica step)) steps = true →
  Forall (fun c => - 2 ^ 60 ≤ c ≤ 2 ^ 60) (omap (stepTarget total) steps).
Proof.
  intros Ht Hwf. apply Forall_forall. intros c Hc.
  apply list_elem_of_omap in Hc as (step & Hin & Hc).
  rewrite forallb_forall in Hwf.
  eapply stepTarget_bound; [done| |done].
  apply Hwf. by apply list_elem_of_In.
Qed.

Section Props.
Context {PodSpec : Type}.
Variable computePodSpecHash : PodSpec -> string.
Variable computeStepHash : @RolloutObj PodSpec -> string.
Variable FromUnstructured : gmap string jvalue -> error + option (@RolloutObj PodSpec).

Local Abbreviation getRolloutByNode := (Rollout.getRolloutByNode FromUnstructured).
Local Abbreviation GetSteps := (Rollout.GetSteps computeStepHash FromUnstructured).
Local Abbreviation IsHealthy := (Rollout.IsHealthy computePodSpecHash FromUnstructured).
Local Abbreviation Action := (Rollout.Action FromUnstructured).

(** What [GetSteps] does once the rollout is fetched. *)
Lemma GetSteps_synthetic node client instance un :
  getRolloutByNode node client = (Some instance, Some un, None) →
  declaredSteps instance = [] →
  GetSteps node client = Ret (Some (syntheticStep (replicasTotalOf instance)), None).
Proof.
  intros Hget Hsteps. unfold Rollout.GetSteps. rewrite Hget.
  unfold declaredSteps in Hsteps.
  destruct (Canary (Strategy (Spec instance))) as [canary|] eqn:Ec.
  - rewrite Hsteps. simpl. done.
  - simpl. done.
Qed.

Lemma GetSteps_computed node client instance un s :
  getRolloutByNode node client = (Some instance, Some un, None) →
  declaredSteps instance ≠ [] →
  GetSteps node client = Ret (Some s, None) →
  ∃ idx stepIndex,
    CurrentStepIndex (Status instance) = Some idx
    ∧ (if bool_decide (CurrentStepHash (Status instance) = computeStepHash instance)
       then stepIndexLoop (declaredSteps instance) 0
              (Z.to_nat (clampedIndex idx (declaredSteps instance))) 0
       else Ret 0) = Ret stepIndex
    ∧ s = {| Index := stepIndex;
             Total := Z.of_nat (length (incrementReplicas
                        (omap (stepTarget (replicasTotalOf instance))
                              (declaredSteps instance))));
             Replicas_ := incrementReplicas
                            (omap (stepTarget (replicasTotalOf instance))
                                  (declaredSteps instance));
             ManualPaused := Paused (Spec instance);
             AutoPromote := (NestedBool (Object un) ["status"; "autoPromote"]).1.1;
             Extra := match marshalCurrentIndex idx with
                      | inr bts => Some bts
                      | inl _ => Some "{}"
                      end |}.
Proof.
  intros Hget Hsteps. unfold Rollout.GetSteps. rewrite Hget.
  unfold declaredSteps, replicasTotalOf in *.
  destruct (Canary (Strategy (Spec instance))) as [canary|] eqn:Ec; [|done].
  rewrite bool_decide_false by done.
  rewrite bool_decide_false by (by destruct (Steps canary)).
  cbn [orb]. rewrite replicasListLoop_omap. cbn [app].
  destruct (CurrentStepIndex (Status instance)) as [idx|] eqn:Ei.
  - destruct (if bool_decide (CurrentStepHash (Status instance) = computeStepHash instance)
              then stepIndexLoop (Steps canary) 0
                     (Z.to_nat (clampedIndex idx (Steps canary))) 0
              else Ret 0) as [stepIndex|] eqn:El; [|done].
    destruct (NestedBool (Object un) ["status"; "autoPromote"]) as [[b f] [e|]] eqn:En;
      [done|].
    intros H. inversion H. exists idx, stepIndex. done.
  - destruct (if bool_decide (CurrentStepHash (Status instance) = computeStepHash instance)
              then Ret 0 else Ret 0) as [stepIndex|] eqn:El; [|done].
    destruct (NestedBool (Object un) ["status"; "autoPromote"]) as [[b f] [e|]]; done.
Qed.

Lemma GetSteps_returns_fetched node client s :
  GetSteps node client = Ret (Some s, None) →
  ∃ instance un, getRolloutByNode node client = (Some instance, Some un, None).
Proof.
  unfold Rollout.GetSteps.
  destruct (getRolloutByNode node client) as [[[instance|] [un|]] [e|]]; try done.
  intros _. by exists instance, un.
Qed.

Lemma clampedIndex_min idx steps :
  is_int32 idx → Z.of_nat (length steps) < 2 ^ 53 →
  clampedIndex idx steps = Z.min idx (Z.of_nat (length steps)).
Proof.
  unfold is_int32. intros Hidx Hlen. unfold clampedIndex.
  apply Float64Facts.to_int_Min_of_int; lia.
Qed.

(** C3. Every step [GetSteps] returns has as many replica targets as its
    [Total] says, and an [Index] between 0 and [Total]. *)
Theorem GetSteps_invariant node client s :
  GetSteps node client = Ret (Some s, None) →
  Z.of_nat (length (Replicas_ s)) = Total s ∧ 0 ≤ Index s ≤ Total s.
Proof.
  intros Hs. destruct (GetSteps_returns_fetched _ _ _ Hs) as (instance & un & Hget).
  destruct (decide (declaredSteps instance = [])) as [Hnil|Hne].
  - rewrite (GetSteps_synthetic _ _ _ _ Hget Hnil) in Hs.
    inversion Hs. simpl. lia.
  - destruct (GetSteps_computed _ _ _ _ _ Hget Hne Hs) as (idx & stepIndex & _ & Hloop & ->).
    simpl. split; [done|].
    rewrite incrementReplicas_length, length_omap_stepTarget.
    fold (countEffect (declaredSteps instance)).
    case_bool_decide.
    + apply stepIndexLoop_count in Hloop. rewrite Hloop, drop_0.
      pose proof (countEffect_nonneg
        (take (Z.to_nat (clampedIndex idx (declaredSteps instance))) (declaredSteps instance))).
      pose proof (countEffect_take_le
        (Z.to_nat (clampedIndex idx (declaredSteps instance))) (declaredSteps instance)).
      lia.
    + inversion Hloop. pose proof (countEffect_nonneg (declaredSteps instance)). lia.
Qed.

(** With declared steps, a reported 32-bit index and a readable
    auto-promote flag, [GetSteps] returns a step. *)
Lemma GetSteps_returns node client instance un idx :
  getRolloutByNode node client = (Some instance, Some un, None) →
  declaredSteps instance ≠ [] →
  CurrentStepIndex (Status instance) = Some idx →
  is_int32 idx →
  Z.of_nat (length (declaredSteps instance)) < 2 ^ 53 →
  (NestedBool (Object un) ["status"; "autoPromote"]).2 = None →
  ∃ s, GetSteps node client = Ret (Some s, None).
Proof.
  intros Hget Hne Hidx Hint Hlen Hauto. unfold Rollout.GetSteps. rewrite Hget.
  unfold declaredSteps in *.
  destruct (Canary (Strategy (Spec instance))) as [canary|] eqn:Ec; [|done].
  rewrite bool_decide_false by done.
  rewrite bool_decide_false by (by destruct (Steps canary)).
  cbn [orb]. rewrite Hidx.
  rewrite clampedIndex_min by done.
  rewrite stepIndexLoop_total by lia.
  destruct (bool_decide _);
    destruct (NestedBool (Object un) ["status"; "autoPromote"]) as [[b f] [e|]];
    simpl in Hauto; try done; by eexists.
Qed.

(** C4. A stored step hash that differs from the hash of the declared
    steps gives [Index = 0] whatever index the object reports; with equal
    hashes the reported index is clamped to [0, len(steps)] and [Index]
    counts the steps below the clamp that set a weight or a replica
    count.  A step is returned whenever an index is reported. *)
Theorem GetSteps_index node client instance un :
  getRolloutByNode node client = (Some instance, Some un, None) →
  (∀ s, GetSteps node client = Ret (Some s, None) →
        CurrentStepHash (Status instance) ≠ computeStepHash instance →
        Index s = 0)
  ∧ (∀ s idx,
       GetSteps node client = Ret (Some s, None) →
       CurrentStepHash (Status instance) = computeStepHash instance →
       CurrentStepIndex (Status instance) = Some idx →
       is_int32 idx →
       Z.of_nat (length (declaredSteps instance)) < 2 ^ 53 →
       Index s = countEffect
                   (take (Z.to_nat (clamp idx (Z.of_nat (length (declaredSteps instance)))))
                         (declaredSteps instance)))
  ∧ (∀ idx,
       declaredSteps instance ≠ [] →
       CurrentStepIndex (Status instance) = Some idx →
       is_int32 idx →
       Z.of_nat (length (declaredSteps instance)) < 2 ^ 53 →
       (NestedBool (Object un) ["status"; "autoPromote"]).2 = None →
       ∃ s, GetSteps node client = Ret (Some s, None)).
Proof.
  intros Hget. split; [|split].
  - intros s Hs Hhash.
    destruct (decide (declaredSteps instance = [])) as [Hnil|Hne].
    + rewrite (GetSteps_synthetic _ _ _ _ Hget Hnil) in Hs. by inversion Hs.
    + destruct (GetSteps_computed _ _ _ _ _ Hget Hne Hs)
        as (idx & stepIndex & Hi & Hloop & ->).
      rewrite bool_decide_false in Hloop by done. by inversion Hloop.
  - intros s idx Hs Hhash Hi Hidx Hlen.
    destruct (decide (declaredSteps instance = [])) as [Hnil|Hne].
    + rewrite (GetSteps_synthetic _ _ _ _ Hget Hnil) in Hs. inversion Hs. simpl.
      rewrite Hnil, take_nil. done.
    + destruct (GetSteps_computed _ _ _ _ _ Hget Hne Hs)
        as (idx' & stepIndex & Hi' & Hloop & ->).
      rewrite Hi in Hi'. inversion Hi'; subst idx'. simpl.
      rewrite bool_decide_true in Hloop by done.
      apply stepIndexLoop_count in Hloop. rewrite drop_0 in Hloop.
      rewrite Hloop, clampedIndex_min by done. unfold clamp.
      replace (Z.to_nat (Z.max 0 (Z.min idx (Z.of_nat (length (declaredSteps instance))))))
        with (Z.to_nat (Z.min idx (Z.of_nat (length (declaredSteps instance))))) by lia.
      lia.
  - intros idx. by apply GetSteps_returns.
Qed.

Lemma replicasTotalOf_int32 (instance : @RolloutObj PodSpec) :
  wellTyped instance = true → is_int32 (replicasTotalOf instance).
Proof.
  unfold wellTyped, replicasTotalOf. rewrite !andb_true_iff. intros [[Hr _] _].
  destruct (Replicas (Spec instance)); [by apply int32b_spec|].
  unfold is_int32. lia.
Qed.

(** C2, as amended.  With declared canary steps, [GetSteps] builds one
    cumulative target for each declared step that sets a weight or a
    replica count, in step order (a step with neither adds nothing), turns
    the targets into increments, and returns them as [Replicas] with
    [Total] their number; the increments add up to the last target.  For
    weights 25, 50, 100 and 4 replicas it returns [1; 1; 2] and 3. *)
Theorem GetSteps_replicas node client instance un s :
  getRolloutByNode node client = (Some instance, Some un, None) →
  declaredSteps instance ≠ [] →
  wellTyped instance = true →
  GetSteps node client = Ret (Some s, None) →
  let cumulative :=
    omap (stepTarget (replicasTotalOf instance)) (declaredSteps instance) in
  Z.of_nat (length cumulative) = countEffect (declaredSteps instance)
  ∧ length (Replicas_ s) = length cumulative
  ∧ Total s = Z.of_nat (length (Replicas_ s))
  ∧ (∀ i c, cumulative !! i = Some c →
            Replicas_ s !! i
            = Some match i with O => c | S j => c - cumulative !!! j end)
  ∧ (∀ c, last cumulative = Some c → Zsum (Replicas_ s) = c)
  ∧ (declaredSteps instance = [weightStep 25; weightStep 50; weightStep 100] →
     Replicas (Spec instance) = Some 4 →
     Replicas_ s = [1; 1; 2] ∧ Total s = 3).
Proof.
  intros Hget Hne Hwf Hs cumulative.
  destruct (GetSteps_computed _ _ _ _ _ Hget Hne Hs) as (idx & stepIndex & _ & _ & ->).
  cbn [Replicas_ Total]. fold cumulative.
  assert (Hb : Forall (fun c => - 2 ^ 60 ≤ c ≤ 2 ^ 60) cumulative).
  { apply cumulative_bound; [by apply replicasTotalOf_int32|].
    unfold wellTyped in Hwf. by apply andb_true_iff in Hwf as [_ ?]. }
  rewrite (incrementReplicas_exact _ Hb).
  split; [unfold countEffect, cumulative; by rewrite length_omap_stepTarget|].
  split; [apply deltas_length|].
  split; [done|].
  split; [|split].
  - intros i c Hc. rewrite (deltas_lookup _ _ _ _ Hc). destruct i; f_equal; lia.
  - intros c Hc. rewrite Zsum_deltas, Hc. simpl. lia.
  - intros Hsteps Hrep. subst cumulative.
    unfold replicasTotalOf. rewrite Hsteps, Hrep. by vm_compute.
Qed.

(** ** IsHealthy, once the rollout and its pods are read *)

Lemma annotationsMatch_spec (template pod : gmap string string) :
  annotationsMatch template pod = true
  ↔ ∀ k v, template !! k = Some v → default "" (pod !! k) = v.
Proof.
  unfold annotationsMatch. rewrite forallb_forall. split.
  - intros H k v Hk. apply elem_of_map_to_list in Hk.
    apply list_elem_of_In in Hk. specialize (H _ Hk).
    by apply bool_decide_eq_true in H.
  - intros H [k v] Hkv. apply bool_decide_eq_true. simpl.
    apply H. apply elem_of_map_to_list. by apply list_elem_of_In.
Qed.

Lemma podCounts_spec (instance : @RolloutObj PodSpec) pod :
  podCounts computePodSpecHash instance pod = true
  ↔ Pod_Phase pod = "Running"
    ∧ computePodSpecHash (Pod_Spec pod)
      = computePodSpecHash (Template_Spec (Template (Spec instance)))
    ∧ ∀ k v, Annotations (Template_ObjectMeta (Template (Spec instance))) !! k = Some v →
             default "" (Annotations (Pod_ObjectMeta pod) !! k) = v.
Proof.
  unfold podCounts. rewrite <- annotationsMatch_spec.
  destruct (decide (Pod_Phase pod = "Running")) as [Hphase|Hphase].
  - rewrite (bool_decide_false (Pod_Phase pod ≠ "Running")) by (by intros ?).
    destruct (decide (computePodSpecHash (Template_Spec (Template (Spec instance)))
                      = computePodSpecHash (Pod_Spec pod))) as [Hhash|Hhash].
    + rewrite bool_decide_false by (by intros ?). split; [by intros ?|by intros (_ & _ & ?)].
    + rewrite bool_decide_true by done. split; [done|]. by intros (_ & ? & _).
  - rewrite bool_decide_true by done. split; [done|]. by intros (? & _).
Qed.

Lemma countPods_loop (instance : @RolloutObj PodSpec) pods count :
  fold_left (fun count pod =>
               if podCounts computePodSpecHash instance pod then count + 1 else count)
            pods count
  = count + Z.of_nat (length (filter (fun pod =>
                        podCounts computePodSpecHash instance pod = true) pods)).
Proof.
  revert count. induction pods as [|pod pods IH]; intros count; simpl; [lia|].
  rewrite IH, filter_cons.
  destruct (podCounts computePodSpecHash instance pod) eqn:E.
  - rewrite decide_True by done. simpl length. lia.
  - rewrite decide_False by (by intros ?). lia.
Qed.

(** The number [IsHealthy] compares: the pods that are Running, hash like
    the template and carry its annotations. *)
Lemma countPods_filter (instance : @RolloutObj PodSpec) pods :
  countPods computePodSpecHash instance pods
  = Z.of_nat (length (filter (fun pod =>
                podCounts computePodSpecHash instance pod = true) pods)).
Proof. unfold countPods. rewrite countPods_loop. lia. Qed.

(** The verdict of [IsHealthy]; the desired count is the declared one, and
    0 when none is declared. *)
Lemma IsHealthy_verdict node client instance un pods :
  getRolloutByNode node client = (Some instance, Some un, None) →
  Pods_List client (Namespace (Rollout_ObjectMeta instance))
    (Labels (Template_ObjectMeta (Template (Spec instance)))) = inr pods →
  let required := default 0 (Replicas (Spec instance)) in
  let count := countPods computePodSpecHash instance pods in
  (count ≠ required → IsHealthy node client = Ret (false, None))
  ∧ (count = required → CurrentStepIndex (Status instance) = None →
     IsHealthy node client = Ret (true, None))
  ∧ (count = required →
     ∀ idx canary, CurrentStepIndex (Status instance) = Some idx →
                   Canary (Strategy (Spec instance)) = Some canary →
                   IsHealthy node client
                   = Ret (bool_decide (idx = Z.of_nat (length (Steps canary))), None))
  ∧ (count = required →
     ∀ idx, CurrentStepIndex (Status instance) = Some idx →
            Canary (Strategy (Spec instance)) = None →
            IsHealthy node client = Panic nil_deref).
Proof.
  intros Hget Hpods required count. unfold Rollout.IsHealthy.
  rewrite Hget, Hpods. fold count.
  replace (match Replicas (Spec instance) with Some r => r | None => 0 end)
    with required by (unfold required; by destruct (Replicas (Spec instance))).
  repeat split.
  - intros Hne. by rewrite bool_decide_true.
  - intros Heq Hidx. rewrite bool_decide_false by (by intros ?). by rewrite Hidx.
  - intros Heq idx canary Hidx Hc.
    rewrite bool_decide_false by (by intros ?). by rewrite Hidx, Hc.
  - intros Heq idx Hidx Hc.
    rewrite bool_decide_false by (by intros ?). by rewrite Hidx, Hc.
Qed.

(** C6, as amended.  A fetch that succeeds without an instance is healthy
    with no error; every fetch or conversion error, a not-found included,
    comes back with the boolean true; false never comes with an error. *)
Theorem IsHealthy_errors node client :
  (∀ e, Dynamic_Get client "argoproj.io" (Node_Version node) "rollouts"
          (Node_Namespace node) (Node_Name node) = inl e →
        IsHealthy node client
        = Ret (true, Some (ErrGetFailed ResourceInK8S "failed to get rollout in k8s" e)))
  ∧ (∀ un e, Dynamic_Get client "argoproj.io" (Node_Version node) "rollouts"
               (Node_Namespace node) (Node_Name node) = inr un →
             FromUnstructured (Object un) = inl e →
             IsHealthy node client = Ret (true, Some e))
  ∧ (∀ un, Dynamic_Get client "argoproj.io" (Node_Version node) "rollouts"
             (Node_Namespace node) (Node_Name node) = inr un →
           FromUnstructured (Object un) = inr None →
           IsHealthy node client = Ret (true, None))
  ∧ (∀ b e, IsHealthy node client = Ret (b, Some e) → b = true).
Proof.
  unfold Rollout.IsHealthy, Rollout.getRolloutByNode.
  repeat split.
  - intros e ->. done.
  - intros un e -> ->. done.
  - intros un -> ->. done.
  - intros b e.
    destruct (Dynamic_Get client _ _ _ _ _) as [e0|un]; [by intros [= <- _]|].
    destruct (FromUnstructured (Object un)) as [e0|[instance|]];
      [by intros [= <- _] | | done].
    destruct (Pods_List client _ _) as [e0|pods]; [by intros [= <- _]|].
    case_bool_decide; [done|].
    destruct (CurrentStepIndex (Status instance)); [|done].
    destruct (Canary (Strategy (Spec instance))); done.
Qed.

(** C8, as amended.  With declared canary steps the returned step carries
    the object's paused flag; without them the synthetic step is returned,
    and its [ManualPaused] is false. *)
Theorem GetSteps_paused node client instance un s :
  getRolloutByNode node client = (Some instance, Some un, None) →
  GetSteps node client = Ret (Some s, None) →
  (declaredSteps instance ≠ [] → ManualPaused s = Paused (Spec instance))
  ∧ (declaredSteps instance = [] →
     s = {| Index := 0; Total := 1; Replicas_ := [replicasTotalOf instance];
            ManualPaused := false; AutoPromote := false; Extra := None |}).
Proof.
  intros Hget Hs. split.
  - intros Hne.
    by destruct (GetSteps_computed _ _ _ _ _ Hget Hne Hs) as (idx & k & _ & _ & ->).
  - intros Hnil. rewrite (GetSteps_synthetic _ _ _ _ Hget Hnil) in Hs.
    by inversion Hs.
Qed.

(** With declared steps and no reported step index, [GetSteps] does not
    return: it dereferences the nil index. *)
Lemma GetSteps_nil_index_panics node client instance un :
  getRolloutByNode node client = (Some instance, Some un, None) →
  declaredSteps instance ≠ [] →
  CurrentStepIndex (Status instance) = None →
  (NestedBool (Object un) ["status"; "autoPromote"]).2 = None →
  GetSteps node client = Panic nil_deref.
Proof.
  intros Hget Hne Hidx Hauto. unfold Rollout.GetSteps. rewrite Hget.
  unfold declaredSteps in Hne.
  destruct (Canary (Strategy (Spec instance))) as [canary|]; [|done].
  rewrite bool_decide_false by done.
  rewrite bool_decide_false by (by destruct (Steps canary)).
  cbn [orb]. rewrite Hidx.
  destruct (bool_decide _);
    destruct (NestedBool (Object un) ["status"; "autoPromote"]) as [[b f] [e|]];
    simpl in Hauto; done.
Qed.

(** When a step is computed, [Extra] is the serialized reported index. *)
Lemma GetSteps_extra node client instance un s :
  getRolloutByNode node client = (Some instance, Some un, None) →
  declaredSteps instance ≠ [] →
  GetSteps node client = Ret (Some s, None) →
  ∃ idx, CurrentStepIndex (Status instance) = Some idx
         ∧ marshalCurrentIndex idx = inr (default "" (Extra s)).
Proof.
  intros Hget Hne Hs.
  destruct (GetSteps_computed _ _ _ _ _ Hget Hne Hs) as (idx & k & Hidx & _ & ->).
  by exists idx.
Qed.

(** ** Action *)

Lemma withSpecStatus_same_status spec status un :
  Object un !! "status" = Some (JMap status) →
  withSpecStatus spec status un = {| Object := <["spec" := JMap spec]> (Object un) |}.
Proof.
  intros Hst. unfold withSpecStatus. f_equal.
  apply insert_id. by rewrite lookup_insert_ne.
Qed.

(** C9. On an object that converts and holds a spec and a status map,
    "pause" sets spec.paused to true and "resume" deletes
    status.pauseConditions and sets spec.paused to false, every other
    field staying as it was; a name outside the vocabulary fails with
    InvalidArgument on any object and leaves the object as it was. *)
Theorem Action_pause_resume_unknown un :
  (∀ instance spec status,
     FromUnstructured (Object un) = inr instance →
     Object un !! "spec" = Some (JMap spec) →
     Object un !! "status" = Some (JMap status) →
     let paused :=
       {| Object := <["spec" := JMap (<["paused" := JBool true]> spec)]> (Object un) |} in
     let resumed :=
       {| Object := <["status" := JMap (delete "pauseConditions" status)]>
                      (<["spec" := JMap (<["paused" := JBool false]> spec)]> (Object un)) |} in
     Action "pause" un
     = Ret {| obj_after := paused; returned := Some paused; action_err := None |}
     ∧ (∀ k, k ≠ "spec" → Object paused !! k = Object un !! k)
     ∧ (∀ k, k ≠ "paused" → <["paused" := JBool true]> spec !! k = spec !! k)
     ∧ Action "resume" un
       = Ret {| obj_after := resumed; returned := Some resumed; action_err := None |}
     ∧ (∀ k, k ≠ "spec" → k ≠ "status" → Object resumed !! k = Object un !! k)
     ∧ (∀ k, k ≠ "paused" → <["paused" := JBool false]> spec !! k = spec !! k)
     ∧ (∀ k, k ≠ "pauseConditions" →
             delete "pauseConditions" status !! k = status !! k))
  ∧ (∀ name, name ∉ vocabulary →
       ∃ r e, Action name un = Ret r
              ∧ obj_after r = un
              ∧ action_err r = Some e
              ∧ is_InvalidArgument e = true).
Proof.
  split.
  - intros instance spec status Hconv Hspec Hstatus paused resumed.
    unfold Rollout.Action. rewrite Hconv, Hspec, Hstatus.
    repeat split.
    + rewrite bool_decide_false by done. rewrite bool_decide_true by done.
      unfold actionDone. by rewrite (withSpecStatus_same_status _ _ _ Hstatus).
    + intros k Hk. simpl. by rewrite lookup_insert_ne.
    + intros k Hk. by rewrite lookup_insert_ne.
    + intros k Hk1 Hk2. simpl. by rewrite !lookup_insert_ne.
    + intros k Hk. by rewrite lookup_insert_ne.
    + intros k Hk. by rewrite lookup_delete_ne.
  - intros name Hname. unfold vocabulary in Hname.
    repeat (apply not_elem_of_cons in Hname as [? Hname]).
    unfold Rollout.Action.
    destruct (FromUnstructured (Object un)) as [e0|instance].
    { eexists _, _. repeat split. }
    destruct (Object un !! "spec") as [[| | | | |spec]|];
      try (eexists _, _; by repeat split).
    destruct (Object un !! "status") as [[| | | | |status]|];
      try (eexists _, _; by repeat split).
    rewrite !bool_decide_false by done.
    eexists _, _. by repeat split.
Qed.

End Props.

(** ** The properties at concrete objects *)

Import Demo.

Lemma GetSteps_replicas_witness :
  ∃ s, Rollout.GetSteps hashSteps (convertsTo rollout3) node (clientOf emptyObject [])
       = Ret (Some s, None)
       ∧ Replicas_ s = [1; 1; 2] ∧ Total s = 3 ∧ Zsum (Replicas_ s) = 4.
Proof.
  eexists. split; [vm_compute; reflexivity|].
  assert (Hget : Rollout.getRolloutByNode (convertsTo rollout3) node (clientOf emptyObject [])
                 = (Some rollout3, Some emptyObject, None)) by reflexivity.
  assert (Hne : declaredSteps rollout3 ≠ []) by discriminate.
  assert (Hwf : wellTyped rollout3 = true) by reflexivity.
  destruct (GetSteps_replicas hashSteps (convertsTo rollout3) node
              (clientOf emptyObject []) rollout3 emptyObject _ Hget Hne Hwf
              ltac:(vm_compute; reflexivity))
    as (_ & _ & _ & _ & Hsum & Hex).
  destruct (Hex eq_refl eq_refl) as [Hr Ht].
  split; [exact Hr|]. split; [exact Ht|]. apply Hsum. reflexivity.
Defined.

(** Two declared steps, one of them a pause: one target, not two. *)
Lemma GetSteps_pause_step_counterexample :
  ∃ s, Rollout.GetSteps hashSteps (convertsTo rolloutPauseStep) node
         (clientOf emptyObject []) = Ret (Some s, None)
       ∧ length (declaredSteps rolloutPauseStep) = 2%nat
       ∧ Replicas_ s = [2] ∧ Total s = 1
       ∧ length (Replicas_ s) ≠ length (declaredSteps rolloutPauseStep).
Proof.
  eexists. split; [vm_compute; reflexivity|].
  split; [reflexivity|]. split; [reflexivity|]. split; [reflexivity|]. discriminate.
Qed.

Lemma GetSteps_invariant_witness :
  ∃ s, Rollout.GetSteps hashSteps (convertsTo rolloutMixed) node (clientOf emptyObject [])
       = Ret (Some s, None)
       ∧ Z.of_nat (length (Replicas_ s)) = Total s ∧ 0 ≤ Index s ≤ Total s.
Proof.
  eexists. split; [vm_compute; reflexivity|].
  apply (GetSteps_invariant hashSteps (convertsTo rolloutMixed) node
           (clientOf emptyObject [])).
  vm_compute. reflexivity.
Defined.

Lemma GetSteps_index_witness :
  (∃ s, Rollout.GetSteps hashSteps (convertsTo rolloutMixed) node (clientOf emptyObject [])
        = Ret (Some s, None) ∧ Index s = 1)
  ∧ (∃ s, Rollout.GetSteps hashSteps (convertsTo rolloutStale) node (clientOf emptyObject [])
          = Ret (Some s, None) ∧ Index s = 0).
Proof.
  split.
  - destruct (GetSteps_index hashSteps (convertsTo rolloutMixed) node
                (clientOf emptyObject []) rolloutMixed emptyObject eq_refl)
      as (_ & Hmatch & Hret).
    destruct (Hret 2 ltac:(discriminate) eq_refl ltac:(unfold is_int32; lia)
                ltac:(simpl; lia) eq_refl) as [s Hs].
    exists s. split; [exact Hs|].
    rewrite (Hmatch s 2 Hs eq_refl eq_refl ltac:(unfold is_int32; lia) ltac:(simpl; lia)).
    reflexivity.
  - destruct (GetSteps_index hashSteps (convertsTo rolloutStale) node
                (clientOf emptyObject []) rolloutStale emptyObject eq_refl)
      as (Hstale & _ & Hret).
    destruct (Hret 3 ltac:(discriminate) eq_refl ltac:(unfold is_int32; lia)
                ltac:(simpl; lia) eq_refl) as [s Hs].
    exists s. split; [exact Hs|]. apply (Hstale s Hs). discriminate.
Defined.

(** C5.  The code at a rollout that declares no replica count and has its
    one pod Running with the template's hash and annotations: [IsHealthy]
    compares the one matching pod with a desired count of 0 and answers
    false. *)
Theorem IsHealthy_unset_replicas :
  Replicas (Spec rolloutUnsetReplicas) = None
  ∧ countPods hashPod rolloutUnsetReplicas [runningPod] = 1
  ∧ Rollout.IsHealthy hashPod (convertsTo rolloutUnsetReplicas) node
      (clientOf emptyObject [runningPod]) = Ret (false, None).
Proof. split; [reflexivity|]. split; vm_compute; reflexivity. Qed.

(** A pod that lacks a template annotation whose value is the empty string
    is counted all the same: the lookup of a missing key reads as empty. *)
Lemma IsHealthy_empty_annotation :
  Annotations (Template_ObjectMeta (Template (Spec rolloutEmptyAnnotation)))
    !! "checksum/config" = Some ""
  ∧ Annotations (Pod_ObjectMeta runningPod) !! "checksum/config" = None
  ∧ podCounts hashPod rolloutEmptyAnnotation runningPod = true
  ∧ Rollout.IsHealthy hashPod (convertsTo rolloutEmptyAnnotation) node
      (clientOf emptyObject [runningPod]) = Ret (true, None).
Proof. repeat split; vm_compute; reflexivity. Qed.

(** A not-found answer of the cluster comes back as an error. *)
Lemma IsHealthy_not_found_counterexample :
  Dynamic_Get clientMissing "argoproj.io" (Node_Version node) "rollouts"
    (Node_Namespace node) (Node_Name node) = inl (K8sNotFound "web")
  ∧ Rollout.IsHealthy hashPod (convertsTo rollout3) node clientMissing
    = Ret (true, Some (ErrGetFailed ResourceInK8S "failed to get rollout in k8s"
                         (K8sNotFound "web")))
  ∧ Rollout.IsHealthy hashPod (convertsTo rollout3) node clientMissing
    ≠ Ret (true, None).
Proof. split; [reflexivity|]. split; [reflexivity|]. discriminate. Qed.

Lemma IsHealthy_errors_witness :
  Rollout.IsHealthy hashPod (convertsTo rollout3) node clientMissing
  = Ret (true, Some (ErrGetFailed ResourceInK8S "failed to get rollout in k8s"
                       (K8sNotFound "web")))
  ∧ Rollout.IsHealthy hashPod (fun _ => inr None) node (clientOf emptyObject [])
    = Ret (true, None).
Proof.
  split.
  - apply (proj1 (IsHealthy_errors hashPod (convertsTo rollout3) node clientMissing)).
    reflexivity.
  - apply (proj1 (proj2 (proj2 (IsHealthy_errors hashPod (fun _ => inr None) node
                                  (clientOf emptyObject [])))) emptyObject);
      reflexivity.
Defined.

(** C7.  The code at a rollout with declared steps whose status reports
    no step index yet: [GetSteps] dereferences the nil index and
    panics. *)
Theorem GetSteps_unset_index_panics :
  declaredSteps rolloutNoIndex = [weightStep 50; weightStep 100]
  ∧ CurrentStepIndex (Status rolloutNoIndex) = None
  ∧ Rollout.GetSteps hashSteps (convertsTo rolloutNoIndex) node (clientOf emptyObject [])
    = Panic nil_deref.
Proof. split; [reflexivity|]. split; [reflexivity|]. vm_compute. reflexivity. Qed.

(** A paused rollout without canary steps: the step does not say so. *)
Lemma GetSteps_synthetic_paused_counterexample :
  ∃ s, Rollout.GetSteps hashSteps (convertsTo rolloutPausedPlain) node
         (clientOf emptyObject []) = Ret (Some s, None)
       ∧ Paused (Spec rolloutPausedPlain) = true
       ∧ ManualPaused s = false
       ∧ ManualPaused s ≠ Paused (Spec rolloutPausedPlain).
Proof.
  eexists. split; [vm_compute; reflexivity|].
  split; [reflexivity|]. split; [reflexivity|]. discriminate.
Qed.

Lemma GetSteps_paused_witness :
  (∃ s, Rollout.GetSteps hashSteps (convertsTo rolloutMixed) node (clientOf emptyObject [])
        = Ret (Some s, None) ∧ ManualPaused s = true)
  ∧ (∃ s, Rollout.GetSteps hashSteps (convertsTo rolloutPausedPlain) node
            (clientOf emptyObject []) = Ret (Some s, None)
          ∧ s = syntheticStep 2).
Proof.
  split.
  - eexists. split; [vm_compute; reflexivity|].
    apply (proj1 (GetSteps_paused hashSteps (convertsTo rolloutMixed) node
                    (clientOf emptyObject []) rolloutMixed emptyObject _ eq_refl
                    ltac:(vm_compute; reflexivity))).
    discriminate.
  - eexists. split; [vm_compute; reflexivity|].
    apply (proj2 (GetSteps_paused hashSteps (convertsTo rolloutPausedPlain) node
                    (clientOf emptyObject []) rolloutPausedPlain emptyObject _ eq_refl
                    ltac:(vm_compute; reflexivity))).
    reflexivity.
Defined.

Lemma Action_pause_resume_unknown_witness :
  (∃ r, Rollout.Action (convertsTo rollout3) "pause" liveObject = Ret r
        ∧ action_err r = None
        ∧ Object (obj_after r) !! "status" = Object liveObject !! "status")
  ∧ (∃ r e, Rollout.Action (convertsTo rollout3) "restart" liveObject = Ret r
            ∧ obj_after r = liveObject
            ∧ action_err r = Some e
            ∧ is_InvalidArgument e = true).
Proof.
  destruct (Action_pause_resume_unknown (convertsTo rollout3) liveObject) as [Hknown Hunknown].
  split.
  - destruct (Hknown (Some rollout3) liveSpec liveStatus
                eq_refl ltac:(vm_compute; reflexivity) ltac:(vm_compute; reflexivity))
      as (Hpause & Hframe & _).
    eexists. split; [exact Hpause|]. split; [reflexivity|].
    apply Hframe. discriminate.
  - apply Hunknown. unfold vocabulary.
    intros Hin. repeat (apply elem_of_cons in Hin as [Hin|Hin]; [discriminate|]).
    by apply not_elem_of_nil in Hin.
Defined.

End RolloutFacts.

(* ===================================================================== *)
(** * The deploy orchestrator: properties *)
(* ===================================================================== *)

Module DeployFacts.
Import Go Errors Deploy.

Section Props.
Context {PipelineOutput RegionEntity : Type}.
Implicit Types (c : @controller PipelineOutput RegionEntity).

Ltac step :=
  match goal with
  | |- context [match ?x with _ => _ end] =>
      lazymatch x with
      | context [match _ with _ => _ end] => fail
      | _ => destruct x eqn:?
      end
  end.

(** C10. When the PipelineRun is absent, or belongs to another cluster
    than the target, the deploy fails with NotFound; by then it has made
    one call, the load of the PipelineRun: no call to the Git facade or to
    the CD backend, no write of a status or of ConfigCommit. *)
Theorem deploy_pipelinerun_not_found c clusterID pipelinerunID r :
  pipelinerunMgr_GetByID c pipelinerunID = inr None
  ∨ (∃ pr, pipelinerunMgr_GetByID c pipelinerunID = inr (Some pr)
           ∧ PR_ClusterID pr ≠ clusterID) →
  ∃ e, run c clusterID pipelinerunID r
       = (Fail e, [{| ev_call := PipelinerunMgr_GetByID pipelinerunID; ev_ok := true |}])
       ∧ is_NotFound e = true
       ∧ Forall (fun ev => is_external (ev_call ev) = false
                           ∧ is_write (ev_call ev) = false)
                (run c clusterID pipelinerunID r).2.
Proof.
  intros [Hnone|(pr & Hpr & Hne)]; unfold run, InternalDeployV2, bind, callV, fail.
  - rewrite Hnone. simpl. eexists. split; [done|]. split; [done|].
    repeat constructor.
  - rewrite Hpr. simpl. rewrite bool_decide_true by done.
    eexists. split; [done|]. split; [done|]. repeat constructor.
Qed.

Ltac unfold_run :=
  unfold run, InternalDeployV2, bind, callV, callE, callP, deref, ret, fail.

Ltac explore := unfold_run; repeat step; simpl.

Lemma deploy_effects_prefix c clusterID pipelinerunID r :
  ∃ reset, effects (run c clusterID pipelinerunID r).2 `prefix_of` fullDeploy reset.
Proof.
  explore;
    first [ exists false; eexists; reflexivity | exists true; eexists; reflexivity ].
Qed.

Lemma deploy_failure_is_last c clusterID pipelinerunID r i ev :
  (run c clusterID pipelinerunID r).2 !! i = Some ev → ev_ok ev = false →
  S i = length (run c clusterID pipelinerunID r).2
  ∧ is_Ok (run c clusterID pipelinerunID r).1 = false.
Proof.
  explore; intros Hi Hev;
    repeat (destruct i as [|i]; simpl in Hi;
            [ injection Hi as <-; simpl in Hev; first [discriminate | done] | ]);
    done.
Qed.

Lemma deploy_not_ok_no_StatusOK c clusterID pipelinerunID r :
  is_Ok (run c clusterID pipelinerunID r).1 = false →
  StatusSet StatusOK ∉ effects (run c clusterID pipelinerunID r).2.
Proof.
  explore; intros Hok; try discriminate;
    intros Hin; repeat (apply elem_of_cons in Hin as [Hin|Hin]; [discriminate|]);
    by apply not_elem_of_nil in Hin.
Qed.

Lemma deploy_never_sets_Failed c clusterID pipelinerunID r :
  StatusFailed ∉ statusAttempts (run c clusterID pipelinerunID r).2.
Proof.
  explore;
    intros Hin; repeat (apply elem_of_cons in Hin as [Hin|Hin]; [discriminate|]);
    by apply not_elem_of_nil in Hin.
Qed.

Lemma deploy_success_writes c clusterID pipelinerunID r resp :
  (run c clusterID pipelinerunID r).1 = Ok resp →
  ∃ pr cluster commit masterRevision deployed,
    pipelinerunMgr_GetByID c pipelinerunID = inr (Some pr)
    ∧ clusterMgr_GetByID c clusterID = inr (Some cluster)
    ∧ resp = {| PipelinerunID := PR_ID pr; Commit := commit |}
    ∧ writes (run c clusterID pipelinerunID r).2
      = [PipelinerunMgr_UpdateConfigCommitByID (PR_ID pr) commit;
         PipelinerunMgr_UpdateStatusByID (PR_ID pr) StatusCommitted;
         PipelinerunMgr_UpdateStatusByID (PR_ID pr) StatusMerged]
        ++ (if bool_decide (Cluster_Status cluster = ClusterStatusFreed)
            then [ClusterMgr_UpdateByID (Cluster_ID cluster)
                    (withStatus cluster ClusterStatusEmpty)]
            else [])
        ++ [CD_DeployCluster {| DC_Environment := EnvironmentName deployed;
                                DC_Cluster := Cluster_Name deployed;
                                DC_Revision := masterRevision |};
            PipelinerunMgr_UpdateStatusByID (PR_ID pr) StatusOK]
    ∧ effects (run c clusterID pipelinerunID r).2
      = fullDeploy (bool_decide (Cluster_Status cluster = ClusterStatusFreed)).
Proof.
  explore; intros Hok; try discriminate; injection Hok as <-;
    eexists _, _, _, _, _;
    (split; [reflexivity|]); (split; [reflexivity|]); (split; [reflexivity|]);
    match goal with
    | H : bool_decide _ = _ |- _ => rewrite H
    end; split; reflexivity.
Qed.

Lemma statusAfter_prefix before es reset :
  es `prefix_of` fullDeploy reset →
  statusAfter before es ∈ [before; StatusCommitted; StatusMerged; StatusOK].
Proof.
  intros [k Hk]. unfold fullDeploy in Hk.
  destruct reset; simpl in Hk;
    repeat (destruct es as [|? es]; [simpl; set_solver|];
            injection Hk as <- Hk; simpl);
    destruct es; try discriminate; simpl; set_solver.
Qed.

(** C1. A deploy that succeeds stores ConfigCommit, then the statuses
    Committed and Merged, then resets a Freed cluster to Empty, then
    triggers the deploy, then stores the status OK; every status is
    written right after the effect of its stage.  A call that fails ends
    the run then and there, so the effects of any run are a beginning of
    that sequence and the status stays the last one written; Failed is
    never written. *)
Theorem deploy_order c clusterID pipelinerunID r :
  (∀ resp, (run c clusterID pipelinerunID r).1 = Ok resp →
     ∃ pr cluster commit masterRevision deployed,
       pipelinerunMgr_GetByID c pipelinerunID = inr (Some pr)
       ∧ clusterMgr_GetByID c clusterID = inr (Some cluster)
       ∧ resp = {| PipelinerunID := PR_ID pr; Commit := commit |}
       ∧ writes (run c clusterID pipelinerunID r).2
         = [PipelinerunMgr_UpdateConfigCommitByID (PR_ID pr) commit;
            PipelinerunMgr_UpdateStatusByID (PR_ID pr) StatusCommitted;
            PipelinerunMgr_UpdateStatusByID (PR_ID pr) StatusMerged]
           ++ (if bool_decide (Cluster_Status cluster = ClusterStatusFreed)
               then [ClusterMgr_UpdateByID (Cluster_ID cluster)
                       (withStatus cluster ClusterStatusEmpty)]
               else [])
           ++ [CD_DeployCluster {| DC_Environment := EnvironmentName deployed;
                                   DC_Cluster := Cluster_Name deployed;
                                   DC_Revision := masterRevision |};
               PipelinerunMgr_UpdateStatusByID (PR_ID pr) StatusOK]
       ∧ effects (run c clusterID pipelinerunID r).2
         = fullDeploy (bool_decide (Cluster_Status cluster = ClusterStatusFreed)))
  ∧ (∃ reset, effects (run c clusterID pipelinerunID r).2 `prefix_of` fullDeploy reset)
  ∧ (∀ i ev, (run c clusterID pipelinerunID r).2 !! i = Some ev → ev_ok ev = false →
             S i = length (run c clusterID pipelinerunID r).2
             ∧ is_Ok (run c clusterID pipelinerunID r).1 = false)
  ∧ (is_Ok (run c clusterID pipelinerunID r).1 = false →
     StatusSet StatusOK ∉ effects (run c clusterID pipelinerunID r).2)
  ∧ (∀ before,
       statusAfter before (effects (run c clusterID pipelinerunID r).2)
       ∈ [before; StatusCommitted; StatusMerged; StatusOK])
  ∧ StatusFailed ∉ statusAttempts (run c clusterID pipelinerunID r).2.
Proof.
  split; [intros resp; apply deploy_success_writes|].
  split; [apply deploy_effects_prefix|].
  split; [intros i ev; apply deploy_failure_is_last|].
  split; [apply deploy_not_ok_no_StatusOK|].
  split; [|apply deploy_never_sets_Failed].
  intros before. destruct (deploy_effects_prefix c clusterID pipelinerunID r) as [reset H].
  by eapply statusAfter_prefix.
Qed.

End Props.

(** ** The properties at a concrete controller *)

Import Demo.

Lemma deploy_order_witness :
  (run (controllerOf ClusterStatusFreed) 7 42 "image: web:v2").1
  = Ok {| PipelinerunID := 42; Commit := "c0ffee" |}
  ∧ effects (run (controllerOf ClusterStatusFreed) 7 42 "image: web:v2").2
    = fullDeploy true
  ∧ (∃ reset, effects (run controllerMergeFails 7 42 "image: web:v2").2
              `prefix_of` fullDeploy reset)
  ∧ StatusSet StatusOK ∉ effects (run controllerMergeFails 7 42 "image: web:v2").2.
Proof.
  split; [reflexivity|].
  destruct (deploy_order (controllerOf ClusterStatusFreed) 7 42 "image: web:v2")
    as (Hsuccess & _).
  destruct (Hsuccess _ eq_refl)
    as (pr & cluster & commit & rev & deployed & _ & Hcluster & _ & _ & Heffects).
  injection Hcluster as <-.
  split; [exact Heffects|].
  destruct (deploy_order controllerMergeFails 7 42 "image: web:v2")
    as (_ & Hprefix & _ & Hnot & _).
  split; [exact Hprefix|]. apply Hnot. reflexivity.
Defined.

(** What the merge failure leaves behind. *)
Example deploy_merge_fails :
  run controllerMergeFails 7 42 "image: web:v2"
  = (Fail (ErrWithMessage (ErrOther "merge conflict") op),
     [ {| ev_call := PipelinerunMgr_GetByID 42; ev_ok := true |};
       {| ev_call := ClusterMgr_GetByID 7; ev_ok := true |};
       {| ev_call := ApplicationMgr_GetByID 3; ev_ok := true |};
       {| ev_call := TemplateReleaseMgr_Get "javaapp" "v1.0.0"; ev_ok := true |};
       {| ev_call := ClusterGitRepo_UpdatePipelineOutput "web" "web-dev" "javaapp";
          ev_ok := true |};
       {| ev_call := PipelinerunMgr_UpdateConfigCommitByID 42 "c0ffee"; ev_ok := true |};
       {| ev_call := PipelinerunMgr_UpdateStatusByID 42 StatusCommitted; ev_ok := true |};
       {| ev_call := ClusterGitRepo_MergeBranch "web" "web-dev" 42; ev_ok := false |} ])
  ∧ statusAfter StatusCreated (effects (run controllerMergeFails 7 42 "image: web:v2").2)
    = StatusCommitted.
Proof. split; reflexivity. Qed.

Lemma deploy_pipelinerun_not_found_witness :
  ∃ e, run (controllerOf ClusterStatusEmpty) 8 42 "image: web:v2"
       = (Fail e, [{| ev_call := PipelinerunMgr_GetByID 42; ev_ok := true |}])
       ∧ is_NotFound e = true.
Proof.
  destruct (deploy_pipelinerun_not_found (controllerOf ClusterStatusEmpty) 8 42
              "image: web:v2") as (e & Hrun & Hnf & _).
  { right. eexists. split; [reflexivity|]. discriminate. }
  exists e. split; [exact Hrun | exact Hnf].
Defined.

End DeployFacts.

(* ===================================================================== *)
(** * float64: the ends of the weight scale *)
(* ===================================================================== *)

Module WeightFacts.
Import Float64 Float64Facts.

Lemma one_hundredth_of_100 :
  div (of_int 100) (of_int 100) = S754_finite false 4503599627370496 (-52).
Proof. vm_compute. reflexivity. Qed.

(** Multiplying 1.0 by a normal float changes nothing. *)
Lemma mul_one_canonical s m e :
  digits m = 53 → -1074 ≤ e ≤ 971 →
  mul (S754_finite false 4503599627370496 (-52)) (S754_finite s m e)
  = S754_finite s m e.
Proof.
  intros Hd He. unfold mul, SFmul. cbn [xorb].
  unfold binary_round_aux, shr_fexp.
  assert (Hdm : Zdigits2 (Z.pos (4503599627370496 * m)) = 105).
  { cbv [Pos.mul]. unfold Zdigits2. cbn [digits2_pos].
    unfold digits in Hd. rewrite !Pos2Z.inj_succ. lia. }
  rewrite Hdm.
  replace (fexp prec emax (105 + (-52 + e)) - (-52 + e)) with 52
    by (unfold fexp, SpecFloat.emin, prec, emax; lia).
  cbv [Pos.mul]. cbn [shr shr_record_of_loc SpecFloat.iter_pos shr_1 orb fst snd].
  cbn [loc_of_shr_record shr_m round_nearest_even].
  change (Zdigits2 (Z.pos m)) with (digits m). rewrite Hd.
  replace (-52 + e + 52) with e by lia.
  replace (fexp prec emax (53 + e) - e) with 0
    by (unfold fexp, SpecFloat.emin, prec, emax; lia).
  cbn [shr shr_record_of_loc shr_m].
  replace (e <=? emax - prec) with true; [done|].
  symmetry. apply Z.leb_le. unfold emax, prec. lia.
Qed.

Lemma Ceil_to_int_of_int z : Go.is_int32 z → to_int (Ceil (of_int z)) = z.
Proof.
  unfold Go.is_int32. intros Hz.
  destruct z as [|p|p]; [done| |].
  - assert (Hd : digits p ≤ 32) by (apply digits_le_of_lt; lia).
    destruct (of_int_pos p) as (m & -> & Hm); [lia|].
    pose proof (digits_pos p).
    unfold Ceil. rewrite (proj2 (Z.leb_gt 0 (digits p - 53))) by lia.
    replace (- (digits p - 53)) with (53 - digits p) by lia.
    rewrite Hm, Z.div_mul, Z.mod_mul by (apply Z.pow_nonzero; lia).
    cbv zeta. rewrite Z.eqb_refl. apply to_int_of_int. lia.
  - assert (Hd : digits p ≤ 32) by (apply digits_le_of_lt; lia).
    destruct (of_int_neg p) as (m & -> & Hm); [lia|].
    pose proof (digits_pos p).
    unfold Ceil. rewrite (proj2 (Z.leb_gt 0 (digits p - 53))) by lia.
    replace (- (digits p - 53)) with (53 - digits p) by lia.
    rewrite Hm, Z.div_mul by (apply Z.pow_nonzero; lia).
    cbv zeta. change (Z.pos p =? 0) with false. cbv iota.
    change (- Z.pos p) with (Z.neg p). apply to_int_of_int. lia.
Qed.

(** A weight of 100 targets every replica. *)
Lemma weightReplicas_100 n : Go.is_int32 n → Rollout.weightReplicas 100 n = n.
Proof.
  intros Hn. unfold Rollout.weightReplicas. rewrite one_hundredth_of_100.
  rewrite <- (Ceil_to_int_of_int n Hn) at 2. do 2 f_equal.
  unfold Go.is_int32 in Hn. unfold of_int at 1 2, binary_normalize.
  destruct n as [|p|p]; [done| |].
  - assert (Hd : digits p ≤ 32) by (apply digits_le_of_lt; lia).
    destruct (binary_round_small false p) as (m & -> & _ & Hm); [lia|].
    pose proof (digits_pos p). apply mul_one_canonical; [done|lia].
  - assert (Hd : digits p ≤ 32) by (apply digits_le_of_lt; lia).
    destruct (binary_round_small true p) as (m & -> & _ & Hm); [lia|].
    pose proof (digits_pos p). apply mul_one_canonical; [done|lia].
Qed.

(** A weight of 0 targets none. *)
Lemma weightReplicas_0 n : Go.is_int32 n → Rollout.weightReplicas 0 n = 0.
Proof.
  intros Hn. unfold Rollout.weightReplicas.
  change (div (of_int 0) (of_int 100)) with (S754_zero false).
  pose proof (of_int_small n Hn) as Hs.
  destruct (of_int n) as [s|s| |s m e]; simpl in Hs; try done.
Qed.

(** The two ends of the weight scale, through the float64 arithmetic of
    the source: a weight of 0 targets no replica, a weight of 100 all of
    them, negative counts included. *)
Theorem weightReplicas_extremes n :
  Go.is_int32 n →
  Rollout.weightReplicas 0 n = 0 ∧ Rollout.weightReplicas 100 n = n.
Proof. intros Hn. split; [by apply weightReplicas_0 | by apply weightReplicas_100]. Qed.

Lemma weightReplicas_extremes_witness :
  Rollout.weightReplicas 0 7 = 0 ∧ Rollout.weightReplicas 100 7 = 7.
Proof. apply (weightReplicas_extremes 7). unfold Go.is_int32. lia. Defined.

End WeightFacts.

(* ===================================================================== *)
(** * GetSteps and IsHealthy: further properties *)
(* ===================================================================== *)

Module StepsFacts.
Import Go Errors Unstructured Rollout RolloutFacts.

Lemma countEffect_take_mono (n m : nat) steps :
  (n ≤ m)%nat → countEffect (take n steps) ≤ countEffect (take m steps).
Proof.
  intros Hnm. replace n with (n `min` m)%nat by lia.
  rewrite <- take_take. apply countEffect_take_le.
Qed.

Lemma last_omap_snoc {A B} (f : A → option B) l x y :
  f x = Some y → last (omap f (l ++ [x])) = Some y.
Proof. intros Hx. rewrite omap_app. simpl. rewrite Hx. apply last_snoc. Qed.

Lemma last_is_snoc {A} (l : list A) x : last l = Some x → ∃ l', l = l' ++ [x].
Proof.
  intros Hl. destruct l as [|a l _] using rev_ind; [done|].
  rewrite last_snoc in Hl. inversion Hl. by eexists.
Qed.

Section Props.
Context {PodSpec : Type}.
Variable computePodSpecHash : PodSpec -> string.
Variable computeStepHash : @RolloutObj PodSpec -> string.
Variable FromUnstructured : gmap string jvalue -> error + option (@RolloutObj PodSpec).

Local Abbreviation getRolloutByNode := (Rollout.getRolloutByNode FromUnstructured).
Local Abbreviation GetSteps := (Rollout.GetSteps computeStepHash FromUnstructured).
Local Abbreviation IsHealthy := (Rollout.IsHealthy computePodSpecHash FromUnstructured).
Local Abbreviation Action := (Rollout.Action FromUnstructured).

(** What [GetSteps] hands back is either a step without an error or an
    error without a step; the error is the one of the fetch (a failed Get
    wrapped as GetFailed, a failed conversion as it is) or the one of
    reading status.autoPromote. *)
Theorem GetSteps_step_or_error node client s e :
  GetSteps node client = Ret (s, e) →
  (is_Some s ∧ e = None)
  ∨ (s = None
     ∧ ∃ err, e = Some err
       ∧ ((∃ k, Dynamic_Get client "argoproj.io" (Node_Version node) "rollouts"
                  (Node_Namespace node) (Node_Name node) = inl k
                ∧ err = ErrGetFailed ResourceInK8S "failed to get rollout in k8s" k)
          ∨ (∃ un, Dynamic_Get client "argoproj.io" (Node_Version node) "rollouts"
                     (Node_Namespace node) (Node_Name node) = inr un
                   ∧ (FromUnstructured (Object un) = inl err
                      ∨ (NestedBool (Object un) ["status"; "autoPromote"]).2 = Some err)))).
Proof.
  unfold Rollout.GetSteps, Rollout.getRolloutByNode.
  destruct (Dynamic_Get client _ _ _ _ _) as [k|un] eqn:Eg.
  { intros [= <- <-]. right. split; [done|]. eexists. split; [done|]. left. by exists k. }
  destruct (FromUnstructured (Object un)) as [err|[instance|]] eqn:Ec.
  { intros [= <- <-]. right. split; [done|]. eexists. split; [done|].
    right. exists un. split; [done|]. by left. }
  2: done.
  destruct (_ || _).
  { intros [= <- <-]. left. split; [by eexists|done]. }
  destruct (if bool_decide _ then _ else _) as [stepIndex|]; [|done].
  destruct (NestedBool (Object un) ["status"; "autoPromote"]) as [[b f] [err|]] eqn:En.
  { intros [= <- <-]. right. split; [done|]. eexists. split; [done|].
    right. exists un. split; [done|]. right. by rewrite En. }
  destruct (CurrentStepIndex (Status instance)); [|done].
  intros [= <- <-]. left. split; [by eexists|done].
Qed.

(** When the last declared step sets the weight to 100, the increments
    add up to the desired replica count. *)
Theorem GetSteps_full_weight node client instance un s step :
  getRolloutByNode node client = (Some instance, Some un, None) →
  wellTyped instance = true →
  last (declaredSteps instance) = Some step →
  SetWeight step = Some 100 →
  GetSteps node client = Ret (Some s, None) →
  Zsum (Replicas_ s) = replicasTotalOf instance.
Proof.
  intros Hget Hwf Hlast Hw Hs.
  assert (Hne : declaredSteps instance ≠ []) by (by intros E; rewrite E in Hlast).
  destruct (GetSteps_computed computeStepHash FromUnstructured _ _ _ _ _ Hget Hne Hs) as (idx & stepIndex & _ & _ & ->).
  cbn [Replicas_].
  pose proof (replicasTotalOf_int32 _ Hwf) as Ht.
  rewrite incrementReplicas_exact.
  2: { apply cumulative_bound; [done|].
       unfold wellTyped in Hwf. by apply andb_true_iff in Hwf as [_ ?]. }
  rewrite Zsum_deltas.
  destruct (last_is_snoc _ _ Hlast) as [l' ->].
  rewrite (last_omap_snoc _ _ _ (replicasTotalOf instance)).
  - simpl. lia.
  - unfold stepTarget. rewrite Hw. f_equal. by apply WeightFacts.weightReplicas_100.
Qed.

(** The replica plan depends on the declared steps and the declared
    replica count alone: two rollouts that agree on them get the same
    [Replicas] and [Total], whatever their status, pause flag, template
    or cluster. *)
Theorem GetSteps_plan_ignores_status node1 client1 node2 client2 i1 un1 i2 un2 s1 s2 :
  getRolloutByNode node1 client1 = (Some i1, Some un1, None) →
  getRolloutByNode node2 client2 = (Some i2, Some un2, None) →
  declaredSteps i1 = declaredSteps i2 →
  Replicas (Spec i1) = Replicas (Spec i2) →
  GetSteps node1 client1 = Ret (Some s1, None) →
  GetSteps node2 client2 = Ret (Some s2, None) →
  Replicas_ s1 = Replicas_ s2 ∧ Total s1 = Total s2.
Proof.
  intros Hg1 Hg2 Hsteps Hrep Hs1 Hs2.
  assert (Ht : replicasTotalOf i1 = replicasTotalOf i2).
  { unfold replicasTotalOf. by rewrite Hrep. }
  destruct (decide (declaredSteps i1 = [])) as [Hnil|Hne].
  - rewrite (GetSteps_synthetic computeStepHash FromUnstructured _ _ _ _ Hg1 Hnil) in Hs1.
    rewrite Hsteps in Hnil.
    rewrite (GetSteps_synthetic computeStepHash FromUnstructured _ _ _ _ Hg2 Hnil) in Hs2.
    inversion Hs1. inversion Hs2. simpl. by rewrite Ht.
  - destruct (GetSteps_computed computeStepHash FromUnstructured _ _ _ _ _ Hg1 Hne Hs1) as (? & ? & _ & _ & ->).
    rewrite Hsteps in Hne.
    destruct (GetSteps_computed computeStepHash FromUnstructured _ _ _ _ _ Hg2 Hne Hs2) as (? & ? & _ & _ & ->).
    simpl. by rewrite Hsteps, Ht.
Qed.

(** With matching step hashes, [Index] grows with the reported index: it
    is 0 for an index of 0 or below, [Total] for an index at or past the
    number of declared steps, and of two rollouts with the same steps the
    one reporting the larger index never has the smaller [Index]. *)
Theorem GetSteps_index_monotone node1 client1 node2 client2 i1 un1 i2 un2 s1 s2 idx1 idx2 :
  getRolloutByNode node1 client1 = (Some i1, Some un1, None) →
  getRolloutByNode node2 client2 = (Some i2, Some un2, None) →
  declaredSteps i1 = declaredSteps i2 →
  declaredSteps i1 ≠ [] →
  Z.of_nat (length (declaredSteps i1)) < 2 ^ 53 →
  CurrentStepHash (Status i1) = computeStepHash i1 →
  CurrentStepHash (Status i2) = computeStepHash i2 →
  CurrentStepIndex (Status i1) = Some idx1 → is_int32 idx1 →
  CurrentStepIndex (Status i2) = Some idx2 → is_int32 idx2 →
  GetSteps node1 client1 = Ret (Some s1, None) →
  GetSteps node2 client2 = Ret (Some s2, None) →
  (idx1 ≤ 0 → Index s1 = 0)
  ∧ (Z.of_nat (length (declaredSteps i1)) ≤ idx1 → Index s1 = Total s1)
  ∧ (idx1 ≤ idx2 → Index s1 ≤ Index s2).
Proof.
  intros Hg1 Hg2 Hsteps Hne Hlen Hh1 Hh2 Hi1 Hint1 Hi2 Hint2 Hs1 Hs2.
  destruct (GetSteps_computed computeStepHash FromUnstructured _ _ _ _ _ Hg1 Hne Hs1) as (j1 & k1 & Hj1 & Hl1 & ->).
  rewrite Hsteps in Hne.
  destruct (GetSteps_computed computeStepHash FromUnstructured _ _ _ _ _ Hg2 Hne Hs2) as (j2 & k2 & Hj2 & Hl2 & ->).
  rewrite Hi1 in Hj1. rewrite Hi2 in Hj2. inversion Hj1; subst j1. inversion Hj2; subst j2.
  rewrite bool_decide_true in Hl1, Hl2 by done.
  apply stepIndexLoop_count in Hl1, Hl2. rewrite drop_0 in Hl1, Hl2.
  rewrite <- Hsteps in Hl2.
  rewrite clampedIndex_min in Hl1, Hl2 by done.
  cbn [Index Total].
  rewrite incrementReplicas_length, length_omap_stepTarget.
  fold (countEffect (declaredSteps i1)).
  split_and!.
  - intros H0. replace (Z.to_nat _) with 0%nat in Hl1 by lia.
    rewrite take_0 in Hl1. rewrite Hl1. done.
  - intros Hfull.
    replace (Z.to_nat _) with (length (declaredSteps i1)) in Hl1 by lia.
    rewrite firstn_all in Hl1. lia.
  - intros Hle.
    pose proof (countEffect_take_mono
      (Z.to_nat (idx1 `min` Z.of_nat (length (declaredSteps i1))))
      (Z.to_nat (idx2 `min` Z.of_nat (length (declaredSteps i1))))
      (declaredSteps i1)).
    lia.
Qed.

(** A rollout [IsHealthy] calls healthy is, for [GetSteps], at the end of
    its plan: with declared steps and matching hashes, [Index = Total]. *)
Theorem IsHealthy_then_GetSteps node client instance un idx s :
  getRolloutByNode node client = (Some instance, Some un, None) →
  declaredSteps instance ≠ [] →
  CurrentStepHash (Status instance) = computeStepHash instance →
  CurrentStepIndex (Status instance) = Some idx →
  is_int32 idx →
  IsHealthy node client = Ret (true, None) →
  GetSteps node client = Ret (Some s, None) →
  Index s = Total s.
Proof.
  intros Hget Hne Hhash Hidx Hint Hh Hs.
  assert (Hfull : idx = Z.of_nat (length (declaredSteps instance))).
  { revert Hh. unfold Rollout.IsHealthy. rewrite Hget.
    destruct (Pods_List client _ _) as [k|pods]; [done|].
    case_bool_decide; [done|]. rewrite Hidx. unfold declaredSteps.
    destruct (Canary (Strategy (Spec instance))) as [canary|]; [|done].
    intros [= Hb]. by apply bool_decide_eq_true in Hb. }
  destruct (GetSteps_computed computeStepHash FromUnstructured _ _ _ _ _ Hget Hne Hs) as (j & k & Hj & Hl & ->).
  rewrite Hidx in Hj. inversion Hj; subst j.
  rewrite bool_decide_true in Hl by done.
  apply stepIndexLoop_count in Hl. rewrite drop_0 in Hl.
  assert (Hlen : Z.of_nat (length (declaredSteps instance)) < 2 ^ 53).
  { unfold is_int32 in Hint. rewrite <- Hfull.
    assert (2 ^ 31 < 2 ^ 53) by (by apply Z.pow_lt_mono_r). lia. }
  rewrite clampedIndex_min in Hl by done.
  cbn [Index Total].
  rewrite incrementReplicas_length, length_omap_stepTarget.
  fold (countEffect (declaredSteps instance)).
  replace (Z.to_nat _) with (length (declaredSteps instance)) in Hl by lia.
  rewrite firstn_all in Hl. lia.
Qed.

(** The pod count of [IsHealthy] lies between 0 and the number of listed
    pods and does not depend on the order of the list. *)
Lemma countPods_bounds (instance : @RolloutObj PodSpec) pods :
  0 ≤ countPods computePodSpecHash instance pods ≤ Z.of_nat (length pods).
Proof.
  rewrite countPods_filter. pose proof (length_filter
    (fun pod => podCounts computePodSpecHash instance pod = true) pods). lia.
Qed.

Lemma countPods_Permutation (instance : @RolloutObj PodSpec) pods1 pods2 :
  pods1 ≡ₚ pods2 →
  countPods computePodSpecHash instance pods1 = countPods computePodSpecHash instance pods2.
Proof. intros Hp. rewrite !countPods_filter. by rewrite Hp. Qed.

(** A rollout that wants more pods than the cluster lists, or a negative
    number of them, is not healthy. *)
Theorem IsHealthy_too_few_pods node client instance un pods r :
  getRolloutByNode node client = (Some instance, Some un, None) →
  Pods_List client (Namespace (Rollout_ObjectMeta instance))
    (Labels (Template_ObjectMeta (Template (Spec instance)))) = inr pods →
  Replicas (Spec instance) = Some r →
  r < 0 ∨ Z.of_nat (length pods) < r →
  IsHealthy node client = Ret (false, None).
Proof.
  intros Hget Hpods Hr Hfew. unfold Rollout.IsHealthy. rewrite Hget, Hpods, Hr.
  pose proof (countPods_bounds instance pods).
  rewrite bool_decide_true; [done|lia].
Qed.

(** The verdict does not depend on the order in which the cluster lists
    the pods. *)
Theorem IsHealthy_pod_order node get list1 list2 :
  (∀ ns selector, match list1 ns selector, list2 ns selector with
                  | inr pods1, inr pods2 => pods1 ≡ₚ pods2
                  | inl e1, inl e2 => e1 = e2
                  | _, _ => False
                  end) →
  IsHealthy node {| Dynamic_Get := get; Pods_List := list1 |}
  = IsHealthy node {| Dynamic_Get := get; Pods_List := list2 |}.
Proof.
  intros Hl. unfold Rollout.IsHealthy, Rollout.getRolloutByNode. cbn [Dynamic_Get Pods_List].
  destruct (get _ _ _ _ _) as [k|un]; [done|].
  destruct (FromUnstructured (Object un)) as [e|[instance|]]; [done| |done].
  specialize (Hl (Namespace (Rollout_ObjectMeta instance))
                 (Labels (Template_ObjectMeta (Template (Spec instance))))).
  destruct (list1 _ _) as [e1|pods1], (list2 _ _) as [e2|pods2]; try done.
  - by subst.
  - by rewrite (countPods_Permutation instance pods1 pods2 Hl).
Qed.

End Props.
(** ** The properties at concrete objects *)

Import Demo Samples.

Lemma GetSteps_step_or_error_witness :
  ∃ err, Rollout.GetSteps hashSteps (convertsTo rollout3) node clientMissing
         = Ret (None, Some err)
         ∧ ∃ k, Dynamic_Get clientMissing "argoproj.io" (Node_Version node) "rollouts"
                  (Node_Namespace node) (Node_Name node) = inl k
                ∧ err = ErrGetFailed ResourceInK8S "failed to get rollout in k8s" k.
Proof.
  eexists. split; [reflexivity|].
  destruct (GetSteps_step_or_error hashSteps (convertsTo rollout3) node clientMissing
              None _ eq_refl) as [[Hs _]|(_ & err & He & [Hget|(un & Hun & _)])].
  - destruct Hs as [s Hs]. discriminate Hs.
  - injection He as <-. exact Hget.
  - discriminate Hun.
Defined.

Lemma GetSteps_full_weight_witness :
  ∃ s, Rollout.GetSteps hashSteps (convertsTo rollout3) node (clientOf emptyObject [])
       = Ret (Some s, None)
       ∧ Zsum (Replicas_ s) = 4.
Proof.
  eexists. split; [vm_compute; reflexivity|].
  apply (GetSteps_full_weight hashSteps (convertsTo rollout3) node (clientOf emptyObject [])
           rollout3 emptyObject _ (weightStep 100)
           eq_refl eq_refl eq_refl eq_refl ltac:(vm_compute; reflexivity)).
Defined.

Lemma GetSteps_plan_ignores_status_witness :
  ∃ s1 s2,
    Rollout.GetSteps hashSteps (convertsEither rolloutMixed rolloutStale) node
      (clientOf emptyObject []) = Ret (Some s1, None)
    ∧ Rollout.GetSteps hashSteps (convertsEither rolloutMixed rolloutStale) node
        (clientOf liveObject []) = Ret (Some s2, None)
    ∧ Index s1 ≠ Index s2
    ∧ Replicas_ s1 = Replicas_ s2 ∧ Total s1 = Total s2.
Proof.
  eexists _, _. split; [vm_compute; reflexivity|]. split; [vm_compute; reflexivity|].
  split; [discriminate|].
  apply (GetSteps_plan_ignores_status hashSteps (convertsEither rolloutMixed rolloutStale)
           node (clientOf emptyObject []) node (clientOf liveObject [])
           rolloutMixed emptyObject rolloutStale liveObject);
    [reflexivity | reflexivity | reflexivity | reflexivity
    | vm_compute; reflexivity | vm_compute; reflexivity].
Defined.

Lemma GetSteps_index_monotone_witness :
  ∃ s1 s2,
    Rollout.GetSteps hashSteps (convertsEither rollout3 rolloutDone) node
      (clientOf emptyObject []) = Ret (Some s1, None)
    ∧ Rollout.GetSteps hashSteps (convertsEither rollout3 rolloutDone) node
        (clientOf liveObject []) = Ret (Some s2, None)
    ∧ Index s1 ≤ Index s2.
Proof.
  eexists _, _. split; [vm_compute; reflexivity|]. split; [vm_compute; reflexivity|].
  refine (proj2 (proj2 (GetSteps_index_monotone hashSteps (convertsEither rollout3 rolloutDone)
           node (clientOf emptyObject []) node (clientOf liveObject [])
           rollout3 emptyObject rolloutDone liveObject _ _ 1 3
           _ _ _ _ _ _ _ _ _ _ _ _ _)) _);
    try reflexivity; try discriminate;
    try (unfold is_int32; lia); try (simpl; lia);
    vm_compute; reflexivity.
Defined.

Lemma IsHealthy_then_GetSteps_witness :
  ∃ s, Rollout.GetSteps hashSteps (convertsTo rolloutDone) node (clientOf emptyObject fourPods)
       = Ret (Some s, None)
       ∧ Rollout.IsHealthy hashPod (convertsTo rolloutDone) node
           (clientOf emptyObject fourPods) = Ret (true, None)
       ∧ Index s = Total s.
Proof.
  eexists. split; [vm_compute; reflexivity|]. split; [vm_compute; reflexivity|].
  apply (IsHealthy_then_GetSteps hashPod hashSteps (convertsTo rolloutDone) node
           (clientOf emptyObject fourPods) rolloutDone emptyObject 3);
    [reflexivity | discriminate | reflexivity | reflexivity | unfold is_int32; lia
    | vm_compute; reflexivity | vm_compute; reflexivity].
Defined.

Lemma IsHealthy_too_few_pods_witness :
  Rollout.IsHealthy hashPod (convertsTo rollout3) node (clientOf emptyObject [runningPod])
  = Ret (false, None).
Proof.
  apply (IsHealthy_too_few_pods hashPod (convertsTo rollout3) node
           (clientOf emptyObject [runningPod]) rollout3 emptyObject [runningPod] 4);
    [reflexivity | reflexivity | reflexivity | right; simpl; lia].
Defined.

Lemma IsHealthy_pod_order_witness :
  Rollout.IsHealthy hashPod (convertsTo rollout3) node
    {| Dynamic_Get := fun _ _ _ _ _ => inr emptyObject;
       Pods_List := fun _ _ => inr [runningPod; otherPod] |}
  = Rollout.IsHealthy hashPod (convertsTo rollout3) node
      {| Dynamic_Get := fun _ _ _ _ _ => inr emptyObject;
         Pods_List := fun _ _ => inr [otherPod; runningPod] |}.
Proof.
  apply (IsHealthy_pod_order hashPod (convertsTo rollout3) node).
  intros ns selector. simpl. apply perm_swap.
Defined.

End StepsFacts.

(* ===================================================================== *)
(** * Action: further properties *)
(* ===================================================================== *)

Module ActionFacts.
Import Go Errors Unstructured Rollout.

Ltac not_in Hin :=
  exfalso;
  first [ discriminate Hin
        | repeat (apply elem_of_cons in Hin as [Hin|Hin]; [discriminate Hin|]);
          by apply not_elem_of_nil in Hin ].

Ltac is_in := repeat first [apply list_elem_of_here | apply list_elem_of_further].

Ltac map_eq_solve :=
  apply map_eq; intros ?;
  repeat first [rewrite lookup_insert | rewrite lookup_delete];
  repeat case_decide; subst; try done; try congruence.

Lemma withSpecStatus_twice spec1 status1 spec2 status2 un :
  withSpecStatus spec2 status2 (withSpecStatus spec1 status1 un)
  = withSpecStatus spec2 status2 un.
Proof. unfold withSpecStatus. cbn [Object]. f_equal. map_eq_solve. Qed.

Lemma withSpecStatus_spec spec status un :
  Object (withSpecStatus spec status un) !! "spec" = Some (JMap spec).
Proof. unfold withSpecStatus. cbn [Object]. by rewrite lookup_insert_ne, lookup_insert_eq. Qed.

Lemma withSpecStatus_status spec status un :
  Object (withSpecStatus spec status un) !! "status" = Some (JMap status).
Proof. unfold withSpecStatus. cbn [Object]. by rewrite lookup_insert_eq. Qed.

Section Props.
Context {PodSpec : Type}.
Variable FromUnstructured : gmap string jvalue -> error + option (@RolloutObj PodSpec).

Local Abbreviation Action := (Rollout.Action FromUnstructured).

(** The shape of every successful call: the object holds a spec and a
    status map, and the result is the object with the two maps replaced. *)
Lemma Action_success_shape name un r :
  Action name un = Ret r → action_err r = None →
  ∃ instance spec status spec' status',
    FromUnstructured (Object un) = inr instance
    ∧ Object un !! "spec" = Some (JMap spec)
    ∧ Object un !! "status" = Some (JMap status)
    ∧ r = {| obj_after := withSpecStatus spec' status' un;
             returned := Some (withSpecStatus spec' status' un);
             action_err := None |}
    ∧ ((name = "resume" ∨ name = "promote")
         ∧ spec' = <["paused" := JBool false]> spec
         ∧ status' = delete "pauseConditions" status
       ∨ name = "pause"
         ∧ spec' = <["paused" := JBool true]> spec ∧ status' = status
       ∨ (name = "promote-full"
         ∧ spec' = <["paused" := JBool false]> spec
         ∧ ∃ inst canary, instance = Some inst
             ∧ Canary (Strategy (Spec inst)) = Some canary
             ∧ status' = <["currentStepIndex" :=
                             JNum (wrap32 (Z.of_nat (length (Steps canary))))]>
                           (delete "pauseConditions" status))
       ∨ name = "auto-promote"
         ∧ spec' = <["paused" := JBool false]> spec
         ∧ status' = delete "pauseConditions" (<["autoPromote" := JBool true]> status)
       ∨ name = "cancel-auto-promote"
         ∧ spec' = spec ∧ status' = delete "autoPromote" status).
Proof.
  unfold Rollout.Action, actionDone, actionFail.
  destruct (FromUnstructured (Object un)) as [e0|instance]; [by intros [= <-]|].
  destruct (Object un !! "spec") as [[| | | | |spec]|]; try by intros [= <-].
  destruct (Object un !! "status") as [[| | | | |status]|]; try by intros [= <-].
  repeat case_bool_decide; subst.
  - intros [= <-] _. eexists _, _, _, _, _. repeat split; eauto 10.
  - intros [= <-] _. eexists _, _, _, _, _. repeat split; eauto 10.
  - destruct instance as [inst|]; [|done].
    destruct (Canary (Strategy (Spec inst))) as [canary|] eqn:Ec; [|done].
    intros [= <-] _. eexists _, _, _, _, _. repeat split.
    right. right. left. repeat split. by exists inst, canary.
  - intros [= <-] _. eexists _, _, _, _, _. repeat split; eauto 10.
  - intros [= <-] _. eexists _, _, _, _, _. repeat split; eauto 10.
  - intros [= <-] _. eexists _, _, _, _, _. repeat split; eauto 10.
  - by intros [= <-].
Qed.

(** Every error of [Action] is InvalidArgument, and a call that fails
    leaves the object as it was; the returned pointer is then nil, except
    after a failed conversion, where it is the object itself. *)
Theorem Action_failure name un r e :
  Action name un = Ret r → action_err r = Some e →
  is_InvalidArgument e = true
  ∧ obj_after r = un
  ∧ (returned r = None
     ∨ returned r = Some un ∧ ∃ e0, FromUnstructured (Object un) = inl e0).
Proof.
  unfold Rollout.Action, actionDone, actionFail.
  destruct (FromUnstructured (Object un)) as [e0|instance].
  { intros [= <-] [= <-]. repeat split. right. split; [done|]. by exists e0. }
  destruct (Object un !! "spec") as [[| | | | |spec]|];
    try (intros [= <-] [= <-]; repeat split; by left).
  destruct (Object un !! "status") as [[| | | | |status]|];
    try (intros [= <-] [= <-]; repeat split; by left).
  repeat case_bool_decide; try (by intros [= <-]).
  - destruct instance as [inst|]; [|done].
    destruct (Canary (Strategy (Spec inst))); [|done]. by intros [= <-].
  - intros [= <-] [= <-]. repeat split; by left.
Qed.

(** A missing spec or status is reported before the action name is looked
    at: also a name of the vocabulary fails then. *)
Theorem Action_needs_spec_and_status name un instance :
  FromUnstructured (Object un) = inr instance →
  (∀ spec, Object un !! "spec" ≠ Some (JMap spec))
  ∨ (∀ status, Object un !! "status" ≠ Some (JMap status)) →
  ∃ msg, Action name un
         = Ret {| obj_after := un; returned := None;
                  action_err := Some (ErrParamInvalid msg) |}.
Proof.
  intros Hconv Hmissing. unfold Rollout.Action, actionFail. rewrite Hconv.
  destruct (Object un !! "spec") as [[| | | | |spec]|] eqn:Es;
    try (by eexists).
  destruct Hmissing as [Hs|Hs]; [by destruct (Hs spec)|].
  destruct (Object un !! "status") as [[| | | | |status]|] eqn:Et;
    try (by eexists).
  by destruct (Hs status).
Qed.

(** What a successful call may change: below the top level, only
    spec.paused and three keys of the status; at the top level, nothing
    but the spec and the status. *)
Theorem Action_frame name un r :
  Action name un = Ret r → action_err r = None →
  name ∈ vocabulary
  ∧ returned r = Some (obj_after r)
  ∧ (∀ k, k ≠ "spec" → k ≠ "status" → Object (obj_after r) !! k = Object un !! k)
  ∧ ∃ spec status spec' status',
      Object un !! "spec" = Some (JMap spec)
      ∧ Object un !! "status" = Some (JMap status)
      ∧ Object (obj_after r) !! "spec" = Some (JMap spec')
      ∧ Object (obj_after r) !! "status" = Some (JMap status')
      ∧ (∀ k, k ≠ "paused" → spec' !! k = spec !! k)
      ∧ (∀ k, k ≠ "pauseConditions" → k ≠ "currentStepIndex" → k ≠ "autoPromote" →
              status' !! k = status !! k).
Proof.
  intros Hr Hok.
  destruct (Action_success_shape _ _ _ Hr Hok)
    as (instance & spec & status & spec' & status' & _ & Hs & Ht & -> & Hcase).
  cbn [obj_after returned withSpecStatus Object].
  split.
  { unfold vocabulary.
    destruct Hcase as [([->| ->] & _)|[(-> & _)|[(-> & _)|[(-> & _)|(-> & _)]]]];
      is_in. }
  split; [done|].
  split; [intros k Hk1 Hk2; by rewrite !lookup_insert_ne|].
  exists spec, status, spec', status'.
  split; [done|]. split; [done|].
  split; [by rewrite lookup_insert_ne, lookup_insert_eq|].
  split; [by rewrite lookup_insert_eq|].
  destruct Hcase as [(_ & -> & ->)|[(_ & -> & ->)|[(_ & -> & Hfull)|[(_ & -> & ->)|(_ & -> & ->)]]]].
  - split; intros k **; [by rewrite lookup_insert_ne|by rewrite lookup_delete_ne].
  - split; intros k **; [by rewrite lookup_insert_ne|done].
  - destruct Hfull as (inst & canary & _ & _ & ->).
    split; intros k **; [by rewrite lookup_insert_ne|].
    by rewrite lookup_insert_ne, lookup_delete_ne.
  - split; intros k **; [by rewrite lookup_insert_ne|].
    by rewrite lookup_delete_ne, lookup_insert_ne.
  - split; intros k **; [done|by rewrite lookup_delete_ne].
Qed.

(** After resume, promote, promote-full or auto-promote the object is not
    paused and holds no pause conditions; after pause it is paused. *)
Theorem Action_paused_flag name un r :
  Action name un = Ret r → action_err r = None →
  ∃ spec' status',
    Object (obj_after r) !! "spec" = Some (JMap spec')
    ∧ Object (obj_after r) !! "status" = Some (JMap status')
    ∧ (name ∈ ["resume"; "promote"; "promote-full"; "auto-promote"] →
       spec' !! "paused" = Some (JBool false) ∧ status' !! "pauseConditions" = None)
    ∧ (name = "pause" → spec' !! "paused" = Some (JBool true))
    ∧ (name = "auto-promote" → status' !! "autoPromote" = Some (JBool true))
    ∧ (name = "cancel-auto-promote" → status' !! "autoPromote" = None).
Proof.
  intros Hr Hok.
  destruct (Action_success_shape _ _ _ Hr Hok)
    as (instance & spec & status & spec' & status' & _ & Hs & Ht & -> & Hcase).
  cbn [obj_after withSpecStatus Object].
  exists spec', status'.
  split; [by rewrite lookup_insert_ne, lookup_insert_eq|].
  split; [by rewrite lookup_insert_eq|].
  assert (Hfull : ∀ canary : CanaryStrategy,
            status' = <["currentStepIndex" :=
                          JNum (wrap32 (Z.of_nat (length (Steps canary))))]>
                        (delete "pauseConditions" status) →
            status' !! "pauseConditions" = None).
  { intros canary ->. by rewrite lookup_insert_ne, lookup_delete_eq. }
  destruct Hcase as [([->| ->] & -> & ->)|[(-> & -> & ->)|[(-> & -> & Hf)
                    |[(-> & -> & ->)|(-> & -> & ->)]]]];
    try (destruct Hf as (inst & canary & _ & _ & Hst);
         pose proof (Hfull canary Hst) as Hpc; clear Hfull);
    split_and!;
    first [ by intros Hin; not_in Hin
          | intros _; split_and?;
            first [ exact Hpc
                  | by rewrite ?lookup_insert_eq, ?lookup_delete_eq
                  | by rewrite lookup_delete_ne, lookup_insert_eq ] ].
Qed.

(** What a command of the vocabulary other than promote-full does to an
    object that converts and holds the two maps. *)
Lemma Action_run name un instance spec status :
  FromUnstructured (Object un) = inr instance →
  Object un !! "spec" = Some (JMap spec) →
  Object un !! "status" = Some (JMap status) →
  (name = "resume" ∨ name = "promote" →
   Action name un = actionDone (<["paused" := JBool false]> spec)
                               (delete "pauseConditions" status) un)
  ∧ (name = "pause" →
     Action name un = actionDone (<["paused" := JBool true]> spec) status un)
  ∧ (name = "auto-promote" →
     Action name un
     = actionDone (<["paused" := JBool false]> spec)
         (delete "pauseConditions" (<["autoPromote" := JBool true]> status)) un)
  ∧ (name = "cancel-auto-promote" →
     Action name un = actionDone spec (delete "autoPromote" status) un).
Proof.
  intros Hconv Hs Ht. unfold Rollout.Action. rewrite Hconv, Hs, Ht.
  split_and!; [intros [->| ->]|intros ->..]; done.
Qed.

Lemma Action_run_promote_full un instance spec status :
  FromUnstructured (Object un) = inr instance →
  Object un !! "spec" = Some (JMap spec) →
  Object un !! "status" = Some (JMap status) →
  Action "promote-full" un
  = match instance with
    | None => Panic nil_deref
    | Some inst =>
        match Canary (Strategy (Spec inst)) with
        | None => Panic nil_deref
        | Some canary =>
            actionDone (<["paused" := JBool false]> spec)
              (<["currentStepIndex" := JNum (wrap32 (Z.of_nat (length (Steps canary))))]>
                 (delete "pauseConditions" status)) un
        end
    end.
Proof.
  intros Hconv Hs Ht. unfold Rollout.Action. rewrite Hconv, Hs, Ht.
  rewrite !bool_decide_false by done. by rewrite bool_decide_true by done.
Qed.


(** promote is resume; resume undoes pause; cancel-auto-promote after
    auto-promote leaves what it leaves after resume. *)
Theorem Action_compose un :
  (∀ o, ∃ instance, FromUnstructured o = inr instance) →
  Action "promote" un = Action "resume" un
  ∧ (∀ r, Action "pause" un = Ret r → action_err r = None →
          Action "resume" (obj_after r) = Action "resume" un)
  ∧ (∀ r1 r2, Action "auto-promote" un = Ret r1 → action_err r1 = None →
              Action "resume" un = Ret r2 →
              Action "cancel-auto-promote" (obj_after r1)
              = Action "cancel-auto-promote" (obj_after r2)).
Proof.
  intros Hconv. split; [|split].
  - unfold Rollout.Action.
    destruct (FromUnstructured (Object un)) as [?|instance]; [done|].
    destruct (Object un !! "spec") as [[| | | | |spec]|]; done.
  - intros r Hr Hok.
    destruct (Action_success_shape _ _ _ Hr Hok)
      as (instance & spec & status & spec' & status' & Hi & Hs & Ht & -> & Hcase).
    destruct Hcase as [([?|?] & _)|[(_ & -> & ->)|[(? & _)|[(? & _)|(? & _)]]]];
      try discriminate.
    cbn [obj_after].
    destruct (Hconv (Object (withSpecStatus (<["paused":=JBool true]> spec) status un)))
      as [i' Hi'].
    rewrite (proj1 (Action_run "resume" _ _ _ _ Hi'
               (withSpecStatus_spec _ _ un) (withSpecStatus_status _ _ un))
               (or_introl eq_refl)).
    rewrite (proj1 (Action_run "resume" _ _ _ _ Hi Hs Ht) (or_introl eq_refl)).
    unfold actionDone. by rewrite withSpecStatus_twice, insert_insert_eq.
  - intros r1 r2 Hr1 Hok1 Hr2.
    destruct (Action_success_shape _ _ _ Hr1 Hok1)
      as (instance & spec & status & spec' & status' & Hi & Hs & Ht & -> & Hcase).
    destruct Hcase as [([?|?] & _)|[(? & _)|[(? & _)|[(_ & -> & ->)|(? & _)]]]];
      try discriminate.
    rewrite (proj1 (Action_run "resume" _ _ _ _ Hi Hs Ht) (or_introl eq_refl)) in Hr2.
    unfold actionDone in Hr2.
    injection Hr2 as <-. cbn [obj_after].
    destruct (Hconv (Object (withSpecStatus (<["paused":=JBool false]> spec)
                (delete "pauseConditions" (<["autoPromote":=JBool true]> status)) un)))
      as [i1 Hi1].
    destruct (Hconv (Object (withSpecStatus (<["paused":=JBool false]> spec)
                (delete "pauseConditions" status) un))) as [i2 Hi2].
    rewrite (proj2 (proj2 (proj2 (Action_run "cancel-auto-promote" _ _ _ _ Hi1
               (withSpecStatus_spec _ _ un) (withSpecStatus_status _ _ un)))) eq_refl).
    rewrite (proj2 (proj2 (proj2 (Action_run "cancel-auto-promote" _ _ _ _ Hi2
               (withSpecStatus_spec _ _ un) (withSpecStatus_status _ _ un)))) eq_refl).
    unfold actionDone. rewrite !withSpecStatus_twice.
    replace (delete "autoPromote"
               (delete "pauseConditions" (<["autoPromote":=JBool true]> status)))
      with (delete "autoPromote" (delete "pauseConditions" status))
      by map_eq_solve.
    done.
Qed.

Lemma wrap32_small z : 0 ≤ z < 2 ^ 31 → wrap32 z = z.
Proof.
  intros Hz. unfold wrap32. change (2 ^ 32) with (2 * 2 ^ 31).
  rewrite Z.mod_small; lia.
Qed.

(** promote-full writes the number of declared steps as the current step
    index; on a rollout without canary strategy it dereferences nil. *)
Theorem Action_promote_full un inst spec status :
  FromUnstructured (Object un) = inr (Some inst) →
  Object un !! "spec" = Some (JMap spec) →
  Object un !! "status" = Some (JMap status) →
  (Canary (Strategy (Spec inst)) = None → Action "promote-full" un = Panic nil_deref)
  ∧ (∀ canary,
       Canary (Strategy (Spec inst)) = Some canary →
       Z.of_nat (length (Steps canary)) < 2 ^ 31 →
       ∃ r status',
         Action "promote-full" un = Ret r
         ∧ action_err r = None
         ∧ Object (obj_after r) !! "status" = Some (JMap status')
         ∧ status' !! "currentStepIndex"
           = Some (JNum (Z.of_nat (length (Steps canary))))).
Proof.
  intros Hconv Hs Ht. rewrite (Action_run_promote_full _ _ _ _ Hconv Hs Ht).
  split.
  - by intros ->.
  - intros canary -> Hlen. unfold actionDone. eexists _, _.
    split; [done|]. split; [done|]. cbn [obj_after].
    split; [apply withSpecStatus_status|].
    rewrite lookup_insert_eq, wrap32_small by lia. done.
Qed.

End Props.

(** Reading a flag of the status map. *)
Lemma NestedBool_status obj status key :
  obj !! "status" = Some (JMap status) →
  NestedBool obj ["status"; key]
  = match status !! key with
    | None => (false, false, None)
    | Some (JBool b) => (b, true, None)
    | Some _ => (false, false, Some (ErrAccessor "expected bool"))
    end.
Proof.
  intros Hst. unfold NestedBool, NestedFieldNoCopy. cbn [NestedFieldNoCopy_from].
  rewrite Hst. destruct (status !! key) as [[]|]; done.
Qed.

Section Compose.
Context {PodSpec : Type}.
Variable computeStepHash : @RolloutObj PodSpec -> string.
Variable FromUnstructured : gmap string jvalue -> error + option (@RolloutObj PodSpec).

Local Abbreviation getRolloutByNode := (Rollout.getRolloutByNode FromUnstructured).
Local Abbreviation GetSteps := (Rollout.GetSteps computeStepHash FromUnstructured).
Local Abbreviation Action := (Rollout.Action FromUnstructured).


End Compose.
(** ** The properties at concrete objects *)

Import Demo Samples.

Lemma Action_failure_witness :
  ∃ r e, Rollout.Action rejects "pause" liveObject = Ret r
         ∧ action_err r = Some e
         ∧ is_InvalidArgument e = true
         ∧ obj_after r = liveObject
         ∧ returned r = Some liveObject.
Proof.
  eexists {| obj_after := liveObject; returned := Some liveObject;
             action_err := Some (ErrParamInvalid "convert to rollout failed") |}, _.
  split; [reflexivity|]. split; [reflexivity|].
  destruct (Action_failure rejects "pause" liveObject _ _ eq_refl eq_refl) as (He & Hobj & _).
  split; [exact He|]. split; [exact Hobj | reflexivity].
Defined.

Lemma Action_needs_spec_and_status_witness :
  ∃ msg, Rollout.Action (convertsTo rollout3) "pause" emptyObject
         = Ret {| obj_after := emptyObject; returned := None;
                  action_err := Some (ErrParamInvalid msg) |}.
Proof.
  apply (Action_needs_spec_and_status (convertsTo rollout3) "pause" emptyObject
           (Some rollout3) eq_refl).
  left. intros spec. vm_compute. discriminate.
Defined.

Lemma Action_frame_witness :
  ∃ r, Rollout.Action (convertsTo rollout3) "promote-full" liveObject = Ret r
       ∧ returned r = Some (obj_after r)
       ∧ ∀ k, k ≠ "spec" → k ≠ "status" →
              Object (obj_after r) !! k = Object liveObject !! k.
Proof.
  eexists. split; [vm_compute; reflexivity|].
  destruct (Action_frame (convertsTo rollout3) "promote-full" liveObject _
              ltac:(vm_compute; reflexivity) eq_refl) as (_ & Hret & Htop & _).
  split; [exact Hret | exact Htop].
Defined.

Lemma Action_paused_flag_witness :
  ∃ r spec' status',
    Rollout.Action (convertsTo rollout3) "auto-promote" liveObject = Ret r
    ∧ Object (obj_after r) !! "spec" = Some (JMap spec')
    ∧ Object (obj_after r) !! "status" = Some (JMap status')
    ∧ spec' !! "paused" = Some (JBool false)
    ∧ status' !! "pauseConditions" = None
    ∧ status' !! "autoPromote" = Some (JBool true).
Proof.
  destruct (Action_paused_flag (convertsTo rollout3) "auto-promote" liveObject
              {| obj_after := autoPromoted; returned := Some autoPromoted;
                 action_err := None |}
              ltac:(vm_compute; reflexivity) eq_refl)
    as (spec' & status' & Hspec & Hstatus & Hresume & _ & Hauto & _).
  eexists _, spec', status'. split; [vm_compute; reflexivity|].
  split; [exact Hspec|]. split; [exact Hstatus|].
  destruct (Hresume ltac:(is_in)) as [Hp Hc].
  split; [exact Hp|]. split; [exact Hc|]. exact (Hauto eq_refl).
Defined.


Lemma Action_compose_witness :
  Rollout.Action (convertsTo rollout3) "promote" liveObject
  = Rollout.Action (convertsTo rollout3) "resume" liveObject.
Proof.
  apply (Action_compose (convertsTo rollout3) liveObject).
  intros o. exists (Some rollout3). reflexivity.
Defined.

Lemma Action_promote_full_witness :
  ∃ r status',
    Rollout.Action (convertsTo rollout3) "promote-full" liveObject = Ret r
    ∧ action_err r = None
    ∧ Object (obj_after r) !! "status" = Some (JMap status')
    ∧ status' !! "currentStepIndex" = Some (JNum 3).
Proof.
  destruct (Action_promote_full (convertsTo rollout3) liveObject rollout3 liveSpec liveStatus
              eq_refl ltac:(vm_compute; reflexivity) ltac:(vm_compute; reflexivity))
    as [_ Hfull].
  apply (Hfull {| Steps := [weightStep 25; weightStep 50; weightStep 100] |} eq_refl).
  simpl. lia.
Defined.


End ActionFacts.

(* ===================================================================== *)
(** * The informer side: properties *)
(* ===================================================================== *)

Module InformerFacts.
Import Go Errors Unstructured Rollout Informers.

Section Props.
Context {PodSpec : Type}.
Variable FromUnstructured : gmap string jvalue -> error + option (@RolloutObj PodSpec).
Variable ObjIntoPod : list RuntimeObject -> list (@Pod PodSpec).
Variable computePodSpecHash : PodSpec -> string.
Variable computeStepHash : @RolloutObj PodSpec -> string.

Local Abbreviation IsHealthy := (Rollout.IsHealthy computePodSpecHash FromUnstructured).
Local Abbreviation GetSteps := (Rollout.GetSteps computeStepHash FromUnstructured).
Local Abbreviation getRollout := (Informers.getRollout FromUnstructured).
Local Abbreviation getRolloutByNode := (Rollout.getRolloutByNode FromUnstructured).
Local Abbreviation ListPods := (Informers.ListPods FromUnstructured ObjIntoPod).

(** The informer path and the client path agree: when the cache holds
    for the node what the cluster answers, [getRollout] returns what
    [getRolloutByNode] returns, error wrapping included. *)
Theorem getRollout_agrees node informer client :
  Lister_Get informer (Node_Namespace node) (Node_Name node)
  = match Dynamic_Get client "argoproj.io" (Node_Version node) "rollouts"
            (Node_Namespace node) (Node_Name node) with
    | inl err => inl err
    | inr un => inr (ObjUnstructured un)
    end →
  getRollout node informer = getRolloutByNode node client.
Proof.
  intros Hsame. unfold Informers.getRollout, Rollout.getRolloutByNode. rewrite Hsame.
  by destruct (Dynamic_Get client _ _ _ _ _).
Qed.

(** What [ListPods] returns: pods without an error, or an error without
    pods.  The pods are those the pod informer lists in the namespace of
    the node under the labels of the rollout's template.  The error is
    GetFailed for a rollout the cache does not hold or holds in another
    type, the converter's error, or the pod lister's; the error about
    selectors is never returned. *)
Theorem ListPods_result node factory pods e :
  ListPods node factory = Ret (pods, e) →
  (∃ un instance objs,
     Lister_Get (factory GVRRollout) (Node_Namespace node) (Node_Name node)
     = inr (ObjUnstructured un)
     ∧ FromUnstructured (Object un) = inr (Some instance)
     ∧ Lister_List (factory GVRPod) (Node_Namespace node)
         (Labels (Template_ObjectMeta (Template (Spec instance)))) = inr objs
     ∧ pods = Some (ObjIntoPod objs) ∧ e = None)
  ∨ (pods = None
     ∧ ∃ err, e = Some err
       ∧ ((∃ k, err = ErrGetFailed ResourceInK8S "failed to get rollout in k8s" k
                ∧ (Lister_Get (factory GVRRollout) (Node_Namespace node) (Node_Name node)
                   = inl k
                   ∨ k = notUnstructured
                     ∧ ∃ kind, Lister_Get (factory GVRRollout) (Node_Namespace node)
                                 (Node_Name node) = inr (ObjOther kind)))
          ∨ (∃ un, Lister_Get (factory GVRRollout) (Node_Namespace node) (Node_Name node)
                   = inr (ObjUnstructured un)
                   ∧ FromUnstructured (Object un) = inl err)
          ∨ (∃ k, err = ErrK8s k))).
Proof.
  unfold Informers.ListPods, Informers.getRollout.
  destruct (Lister_Get _ _ _) as [k|[un|kind]] eqn:Eg.
  - rewrite bool_decide_true by done. intros [= <- <-].
    right. split; [done|]. eexists. split; [done|]. left. exists k. split; [done|]. by left.
  - destruct (FromUnstructured (Object un)) as [err|[instance|]] eqn:Ec.
    + rewrite bool_decide_true by done. intros [= <- <-].
      right. split; [done|]. eexists. split; [done|]. right. left. by exists un.
    + rewrite !bool_decide_false by (by intros ?).
      destruct (Lister_List _ _ _) as [k|objs] eqn:El; intros [= <- <-].
      * right. split; [done|]. eexists. split; [done|]. right. right. by exists k.
      * left. by exists un, instance, objs.
    + rewrite bool_decide_false by (by intros ?). done.
  - rewrite bool_decide_true by done. intros [= <- <-].
    right. split; [done|]. eexists. split; [done|]. left. exists notUnstructured.
    split; [done|]. right. split; [done|]. by exists kind.
Qed.

(** An object that converts without an error to a nil instance:
    [IsHealthy] calls it healthy, [GetSteps] and [ListPods] dereference
    the nil instance. *)
Theorem nil_instance node client factory un :
  Dynamic_Get client "argoproj.io" (Node_Version node) "rollouts"
    (Node_Namespace node) (Node_Name node) = inr un →
  Lister_Get (factory GVRRollout) (Node_Namespace node) (Node_Name node)
  = inr (ObjUnstructured un) →
  FromUnstructured (Object un) = inr None →
  IsHealthy node client = Ret (true, None)
  ∧ GetSteps node client = Panic nil_deref
  ∧ ListPods node factory = Panic nil_deref.
Proof.
  intros Hg Hl Hc.
  unfold Rollout.IsHealthy, Rollout.GetSteps, Rollout.getRolloutByNode,
    Informers.ListPods, Informers.getRollout.
  rewrite Hg, Hl, Hc. by rewrite bool_decide_false by (by intros ?).
Qed.

End Props.
(** ** The properties at concrete objects *)

Import Demo Samples.

Lemma getRollout_agrees_witness :
  Informers.getRollout (convertsTo rollout3) node
    (cacheOf (ObjUnstructured liveObject) [] GVRRollout)
  = (Some rollout3, Some liveObject, None).
Proof.
  rewrite (getRollout_agrees (convertsTo rollout3) node
             (cacheOf (ObjUnstructured liveObject) [] GVRRollout) (clientOf liveObject []));
    reflexivity.
Defined.

Lemma ListPods_result_witness :
  ∃ err, Informers.ListPods (convertsTo rollout3) podsOf node
           (cacheOf (ObjOther "ConfigMap") []) = Ret (None, Some err)
         ∧ err = ErrGetFailed ResourceInK8S "failed to get rollout in k8s" notUnstructured.
Proof.
  eexists. split; [reflexivity|].
  destruct (ListPods_result (convertsTo rollout3) podsOf node
              (cacheOf (ObjOther "ConfigMap") []) None _ eq_refl)
    as [(un & instance & objs & Hget & _)
       |(_ & err & He & [(k & -> & [Hget|[-> _]])|[(un & Hget & _)|[k Hk]]])].
  - discriminate Hget.
  - discriminate Hget.
  - reflexivity.
  - discriminate Hget.
  - subst err. discriminate He.
Defined.

Lemma nil_instance_witness :
  Rollout.IsHealthy hashPod (fun _ => inr None) node (clientOf liveObject [])
  = Ret (true, None)
  ∧ Rollout.GetSteps hashSteps (fun _ => inr None) node (clientOf liveObject [])
    = Panic nil_deref
  ∧ Informers.ListPods (fun _ => inr None) podsOf node
      (cacheOf (ObjUnstructured liveObject) []) = Panic nil_deref.
Proof.
  apply (nil_instance (fun _ => inr None) podsOf hashPod hashSteps node
           (clientOf liveObject []) (cacheOf (ObjUnstructured liveObject) []) liveObject);
    reflexivity.
Defined.

End InformerFacts.

(* ===================================================================== *)
(** * The deploy orchestrator: traces *)
(* ===================================================================== *)

Module DeployTraceFacts.
Import Go Errors Deploy DeployNotions.

Section Props.
Context {PipelineOutput RegionEntity : Type}.
Implicit Types (c : @controller PipelineOutput RegionEntity).

Ltac branch :=
  match goal with
  | |- context [match ?x with _ => _ end] =>
      lazymatch x with
      | context [match _ with _ => _ end] => fail
      | _ => destruct x eqn:?
      end
  end.

Ltac walk Hi i :=
  lazymatch type of Hi with
  | [] !! _ = Some _ => by destruct i
  | (_ :: _) !! _ = Some _ =>
      destruct i as [|i]; [simpl in Hi | simpl in Hi; walk Hi i]
  end.

Ltac explore_run :=
  unfold run, InternalDeployV2, bind, callV, callE, callP, deref, ret, fail;
  repeat branch; simpl.

(** A deploy that succeeds made these calls, in this order, each with
    the answers of the calls before it: the commit that
    UpdatePipelineOutput answered is stored and returned, the revision
    that MergeBranch answered is the one deployed, the CD cluster is
    created from the answers of the region manager and of Git, and the
    deploy names the cluster as UpdateByID gave it back when it was
    reset. *)
Theorem deploy_success_trace c clusterID pipelinerunID r resp :
  (run c clusterID pipelinerunID r).1 = Ok resp →
  ∃ pr cluster application tr commit masterRevision regionEntity envValue repoInfo deployed,
    pipelinerunMgr_GetByID c pipelinerunID = inr (Some pr)
    ∧ PR_ClusterID pr = clusterID
    ∧ clusterMgr_GetByID c clusterID = inr (Some cluster)
    ∧ applicationMgr_GetByID c (ApplicationID cluster) = inr (Some application)
    ∧ templateReleaseMgr_GetByTemplateNameAndRelease c
        (Cluster_Template cluster) (Cluster_TemplateRelease cluster) = inr (Some tr)
    ∧ clusterGitRepo_UpdatePipelineOutput c (App_Name application) (Cluster_Name cluster)
        (ChartName tr) r = inr commit
    ∧ clusterGitRepo_MergeBranch c (App_Name application) (Cluster_Name cluster) (PR_ID pr)
      = inr masterRevision
    ∧ regionMgr_GetRegionEntity c (RegionName cluster) = inr regionEntity
    ∧ clusterGitRepo_GetEnvValue c (App_Name application) (Cluster_Name cluster)
        (ChartName tr) = inr (Some envValue)
    ∧ clusterGitRepo_GetRepoInfo c (App_Name application) (Cluster_Name cluster)
      = Some repoInfo
    ∧ (if bool_decide (Cluster_Status cluster = ClusterStatusFreed)
       then clusterMgr_UpdateByID c (Cluster_ID cluster)
              (withStatus cluster ClusterStatusEmpty) = inr (Some deployed)
       else deployed = cluster)
    ∧ resp = {| PipelinerunID := PR_ID pr; Commit := commit |}
    ∧ Forall (fun ev => ev_ok ev = true) (run c clusterID pipelinerunID r).2
    ∧ calls (run c clusterID pipelinerunID r).2
      = [PipelinerunMgr_GetByID pipelinerunID;
         ClusterMgr_GetByID clusterID;
         ApplicationMgr_GetByID (ApplicationID cluster);
         TemplateReleaseMgr_Get (Cluster_Template cluster) (Cluster_TemplateRelease cluster);
         ClusterGitRepo_UpdatePipelineOutput (App_Name application) (Cluster_Name cluster)
           (ChartName tr);
         PipelinerunMgr_UpdateConfigCommitByID (PR_ID pr) commit;
         PipelinerunMgr_UpdateStatusByID (PR_ID pr) StatusCommitted;
         ClusterGitRepo_MergeBranch (App_Name application) (Cluster_Name cluster) (PR_ID pr);
         PipelinerunMgr_UpdateStatusByID (PR_ID pr) StatusMerged;
         RegionMgr_GetRegionEntity (RegionName cluster);
         ClusterGitRepo_GetEnvValue (App_Name application) (Cluster_Name cluster)
           (ChartName tr);
         ClusterGitRepo_GetRepoInfo (App_Name application) (Cluster_Name cluster);
         CD_CreateCluster {| CC_Environment := EnvironmentName cluster;
                             CC_Cluster := Cluster_Name cluster;
                             CC_GitRepoURL := GitRepoURL repoInfo;
                             CC_ValueFiles := ValueFiles repoInfo;
                             CC_RegionEntity := regionEntity;
                             CC_Namespace := Env_Namespace envValue |}]
        ++ (if bool_decide (Cluster_Status cluster = ClusterStatusFreed)
            then [ClusterMgr_UpdateByID (Cluster_ID cluster)
                    (withStatus cluster ClusterStatusEmpty)]
            else [])
        ++ [CD_DeployCluster {| DC_Environment := EnvironmentName deployed;
                                DC_Cluster := Cluster_Name deployed;
                                DC_Revision := masterRevision |};
            PipelinerunMgr_UpdateStatusByID (PR_ID pr) StatusOK].
Proof.
  explore_run; intros Hok; try discriminate; injection Hok as <-;
    eexists _, _, _, _, _, _, _, _, _, _;
    repeat match goal with
           | H : bool_decide _ = _ |- _ =>
               first [ apply bool_decide_eq_false in H; apply dec_stable in H
                     | rewrite H ]
           end;
    split_and!; try reflexivity; try eassumption;
    repeat constructor.
Qed.

(** A deploy that fails either found no PipelineRun for the cluster, or
    stopped at the one call that failed, its last one, and returns the
    error of that call: wrapped with the operation name when the call
    writes to Git, as it came otherwise. *)
Theorem deploy_failure_error c clusterID pipelinerunID r e :
  (run c clusterID pipelinerunID r).1 = Fail e →
  (e = ErrNotFound PipelinerunSource "cannot find the pipelinerun"
   ∧ (run c clusterID pipelinerunID r).2
     = [{| ev_call := PipelinerunMgr_GetByID pipelinerunID; ev_ok := true |}])
  ∨ (∃ cl e0,
       last (run c clusterID pipelinerunID r).2 = Some {| ev_call := cl; ev_ok := false |}
       ∧ answer_error c r cl = Some e0
       ∧ e = (if is_git_write cl then ErrWithMessage e0 op else e0)
       ∧ Cause e = Cause e0).
Proof.
  explore_run; intros Hf; try discriminate; injection Hf as <-;
    first [ left; split; reflexivity
          | right; eexists _, _; split; [reflexivity|];
            cbn [withStatus Cluster_ID] in *; simpl;
            split; [ try match goal with
                         | H : ?x = inl _ |- context [?x] => rewrite H
                         end; first [reflexivity | eassumption] |];
            split; reflexivity ].
Qed.

(** No call is made twice in one deploy. *)
Theorem deploy_calls_once c clusterID pipelinerunID r :
  NoDup (calls (run c clusterID pipelinerunID r).2).
Proof.
  explore_run;
    repeat (apply NoDup_cons; split;
            [ intros Hin;
              repeat (apply elem_of_cons in Hin as [Hin|Hin]; [discriminate|]);
              by apply not_elem_of_nil in Hin | ]);
    apply NoDup_nil_2.
Qed.

(** A deploy panics only on a nil pointer, at one of three points: before
    it has changed anything (the cluster, the application or the template
    release is nil), after the merge with the status Merged stored and
    the CD cluster not yet created (the env value or the repo info is
    nil), or after the reset of a Freed cluster (the update gave back a
    nil cluster). *)
Theorem deploy_panic_points c clusterID pipelinerunID r why :
  (run c clusterID pipelinerunID r).1 = Crash why →
  why = nil_deref
  ∧ Forall (fun ev => ev_ok ev = true) (run c clusterID pipelinerunID r).2
  ∧ (effects (run c clusterID pipelinerunID r).2 = []
     ∨ effects (run c clusterID pipelinerunID r).2
       = [ConfigWritten; ConfigCommitStored; StatusSet StatusCommitted;
          BranchMerged; StatusSet StatusMerged]
     ∨ effects (run c clusterID pipelinerunID r).2
       = [ConfigWritten; ConfigCommitStored; StatusSet StatusCommitted;
          BranchMerged; StatusSet StatusMerged; ClusterCreated;
          ClusterReset ClusterStatusEmpty]).
Proof.
  explore_run; intros Hc; try discriminate; injection Hc as <-;
    (split; [reflexivity|]); (split; [repeat constructor|]); auto.
Qed.

(** The cluster row is written at most once, after the CD cluster has
    been created, and only for a cluster found Freed: what is written is
    the loaded cluster with the status Empty. *)
Theorem deploy_cluster_update c clusterID pipelinerunID r i id cluster ok :
  (run c clusterID pipelinerunID r).2 !! i
  = Some {| ev_call := ClusterMgr_UpdateByID id cluster; ev_ok := ok |} →
  ∃ loaded,
    clusterMgr_GetByID c clusterID = inr (Some loaded)
    ∧ Cluster_Status loaded = ClusterStatusFreed
    ∧ id = Cluster_ID loaded
    ∧ cluster = withStatus loaded ClusterStatusEmpty
    ∧ ClusterCreated ∈ effects (take i (run c clusterID pipelinerunID r).2).
Proof.
  explore_run; intros Hi; walk Hi i; try discriminate Hi;
    injection Hi as <- <- <-;
    eexists; (split; [reflexivity|]);
    match goal with
    | H : bool_decide _ = true |- _ => apply bool_decide_eq_true in H
    end;
    split_and!; try done; simpl;
    repeat first [apply list_elem_of_here | apply list_elem_of_further].
Qed.

End Props.
(** ** The properties at concrete controllers *)

Import Demo Samples.

Lemma deploy_success_trace_witness :
  ∃ resp, (run (controllerOf ClusterStatusFreed) 7 42 "image: web:v2").1 = Ok resp
          ∧ Commit resp = "c0ffee"
          ∧ Forall (fun ev => ev_ok ev = true)
                   (run (controllerOf ClusterStatusFreed) 7 42 "image: web:v2").2.
Proof.
  eexists. split; [reflexivity|]. split; [reflexivity|].
  destruct (deploy_success_trace (controllerOf ClusterStatusFreed) 7 42 "image: web:v2"
              _ eq_refl)
    as (pr & cluster & application & tr & commit & masterRevision & regionEntity
        & envValue & repoInfo & deployed & _ & _ & _ & _ & _ & _ & _ & _ & _ & _ & _ & _
        & Hall & _).
  exact Hall.
Defined.

Lemma deploy_failure_error_witness :
  ∃ cl e0,
    last (run controllerMergeFails 7 42 "image: web:v2").2
    = Some {| ev_call := cl; ev_ok := false |}
    ∧ answer_error controllerMergeFails "image: web:v2" cl = Some e0
    ∧ Cause (ErrWithMessage (ErrOther "merge conflict") op) = Cause e0.
Proof.
  destruct (deploy_failure_error controllerMergeFails 7 42 "image: web:v2"
              (ErrWithMessage (ErrOther "merge conflict") op) eq_refl)
    as [[He _]|(cl & e0 & Hlast & Hanswer & _ & Hcause)].
  - discriminate He.
  - exists cl, e0. split; [exact Hlast|]. split; [exact Hanswer | exact Hcause].
Defined.

Lemma deploy_panic_points_witness :
  (run controllerNoEnvValue 7 42 "image: web:v2").1 = Crash nil_deref
  ∧ Forall (fun ev => ev_ok ev = true) (run controllerNoEnvValue 7 42 "image: web:v2").2
  ∧ statusAfter StatusCreated (effects (run controllerNoEnvValue 7 42 "image: web:v2").2)
    = StatusMerged.
Proof.
  split; [reflexivity|].
  destruct (deploy_panic_points controllerNoEnvValue 7 42 "image: web:v2" nil_deref eq_refl)
    as (_ & Hall & _).
  split; [exact Hall | reflexivity].
Defined.

Lemma deploy_cluster_update_witness :
  ∃ loaded,
    clusterMgr_GetByID (controllerOf ClusterStatusFreed) 7 = inr (Some loaded)
    ∧ Cluster_Status loaded = ClusterStatusFreed
    ∧ ClusterCreated
      ∈ effects (take 13 (run (controllerOf ClusterStatusFreed) 7 42 "image: web:v2").2).
Proof.
  destruct (deploy_cluster_update (controllerOf ClusterStatusFreed) 7 42 "image: web:v2"
              13 7%N (withStatus (clusterIn ClusterStatusFreed) ClusterStatusEmpty) true
              eq_refl)
    as (loaded & Hloaded & Hfreed & _ & _ & Hcreated).
  exists loaded. split; [exact Hloaded|]. split; [exact Hfreed | exact Hcreated].
Defined.

End DeployTraceFacts.

(* ===================================================================== *)
(** * The request middlewares: properties *)
(* ===================================================================== *)

Module ServerFacts.
Import Go Errors Server.

(** ** strconv.Atoi on the decimal rendering of an ID *)

Lemma digit_pretty_N_char (x : N) :
  (x < 10)%N → digit (pretty_N_char x) = Some (Z.of_N x).
Proof.
  intros Hx. destruct x as [|p]; [done|].
  do 4 (try destruct p as [p|p|]); try lia; reflexivity.
Qed.

Lemma decimal_pretty_N_go (x : N) s :
  decimal (pretty_N_go x s) 0 = decimal s (Z.of_N x).
Proof.
  revert s. induction (N.lt_wf_0 x) as [x _ IH]; intros s.
  destruct (decide (x = 0%N)) as [->|Hx]; [by rewrite pretty_N_go_0|].
  rewrite pretty_N_go_step by lia.
  rewrite IH by (apply N.div_lt; lia).
  cbn [decimal]. rewrite digit_pretty_N_char by (apply N.mod_lt; lia).
  f_equal. rewrite N2Z.inj_div, N2Z.inj_mod. change (Z.of_N 10) with 10.
  pose proof (Z.div_mod (Z.of_N x) 10). lia.
Qed.

Lemma pretty_N_go_nonempty (x : N) s : s ≠ EmptyString → pretty_N_go x s ≠ EmptyString.
Proof.
  revert s. induction (N.lt_wf_0 x) as [x _ IH]; intros s Hs.
  destruct (decide (x = 0%N)) as [->|Hx]; [by rewrite pretty_N_go_0|].
  rewrite pretty_N_go_step by lia. apply IH; [apply N.div_lt; lia|done].
Qed.

Lemma decimal_pretty (x : N) :
  decimal (pretty x) 0 = Some (Z.of_N x) ∧ pretty x ≠ EmptyString.
Proof.
  unfold pretty, pretty_N. case_decide as Hx; [by subst|].
  split; [by rewrite decimal_pretty_N_go|].
  rewrite pretty_N_go_step by lia. by apply pretty_N_go_nonempty.
Qed.

(** Text that reads as decimal digits carries no sign: [Atoi] gives its
    value when [int] holds it, and an error otherwise. *)
Lemma Atoi_decimal s v :
  s ≠ EmptyString → decimal s 0 = Some v →
  Atoi s = if (int_min <=? v) && (v <=? int_max) then Some v else None.
Proof.
  intros Hs Hv. destruct s as [|a s]; [done|].
  assert (Hd : is_Some (digit a)).
  { cbn [decimal] in Hv. destruct (digit a); [by eexists|done]. }
  unfold Atoi.
  destruct a as [[] [] [] [] [] [] [] []];
    try (destruct Hd as [? Hd]; discriminate Hd);
    by rewrite Hv.
Qed.

Lemma Atoi_pretty_small (id : N) :
  (id < 2 ^ 63)%N → Atoi (pretty id) = Some (Z.of_N id).
Proof.
  intros Hid. destruct (decimal_pretty id) as [Hd Hne].
  rewrite (Atoi_decimal _ _ Hne Hd).
  assert (Z.of_N id < 2 ^ 63).
  { change (2 ^ 63) with (Z.of_N (2 ^ 63)). lia. }
  unfold int_min, int_max.
  rewrite (proj2 (Z.leb_le _ _)), (proj2 (Z.leb_le _ _)) by lia. done.
Qed.

(** [Atoi] reads back the decimal rendering of an ID exactly when the ID
    is below 2^63, the IDs an [int] holds. *)
Theorem Atoi_pretty (id : N) :
  Atoi (pretty id) = if (id <? 2 ^ 63)%N then Some (Z.of_N id) else None.
Proof.
  destruct (N.ltb_spec id (2 ^ 63)) as [Hid|Hid]; [by apply Atoi_pretty_small|].
  destruct (decimal_pretty id) as [Hd Hne].
  rewrite (Atoi_decimal _ _ Hne Hd).
  assert (2 ^ 63 ≤ Z.of_N id).
  { change (2 ^ 63) with (Z.of_N (2 ^ 63)). lia. }
  unfold int_max. rewrite (proj2 (Z.leb_gt (Z.of_N id) (2 ^ 63 - 1))) by lia.
  by rewrite andb_false_r.
Qed.

(** ** prehandle.Middleware *)

Section Prehandle.
Variable NewRequestInfo : Request -> error + RequestInfo.
Variable ApplicationManager_GetByName : string -> error + option N.
Variable ClusterMgr_GetByName : string -> error + option N.
Variable ContextAuthRecord ResourceApplication ResourceCluster : string.
Variable ApplicationInDB ClusterInDB : string.
Variable path_Join : list string -> string.

Local Abbreviation Middleware :=
  (Server.Middleware NewRequestInfo ApplicationManager_GetByName ClusterMgr_GetByName
     ContextAuthRecord ResourceApplication ResourceCluster ApplicationInDB ClusterInDB
     path_Join).
Local Abbreviation redirectPath := (Server.redirectPath path_Join).
Local Abbreviation stored requestInfo c :=
  (Set_ ContextAuthRecord (VRecord (recordOf requestInfo)) c).

(** Once the request info is built, the middleware ends in one of four
    ways, and which one does not depend on the rest of the chain: it
    hands the context, with the record stored and nothing else changed,
    to the next handler; or it has the engine handle the context under
    the rewritten path and aborts what comes back; or it answers
    NotFound and aborts; or it dereferences a nil lookup result. *)
Theorem prehandle_continuation c requestInfo :
  NewRequestInfo (Ctx_Request c) = inr requestInfo →
  (∀ HandleContext Next,
     Middleware HandleContext Next c = Next (stored requestInfo c))
  ∨ (∃ id, ∀ HandleContext Next,
       Middleware HandleContext Next c
       = match HandleContext (withPath (redirectPath requestInfo id)
                                (stored requestInfo c)) with
         | Ret c' => Ret (Abort c')
         | Panic why => Panic why
         end)
  ∨ (∃ err, is_NotFound err = true
       ∧ ∀ HandleContext Next,
           Middleware HandleContext Next c
           = Ret (AbortWith (RPCErrorResponse NotFoundError err) (stored requestInfo c)))
  ∨ (∀ HandleContext Next, Middleware HandleContext Next c = Panic nil_deref).
Proof.
  intros Hinfo. unfold Server.Middleware. rewrite Hinfo.
  destruct (_ && _); [|by left].
  assert (Hlookup : ∀ GetByName source,
    lookupByName GetByName source (Name (recordOf requestInfo)) (stored requestInfo c)
      = Ret (inr (false, 0%N))
    ∨ (∃ id, lookupByName GetByName source (Name (recordOf requestInfo))
               (stored requestInfo c) = Ret (inr (true, id)))
    ∨ (∃ err, is_NotFound err = true
         ∧ lookupByName GetByName source (Name (recordOf requestInfo))
             (stored requestInfo c)
           = Ret (inl (AbortWith (RPCErrorResponse NotFoundError err)
                         (stored requestInfo c))))
    ∨ lookupByName GetByName source (Name (recordOf requestInfo))
        (stored requestInfo c) = Panic nil_deref).
  { intros GetByName source. unfold lookupByName.
    destruct (GetByName _) as [err|[id|]].
    - destruct (notFoundIn source err) eqn:Enf; [|by left].
      right. right. left. exists err. split; [|done].
      unfold notFoundIn in Enf. unfold is_NotFound. by destruct (Cause err).
    - right. left. by exists id.
    - by right; right; right. }
  destruct (bool_decide (Resource _ = ResourceApplication)).
  - destruct (Hlookup ApplicationManager_GetByName ApplicationInDB)
      as [-> | [[id ->] | [(err & Hnf & ->) | ->]]]; eauto 10.
  - destruct (bool_decide (Resource _ = ResourceCluster)); [|by left].
    destruct (Hlookup ClusterMgr_GetByName ClusterInDB)
      as [-> | [[id ->] | [(err & Hnf & ->) | ->]]]; eauto 10.
Qed.

(** A request that names a resource by the decimal rendering of an ID
    below 2^63, as the rewritten path of a redirect does, is handed to
    the next handler: no lookup, no second redirect. *)
Theorem prehandle_redirect_settles c requestInfo (id : N) HandleContext Next :
  NewRequestInfo (Ctx_Request c) = inr requestInfo →
  RI_Name requestInfo = pretty id →
  (id < 2 ^ 63)%N →
  Middleware HandleContext Next c = Next (stored requestInfo c).
Proof.
  intros Hinfo Hname Hid. unfold Server.Middleware. rewrite Hinfo.
  cbn [recordOf Name]. rewrite Hname, (Atoi_pretty_small id Hid).
  by rewrite bool_decide_false.
Qed.

(** A lookup that fails with anything but a NotFound of the resource's
    own source is passed over: the request goes on to the next handler
    as it came, the name still in its path. *)
Theorem prehandle_lookup_error_ignored c requestInfo err HandleContext Next :
  NewRequestInfo (Ctx_Request c) = inr requestInfo →
  (RI_Resource requestInfo = ResourceApplication
   ∧ ApplicationManager_GetByName (RI_Name requestInfo) = inl err
   ∧ notFoundIn ApplicationInDB err = false)
  ∨ (RI_Resource requestInfo ≠ ResourceApplication
     ∧ RI_Resource requestInfo = ResourceCluster
     ∧ ClusterMgr_GetByName (RI_Name requestInfo) = inl err
     ∧ notFoundIn ClusterInDB err = false) →
  Middleware HandleContext Next c = Next (stored requestInfo c).
Proof.
  intros Hinfo Hcase. unfold Server.Middleware. rewrite Hinfo.
  cbn [recordOf Name Resource]. destruct (_ && _); [|done].
  unfold lookupByName.
  destruct Hcase as [(Hres & Hget & Hnf)|(Hne & Hres & Hget & Hnf)].
  - rewrite bool_decide_true by done. by rewrite Hget, Hnf.
  - rewrite bool_decide_false by done. rewrite bool_decide_true by done.
    by rewrite Hget, Hnf.
Qed.

End Prehandle.

(** ** auth.Middleware *)

Section Auth.
Variable Authorize : AttributesRecord -> Z * string * option error.
Variable DecisionDeny : Z.
Variable ContextAuthRecord : string.

Local Abbreviation AuthMiddleware :=
  (Server.AuthMiddleware Authorize DecisionDeny ContextAuthRecord).


End Auth.

(** ** The two middlewares in a chain *)

Section Chain.
Variable NewRequestInfo : Request -> error + RequestInfo.
Variable ApplicationManager_GetByName : string -> error + option N.
Variable ClusterMgr_GetByName : string -> error + option N.
Variable ContextAuthRecord ResourceApplication ResourceCluster : string.
Variable ApplicationInDB ClusterInDB : string.
Variable path_Join : list string -> string.
Variable Authorize : AttributesRecord -> Z * string * option error.
Variable DecisionDeny : Z.

(** [prehandle] with [auth] as the next handler. *)
Local Abbreviation chain HandleContext Next :=
  (Server.Middleware NewRequestInfo ApplicationManager_GetByName ClusterMgr_GetByName
     ContextAuthRecord ResourceApplication ResourceCluster ApplicationInDB ClusterInDB
     path_Join HandleContext
     (Server.AuthMiddleware Authorize DecisionDeny ContextAuthRecord Next)).


End Chain.
(** ** The properties at concrete requests *)

Import Samples.

Lemma prehandle_continuation_witness :
  ∃ id, ∀ HandleContext Next,
    prehandleFor "web" HandleContext Next (freshContext "web")
    = match HandleContext (withPath (redirectPath joined (infoFor "web") id)
                             (storedContext "web")) with
      | Ret c' => Ret (Abort c')
      | Panic why => Panic why
      end.
Proof.
  destruct (prehandle_continuation (factoryFor "web") applications clusters "authRecord"
              "applications" "clusters" "ApplicationInDB" "ClusterInDB" joined
              (freshContext "web") (infoFor "web") eq_refl)
    as [Hnext|[[id Hre]|[(err & _ & Hnf)|Hp]]].
  - specialize (Hnext Ret (fun _ => Panic "next")). vm_compute in Hnext. discriminate Hnext.
  - exists id. exact Hre.
  - specialize (Hnf (fun _ => Panic "handle") Ret). vm_compute in Hnf. discriminate Hnf.
  - specialize (Hp Ret Ret). vm_compute in Hp. discriminate Hp.
Defined.

Lemma prehandle_redirect_settles_witness :
  prehandleFor "3" (fun _ => Panic "handle") Ret (freshContext "3")
  = Ret (storedContext "3").
Proof.
  apply (prehandle_redirect_settles (factoryFor "3") applications clusters "authRecord"
           "applications" "clusters" "ApplicationInDB" "ClusterInDB" joined
           (freshContext "3") (infoFor "3") 3%N);
    [reflexivity | vm_compute; reflexivity | reflexivity].
Defined.

Lemma prehandle_lookup_error_ignored_witness :
  prehandleFor "api" (fun _ => Panic "handle") Ret (freshContext "api")
  = Ret (storedContext "api").
Proof.
  apply (prehandle_lookup_error_ignored (factoryFor "api") applications clusters "authRecord"
           "applications" "clusters" "ApplicationInDB" "ClusterInDB" joined
           (freshContext "api") (infoFor "api") (ErrOther "connection refused"));
    [reflexivity|].
  left. split; [reflexivity|]. split; [vm_compute; reflexivity | reflexivity].
Defined.


End ServerFacts.
